(** * gmail-download: MIME body resolution and thread aggregation

    A shallow embedding of [gmail_download/gmail_download.py]: the MIME part
    walker ([get_next_part]), the body decoder ([parse_body]), the search
    query builder and the thread aggregation passes of [gmail_query.query],
    together with the pieces of the Python runtime they call. *)

From Stdlib Require Import ZArith NArith String Ascii Lia DecimalString.
From stdpp Require Import base option list gmap sets.

Open Scope N_scope.
Set Warnings "-register-all".

(** ** Python values *)

Module Py.

(** A Python [str] is a sequence of Unicode code points. *)
Abbreviation str := (list N).

(** [py "abc"] is the Python literal ['abc']. *)
Definition py (s : string) : str := map N_of_ascii (list_ascii_of_string s).

(** The exceptions the modelled code can raise. *)
Inductive exn :=
| KeyError | TypeError | IndexError | NameError
| ValueError | BinasciiError | UnicodeEncodeError | UnicodeDecodeError
| OverflowError | OSError | Warning.

(** A computation returns a value or raises. *)
Inductive result (A : Type) :=
| Ok (a : A)
| Raise (e : exn).
Arguments Ok {A} a.
Arguments Raise {A} e.

Definition bind {A B} (m : result A) (k : A -> result B) : result B :=
  match m with
  | Ok a => k a
  | Raise e => Raise e
  end.

Definition raises {A} (m : result A) : bool :=
  match m with Ok _ => false | Raise _ => true end.

(** What [json.loads] yields for an API response (floats are outside the
    model): [None], [bool], [int], [str], [list] and [dict] with string keys.
    A dict keeps its items as a list; lookup takes the first binding. *)
Inductive value :=
| VNone
| VBool (b : bool)
| VInt (z : Z)
| VStr (s : str)
| VList (l : list value)
| VDict (d : list (str * value)).

Fixpoint assoc {V} (k : str) (d : list (str * V)) : option V :=
  match d with
  | [] => None
  | (k', v) :: d' => if decide (k = k') then Some v else assoc k d'
  end.

(** [v[k]] for a string key [k]: only a dict has string subscripts. *)
Definition getitem (v : value) (k : str) : result value :=
  match v with
  | VDict d => match assoc k d with
               | Some x => Ok x
               | None => Raise KeyError
               end
  | _ => Raise TypeError
  end.

(** [l[0]]. *)
Definition getitem0 (l : list value) : result value :=
  match l with
  | x :: _ => Ok x
  | [] => Raise IndexError
  end.

(** [type(v) is list]. *)
Definition is_list (v : value) : bool :=
  match v with VList _ => true | _ => false end.

(** [v == s] for a string [s]: no other JSON value equals a string. *)
Definition eq_str (v : value) (s : str) : bool :=
  match v with VStr s' => bool_decide (s' = s) | _ => false end.

(** [v in allowed] for a list of strings [allowed]. *)
Definition in_strs (v : value) (allowed : list str) : bool :=
  existsb (eq_str v) allowed.

End Py.
Import Py.

Notation "'let*' x ':=' m 'in' k" := (bind m (fun x => k))
  (at level 10, x pattern, m at level 100, k at level 200).

(** ** Text and transport codecs

    [str.encode('utf-8')], [bytes.decode('utf-8')] and the [base64] module's
    URL-safe functions, as CPython implements them.  A [bytes] object is a
    list of numbers below 256.  Bit shifts and masks are written as the
    divisions and remainders they compute. *)

Module Codec.

Abbreviation bytes := (list N).

Definition is_surrogate (c : N) : bool := (0xD800 <=? c) && (c <=? 0xDFFF).

(** The UTF-8 form of one code point; a lone surrogate cannot be encoded. *)
Definition utf8_char (c : N) : result bytes :=
  if c <? 0x80 then Ok [c]
  else if c <? 0x800 then Ok [0xC0 + c / 64; 0x80 + c mod 64]
  else if c <? 0x10000 then
    if is_surrogate c then Raise UnicodeEncodeError
    else Ok [0xE0 + c / 4096; 0x80 + c / 64 mod 64; 0x80 + c mod 64]
  else if c <? 0x110000 then
    Ok [0xF0 + c / 262144; 0x80 + c / 4096 mod 64; 0x80 + c / 64 mod 64;
        0x80 + c mod 64]
  else Raise UnicodeEncodeError.

(** [s.encode('utf-8')] *)
Fixpoint utf8_encode (s : str) : result bytes :=
  match s with
  | [] => Ok []
  | c :: s' =>
      let* b := utf8_char c in
      let* r := utf8_encode s' in
      Ok (b ++ r)
  end.

(** A continuation byte. *)
Definition cont (b : N) : bool := (0x80 <=? b) && (b <=? 0xBF).

(** The second byte of a three-byte form: no overlong form, no surrogate. *)
Definition second3 (b0 b1 : N) : bool :=
  if b0 =? 0xE0 then (0xA0 <=? b1) && (b1 <=? 0xBF)
  else if b0 =? 0xED then (0x80 <=? b1) && (b1 <=? 0x9F)
  else cont b1.

(** The second byte of a four-byte form: no overlong form, at most U+10FFFF. *)
Definition second4 (b0 b1 : N) : bool :=
  if b0 =? 0xF0 then (0x90 <=? b1) && (b1 <=? 0xBF)
  else if b0 =? 0xF4 then (0x80 <=? b1) && (b1 <=? 0x8F)
  else cont b1.

(** [b.decode('utf-8')], strict. *)
Fixpoint utf8_decode (bs : bytes) : result str :=
  match bs with
  | [] => Ok []
  | b0 :: r0 =>
      if b0 <? 0x80 then
        let* s := utf8_decode r0 in Ok (b0 :: s)
      else if b0 <? 0xC2 then Raise UnicodeDecodeError
      else if b0 <? 0xE0 then
        match r0 with
        | b1 :: r1 =>
            if cont b1 then
              let* s := utf8_decode r1 in
              Ok (b0 mod 32 * 64 + b1 mod 64 :: s)
            else Raise UnicodeDecodeError
        | _ => Raise UnicodeDecodeError
        end
      else if b0 <? 0xF0 then
        match r0 with
        | b1 :: b2 :: r2 =>
            if second3 b0 b1 && cont b2 then
              let* s := utf8_decode r2 in
              Ok (b0 mod 16 * 4096 + b1 mod 64 * 64 + b2 mod 64 :: s)
            else Raise UnicodeDecodeError
        | _ => Raise UnicodeDecodeError
        end
      else if b0 <? 0xF5 then
        match r0 with
        | b1 :: b2 :: b3 :: r3 =>
            if second4 b0 b1 && cont b2 && cont b3 then
              let* s := utf8_decode r3 in
              Ok (b0 mod 8 * 262144 + b1 mod 64 * 4096 + b2 mod 64 * 64
                  + b3 mod 64 :: s)
            else Raise UnicodeDecodeError
        | _ => Raise UnicodeDecodeError
        end
      else Raise UnicodeDecodeError
  end.

(** [table_b2a_base64]: the character of a 6-bit group. *)
Definition b2a_table (i : N) : N :=
  if i <? 26 then 65 + i
  else if i <? 52 then 97 + (i - 26)
  else if i <? 62 then 48 + (i - 52)
  else if i =? 62 then 43
  else 47.

Definition pad : N := 61.

(** [binascii.b2a_base64(bs, newline=False)] *)
Fixpoint b2a_base64 (bs : bytes) : bytes :=
  match bs with
  | [] => []
  | [a] => [b2a_table (a / 4); b2a_table (a mod 4 * 16); pad; pad]
  | [a; b] =>
      [b2a_table (a / 4); b2a_table (a mod 4 * 16 + b / 16);
       b2a_table (b mod 16 * 4); pad]
  | a :: b :: c :: rest =>
      b2a_table (a / 4) :: b2a_table (a mod 4 * 16 + b / 16)
      :: b2a_table (b mod 16 * 4 + c / 64) :: b2a_table (c mod 64)
      :: b2a_base64 rest
  end.

(** [_urlsafe_encode_translation]: [+] becomes [-] and [/] becomes [_]. *)
Definition urlsafe_out (c : N) : N :=
  if c =? 43 then 45 else if c =? 47 then 95 else c.

(** [_urlsafe_decode_translation]: [-] becomes [+] and [_] becomes [/]. *)
Definition urlsafe_in (c : N) : N :=
  if c =? 45 then 43 else if c =? 95 then 47 else c.

(** [base64.urlsafe_b64encode(bs)] *)
Definition urlsafe_b64encode (bs : bytes) : bytes :=
  map urlsafe_out (b2a_base64 bs).

(** [table_a2b_base64]: the 6-bit group of a character of the alphabet. *)
Definition a2b_table (c : N) : option N :=
  if (65 <=? c) && (c <=? 90) then Some (c - 65)
  else if (97 <=? c) && (c <=? 122) then Some (c - 71)
  else if (48 <=? c) && (c <=? 57) then Some (c + 4)
  else if c =? 43 then Some 62
  else if c =? 47 then Some 63
  else None.

(** [binascii.a2b_base64(data)], not strict: characters outside the alphabet
    are skipped, a pad that completes a quad ends the input, and leftover
    groups are an error.  [quad_pos], [leftchar] and [pads] are the C loop's
    variables. *)
Fixpoint a2b_loop (data : bytes) (quad_pos leftchar pads : N) : result bytes :=
  match data with
  | [] => if quad_pos =? 0 then Ok [] else Raise BinasciiError
  | this_ch :: rest =>
      if this_ch =? pad then
        if 2 <=? quad_pos then
          if 4 <=? quad_pos + (pads + 1) then Ok []
          else a2b_loop rest quad_pos leftchar (pads + 1)
        else a2b_loop rest quad_pos leftchar pads
      else
        match a2b_table this_ch with
        | None => a2b_loop rest quad_pos leftchar pads
        | Some v =>
            if quad_pos =? 0 then a2b_loop rest 1 v 0
            else if quad_pos =? 1 then
              let* out := a2b_loop rest 2 (v mod 16) 0 in
              Ok (leftchar * 4 + v / 16 :: out)
            else if quad_pos =? 2 then
              let* out := a2b_loop rest 3 (v mod 4) 0 in
              Ok (leftchar * 16 + v / 4 :: out)
            else
              let* out := a2b_loop rest 0 0 0 in
              Ok (leftchar * 64 + v :: out)
        end
  end.

Definition a2b_base64 (data : bytes) : result bytes := a2b_loop data 0 0 0.

(** [base64.urlsafe_b64decode(s)] for a [bytes] argument. *)
Definition urlsafe_b64decode (s : bytes) : result bytes :=
  a2b_base64 (map urlsafe_in s).

(** The transport encoding of a text payload:
    [base64.urlsafe_b64encode(text.encode('utf-8')).decode('ascii')]. *)
Definition transport_encode (text : str) : result str :=
  let* raw := utf8_encode text in
  Ok (urlsafe_b64encode raw).

End Codec.
Import Codec.

(** ** Dates and the runtime behind the program

    [datetime.date] values with the calendar arithmetic the program uses, and
    the interface of what it calls but does not define: [dateutil]'s parser,
    the time zone database, the parts of [str] that depend on the Unicode
    database, the standard output and the file system.  A call to the
    standard output or to the file system returns or raises as the host
    decides. *)

Module Runtime.

Record date := Date { year : Z; month : Z; day : Z }.

Definition is_leap (y : Z) : bool :=
  ((y mod 4 =? 0) && (negb (y mod 100 =? 0) || (y mod 400 =? 0)))%Z.

Definition days_in_month (y m : Z) : Z :=
  (if m =? 2 then (if is_leap y then 29 else 28)
   else if (m =? 4) || (m =? 6) || (m =? 9) || (m =? 11) then 30
   else 31)%Z.

(** [d + datetime.timedelta(days=1)]; the last day of year 9999 has no
    successor. *)
Definition next_day (d : date) : result date :=
  (if day d <? days_in_month (year d) (month d)
   then Ok (Date (year d) (month d) (day d + 1))
   else if month d <? 12 then Ok (Date (year d) (month d + 1) 1)
   else if year d <? 9999 then Ok (Date (year d + 1) 1 1)
   else Raise OverflowError)%Z.

(** [d + 1]: [datetime.date] has no addition with an [int]. *)
Definition date_add_int (d : date) (n : Z) : result date := Raise TypeError.

(** [str(n)] for an [int]. *)
Definition int_str (n : Z) : str := py (NilZero.string_of_int (Z.to_int n)).

(** [n] in decimal, zero-padded on the left to [width] digits, for the
    non-negative fields of a date. *)
Definition digits (width : nat) (n : Z) : str :=
  let s := int_str n in
  replicate (width - length s) 48 ++ s.

(** [str(d)]: the ISO form [YYYY-MM-DD]. *)
Definition date_str (d : date) : str :=
  digits 4 (year d) ++ py "-" ++ digits 2 (month d) ++ py "-" ++ digits 2 (day d).

(** A [datetime.datetime]: calendar date, wall-clock time, and the offset
    from UTC in seconds when it is time-zone aware. *)
Record datetime := Datetime {
  dt_date : date;
  dt_hour : Z;
  dt_minute : Z;
  dt_second : Z;
  dt_utcoffset : option Z
}.

(** What the program calls but does not define. *)
Class Runtime := {
  (** [str(v)] of a list or a dict: its [repr] *)
  container_str : value -> str;
  (** [s.lower()] *)
  str_lower : str -> str;
  (** [dateutil.parser.parse(s)] *)
  date_parse : str -> result datetime;
  (** [dt.astimezone(tz=tz.gettz(tz_locale)).strftime("%A %b %d, %Y, %I:%M %p %Z")] *)
  strftime_in : datetime -> str -> result str;
  (** [str(dt)] *)
  datetime_str : datetime -> str;
  (** [print(s)] *)
  print : str -> result unit;
  (** [path.mkdir(parents=True, exist_ok=True)] for [path = outdir / dir] *)
  mkdir : str -> result unit;
  (** [open(outdir / dir / name, 'w')] *)
  open : str -> str -> result unit;
  (** [f.write(text)] on the file opened at [outdir / dir / name], and the
      closing of [f] when the [with] block ends *)
  write : str -> str -> str -> result unit
}.

(** [str(v)], which is also how an f-string renders [v]. *)
Definition py_str `{Runtime} (v : value) : str :=
  match v with
  | VNone => py "None"
  | VBool true => py "True"
  | VBool false => py "False"
  | VInt z => int_str z
  | VStr s => s
  | VList _ | VDict _ => container_str v
  end.

End Runtime.
Import Runtime.

(** ** The MIME part walker *)

Module Walker.

(** [if type(parts) is not list: parts = [parts]] *)
Definition as_list (parts : value) : list value :=
  match parts with
  | VList l => l
  | v => [v]
  end.

(** The loop of the list branch: the first sibling whose [search] field is in
    [allowed] ends it with [True]; a sibling without that field raises.  The
    negated [criteria] the source computes here is never read. *)
Fixpoint any_sibling (search : str) (allowed : list str) (ms : list value)
  : result bool :=
  match ms with
  | [] => Ok false
  | m :: ms' =>
      let* v := getitem m search in
      if in_strs v allowed then Ok true else any_sibling search allowed ms'
  end.

(** [get_next_part(msg, what, search, negation, allowed)]: the next level
    down of [msg] (or the current level when found) and the found flag. *)
Definition get_next_part (msg : value) (what search : str) (negation : bool)
    (allowed : list str) : result (list value * bool) :=
  match msg with
  | VList l =>
      let* hit := any_sibling search allowed l in
      if hit then Ok (l, true)
      else
        let* first := getitem0 l in
        let* parts := getitem first what in
        Ok (as_list parts, false)
  | _ =>
      let* v := getitem msg search in
      let criteria :=
        if negation then negb (in_strs v allowed) else in_strs v allowed in
      if criteria then Ok ([msg], true)
      else
        let* parts := getitem msg what in
        Ok (as_list parts, false)
  end.

(** The default arguments of [get_next_part]. *)
Definition default_what : str := py "parts".
Definition default_search : str := py "mimeType".
Definition default_allowed : list str := [py "text/html"; py "text/plain"].

End Walker.
Import Walker.

(** ** The body decoder *)

Module Decoder.

Section Decoder.
Context `{Runtime}.

(** [base64.urlsafe_b64decode(str(body).encode('utf-8')).decode('utf-8')] *)
Definition decode_body (body : value) : result str :=
  let* raw := utf8_encode (py_str body) in
  let* bin := urlsafe_b64decode raw in
  utf8_decode bin.

(** The keys of a dict, each once, in the order of their first binding. *)
Fixpoint dict_keys (d : list (str * value)) (seen : list str) : list str :=
  match d with
  | [] => []
  | (k, _) :: d' =>
      if decide (k ∈ seen) then dict_keys d' seen
      else k :: dict_keys d' (k :: seen)
  end.

(** The values a [for] loop over [v] binds: the items of a list, the keys of
    a dict, the characters of a string. *)
Definition iterate (v : value) : result (list value) :=
  match v with
  | VList l => Ok l
  | VDict d => Ok (VStr <$> dict_keys d [])
  | VStr s => Ok ((fun c => VStr [c]) <$> s)
  | _ => Raise TypeError
  end.

(** [for p in parts: if p['mimeType'] == prefer: break], from the binding
    [p] has so far; the result is the binding after the loop. *)
Fixpoint pick_part (prefer : str) (parts : list value) (p : option value)
  : result (option value) :=
  match parts with
  | [] => Ok p
  | x :: rest =>
      let* mime := getitem x (py "mimeType") in
      if eq_str mime prefer then Ok (Some x)
      else pick_part prefer rest (Some x)
  end.

Definition types : list str := [py "text/html"; py "text/plain"].

(** The [while not found and i < depth] loop, [n] iterations left. *)
Fixpoint walk (n : nat) (parts : value) : result (value * bool) :=
  match n with
  | O => Ok (parts, false)
  | S n' =>
      let* (next, found) :=
        get_next_part parts (py "parts") (py "mimeType") false types in
      if found then Ok (VList next, true) else walk n' (VList next)
  end.

(** The statements of the [try] block after the loop. *)
Definition extract (parts : value) (prefer : str) : result (value * str) :=
  let* ps := iterate parts in
  let* bound := pick_part prefer ps None in
  let* p := match bound with Some p => Ok p | None => Raise NameError end in
  let* pmime := getitem p (py "mimeType") in
  let* body := getitem p (py "body") in
  let* data := getitem body (py "data") in
  let* plain := decode_body data in
  Ok (pmime, plain).

Definition fallback : str := py "Message body could not be retrieved.".

(** The [try] block: the value of [found] when it ends, and its outcome.  A
    walker step that raises leaves [found] false. *)
Definition resolve (payload : value) (prefer : str) (depth : Z)
  : bool * result (value * str) :=
  match walk (Z.to_nat depth) payload with
  | Raise e => (false, Raise e)
  | Ok (parts, found) => (found, extract parts prefer)
  end.

(** [parse_body(msg, prefer, depth)]: the body text and what was printed.
    The [print] call stands after the [try] block, so what it raises is
    raised. *)
Definition parse_body_io (msg : value) (prefer : str) (depth : Z)
  : result (str * list str) :=
  if negb (bool_decide (prefer ∈ types)) then Raise Warning
  else
    let* payload := getitem msg (py "payload") in
    let '(found, outcome) := resolve payload prefer depth in
    let '(pmime, plain) :=
      match outcome with
      | Ok r => r
      | Raise _ => (VStr (py "text/plain"), fallback)
      end in
    if found && negb (eq_str pmime prefer) then
      let msg_type :=
        py "Could not find preferred type. Body retrieved as "
        ++ py_str pmime ++ py "." in
      let* _ := print msg_type in
      Ok (plain, [msg_type])
    else Ok (plain, []).

(** The value [parse_body] returns. *)
Definition parse_body (msg : value) (prefer : str) (depth : Z) : result str :=
  let* (plain, _) := parse_body_io msg prefer depth in Ok plain.

End Decoder.

End Decoder.
Import Decoder.

(** ** Strings *)

Module Text.

(** [s.split(sep)] for a one-character separator. *)
Fixpoint split_on (sep : N) (s : str) : list str :=
  match s with
  | [] => [[]]
  | c :: s' =>
      if c =? sep then [] :: split_on sep s'
      else match split_on sep s' with
           | l :: ls => (c :: l) :: ls
           | [] => [[c]]
           end
  end.

(** [sep.join(parts)] *)
Fixpoint join (sep : str) (parts : list str) : str :=
  match parts with
  | [] => []
  | [x] => x
  | x :: rest => x ++ sep ++ join sep rest
  end.

Definition LF : N := 10.
Definition SPACE : N := 32.
Definition TAB : N := 9.

(** [s.split('\n')] and its inverse. *)
Definition lines (s : str) : list str := split_on LF s.
Definition unlines (ls : list str) : str := join [LF] ls.

End Text.
Import Text.

(** ** [textwrap.dedent]

    The regular-expression implementation of CPython 3.6 to 3.13: blanks are
    spaces and tabs, lines end at a line feed. *)

Module Textwrap.

Definition is_blank (c : N) : bool := (c =? SPACE) || (c =? TAB).
Arguments is_blank : simpl never.

(** [_whitespace_only_re.sub('', text)], line by line: a line of spaces and
    tabs only becomes the empty line. *)
Definition normalize (line : str) : str :=
  if forallb is_blank line then [] else line.

(** The blanks a line starts with. *)
Fixpoint leading_blanks (line : str) : str :=
  match line with
  | c :: rest => if is_blank c then c :: leading_blanks rest else []
  | [] => []
  end.

(** [_leading_whitespace_re.findall(text)]: the indentation of every line
    that has a character other than a blank. *)
Definition indents (ls : list str) : list str :=
  leading_blanks <$> List.filter (fun l => negb (forallb is_blank l)) ls.

(** [s.startswith(prefix)] *)
Fixpoint starts_with (s prefix : str) {struct prefix} : bool :=
  match prefix, s with
  | [], _ => true
  | p :: prefix', c :: s' => (c =? p) && starts_with s' prefix'
  | _ :: _, [] => false
  end.

(** [margin[:i]] for the first [i] at which [margin] and [indent] differ. *)
Fixpoint common_prefix (margin indent : str) : str :=
  match margin, indent with
  | x :: margin', y :: indent' =>
      if x =? y then x :: common_prefix margin' indent' else []
  | _, _ => []
  end.

(** One round of the loop over [indents]. *)
Definition narrow (margin indent : str) : str :=
  if starts_with indent margin then margin
  else if starts_with margin indent then indent
  else common_prefix margin indent.

Definition margin_of (ins : list str) : option str :=
  match ins with
  | [] => None
  | first :: rest => Some (fold_left narrow rest first)
  end.

(** [re.sub(r'(?m)^' + margin, '', text)], line by line. *)
Definition strip_margin (margin line : str) : str :=
  if starts_with line margin then drop (length margin) line else line.

(** [textwrap.dedent], on the lines of the text. *)
Definition dedent_lines (ls : list str) : list str :=
  let ls := normalize <$> ls in
  match margin_of (indents ls) with
  | Some (c :: m) => strip_margin (c :: m) <$> ls
  | _ => ls
  end.

(** [textwrap.dedent(text)] *)
Definition dedent (text : str) : str := unlines (dedent_lines (lines text)).

End Textwrap.
Import Textwrap.

(** ** The query: search string, records, threads, files *)

Module Query.

(** An insertion-ordered dict with string keys. *)
Abbreviation odict V := (list (str * V)).

(** [d[k] = v]: in place for a key the dict has, at the end for a new one. *)
Fixpoint od_set {V} (k : str) (v : V) (d : odict V) : odict V :=
  match d with
  | [] => [(k, v)]
  | (k', v') :: d' =>
      if decide (k = k') then (k, v) :: d' else (k', v') :: od_set k v d'
  end.

(** [d[k]] *)
Definition od_get {V} (k : str) (d : odict V) : result V :=
  match assoc k d with
  | Some v => Ok v
  | None => Raise KeyError
  end.

(** [OrderedDict.fromkeys(keys)] with every value [init]. *)
Definition od_fromkeys {V} (init : V) (keys : list str) : odict V :=
  fold_left (fun d k => od_set k init d) keys [].

(** One e-mail, as the dict the program builds for it. *)
Record record := Record_ {
  rec_to : str;
  rec_from : str;
  rec_cc : option str;
  rec_subject : str;
  rec_thread_topic : option str;
  rec_date : str;
  rec_body : str;
  rec_full_text : option str
}.

(** What a thread's mapping holds under a key: [None] until the message is
    fetched, then its record; and, under the keys [first_subject] and
    [first_date], a string. *)
Inductive entry :=
| Unset
| Rec (r : record)
| Scalar (s : str).

Abbreviation thread := (odict entry).
Abbreviation threads := (odict thread).

(** A message-get response as [query] reads it: the name and value of each
    item of [msg['payload']['headers']], strings in the API's schema, and the
    response itself, which [parse_body] walks. *)
Record message := Message {
  msg_headers : list (str * str);
  msg_json : value
}.

(** A row of [msgs]: message id and thread id. *)
Abbreviation row := (str * str)%type.

Definition opt_str (o : option str) : str :=
  match o with
  | Some s => s
  | None => py "None"
  end.

Definition indent12 : str := replicate 12 SPACE.

(** The f-string of the headers, before [dedent]. *)
Definition template (r : record) : str :=
  indent12 ++ py "**From:** " ++ rec_from r ++ [LF]
  ++ indent12 ++ py "**To:** " ++ rec_to r ++ [LF]
  ++ indent12 ++ py "**CC:** " ++ opt_str (rec_cc r) ++ [LF]
  ++ indent12 ++ py "**Subject:** " ++ rec_subject r ++ [LF]
  ++ indent12 ++ py "**Thread Topic:** " ++ opt_str (rec_thread_topic r) ++ [LF]
  ++ indent12 ++ py "**Date:** " ++ rec_date r ++ [LF]
  ++ indent12.

(** [full_text] of a record. *)
Definition full_text (r : record) : str :=
  dedent (template r) ++ [LF; LF] ++ rec_body r.

(** The thread topic chosen for a thread from the topics of its members:
    [list(set(...))] without [None], its first element, or [''] when it is
    empty. *)
Definition remove_first (x : option str) (l : list (option str))
  : list (option str) :=
  (fix go l :=
     match l with
     | [] => []
     | y :: l' => if decide (x = y) then l' else y :: go l'
     end) l.

Definition choose_topic (topics : list (option str)) : option str :=
  let distinct := elements (list_to_set topics : gset (option str)) in
  let distinct :=
    if bool_decide (None ∈ distinct) then remove_first None distinct
    else distinct in
  match distinct with
  | [] => Some []
  | first :: _ => first
  end.

(** [val['thread_topic']] of an item of a thread's mapping. *)
Definition entry_topic (e : entry) : result (option str) :=
  match e with
  | Rec r => Ok (rec_thread_topic r)
  | Unset | Scalar _ => Raise TypeError
  end.

Fixpoint map_result {A B} (f : A -> result B) (l : list A) : result (list B) :=
  match l with
  | [] => Ok []
  | x :: l' =>
      let* y := f x in
      let* ys := map_result f l' in
      Ok (y :: ys)
  end.

Fixpoint fold_result {A S} (f : S -> A -> result S) (l : list A) (s : S)
  : result S :=
  match l with
  | [] => Ok s
  | x :: l' => let* s' := f s x in fold_result f l' s'
  end.

(** [data[thr_id][msg_id]] as a record. *)
Definition member (data : threads) (thr_id msg_id : str) : result record :=
  let* t := od_get thr_id data in
  let* e := od_get msg_id t in
  match e with
  | Rec r => Ok r
  | Unset | Scalar _ => Raise TypeError
  end.

(** [data[thr_id][msg_id] = e] *)
Definition set_member (data : threads) (thr_id msg_id : str) (e : entry)
  : result threads :=
  let* t := od_get thr_id data in
  Ok (od_set thr_id (od_set msg_id e t) data).

End Query.
Import Query.

(** ** The steps of [gmail_query.query] *)

Module Steps.

Section Steps.
Context `{Runtime}.

(** The search string: [begin_date], [end_date] and the optional clauses.
    [today] is [datetime.date.today()]. *)
Definition build_query (today : date) (begin_date end_date : str)
    (label g_query : option str) (att_get : bool) (max_size : Z)
  : result str :=
  let* b := date_parse begin_date in
  let begin_date := date_str (dt_date b) in
  let* end_date :=
    if bool_decide (end_date = py "today") then
      let* d := next_day today in Ok (date_str d)
    else
      let* e := date_parse end_date in
      let* d := date_add_int (dt_date e) 1 in
      Ok (date_str d) in
  let query := [py "after:" ++ begin_date; py "before:" ++ end_date] in
  let query :=
    match label with
    | Some l => query ++ [py "label:" ++ str_lower l]
    | None => query
    end in
  let query :=
    match g_query with
    | Some g => query ++ [g]
    | None => query
    end in
  let query :=
    if att_get then query ++ [py "smaller:" ++ int_str max_size] else query in
  Ok (join (py " ") query).

(** [data]: a mapping per thread id, in listing order, holding [None] under
    each message id of the thread. *)
Definition init_data (msgs : list row) : threads :=
  (fun kv : str * unit =>
     let thr_id := kv.1 in
     (thr_id,
      od_fromkeys Unset
        (fst <$> List.filter (fun r : row => bool_decide (r.2 = thr_id)) msgs)))
  <$> od_fromkeys () (snd <$> msgs).

(** [{x['name'].lower(): x['value'] for x in headers}] *)
Definition make_header (headers : list (str * str)) : gmap str str :=
  foldl (fun h x => <[str_lower x.1 := x.2]> h) ∅ headers.

(** [header[k]] *)
Definition header_item (header : gmap str str) (k : str) : result str :=
  match header !! k with
  | Some v => Ok v
  | None => Raise KeyError
  end.

(** The record of one fetched message. *)
Definition make_record (msg : message) (tz_locale : str) : result record :=
  let header := make_header (msg_headers msg) in
  let* date_header := header_item header (py "date") in
  let* dt := date_parse date_header in
  let* date := strftime_in dt tz_locale in
  let* to := header_item header (py "to") in
  let* from := header_item header (py "from") in
  let cc := header !! py "cc" in
  let* subject := header_item header (py "subject") in
  let thread_topic := header !! py "thread-topic" in
  let* body := parse_body (msg_json msg) (py "text/plain") 10 in
  Ok (Record_ to from cc subject thread_topic date body None).

(** First loop over [msgs]: fetch each message and store its record.
    [fetch] is the message-get call. *)
Definition fetch_row (fetch : str -> result message) (tz_locale : str)
    (data : threads) (r : row) : result threads :=
  let (msg_id, thr_id) := r in
  let* msg := fetch msg_id in
  let* rec := make_record msg tz_locale in
  set_member data thr_id msg_id (Rec rec).

Definition fetch_all (fetch : str -> result message) (tz_locale : str)
    (msgs : list row) (data : threads) : result threads :=
  fold_result (fetch_row fetch tz_locale) msgs data.

(** Second loop over [msgs]: the thread topic and the full text. *)
Definition topic_row (data : threads) (r : row) : result threads :=
  let (msg_id, thr_id) := r in
  let* t := od_get thr_id data in
  let* topics := map_result entry_topic (snd <$> t) in
  let thread_topic := choose_topic topics in
  let* rec := member data thr_id msg_id in
  let topic :=
    match rec_thread_topic rec with
    | None => thread_topic
    | Some own => Some own
    end in
  let with_topic :=
    Record_ (rec_to rec) (rec_from rec) (rec_cc rec) (rec_subject rec) topic
      (rec_date rec) (rec_body rec) (rec_full_text rec) in
  let with_text :=
    Record_ (rec_to rec) (rec_from rec) (rec_cc rec) (rec_subject rec) topic
      (rec_date rec) (rec_body rec) (Some (full_text with_topic)) in
  set_member data thr_id msg_id (Rec with_text).

Definition topic_all (msgs : list row) (data : threads) : result threads :=
  fold_result topic_row msgs data.

(** The loop over threads: subject and date of the thread's first message,
    the one under the last key of the mapping. *)
Definition set_first (t : thread) : result thread :=
  match last (fst <$> t) with
  | None => Raise IndexError
  | Some k =>
      let* e := od_get k t in
      match e with
      | Rec first_message =>
          let t := od_set (py "first_subject")
                     (Scalar (rec_subject first_message)) t in
          let* dt := date_parse (rec_date first_message) in
          Ok (od_set (py "first_date") (Scalar (date_str (dt_date dt))) t)
      | Unset | Scalar _ => Raise TypeError
      end
  end.

Definition first_all (data : threads) : result threads :=
  map_result (fun kv : str * thread =>
                let* t := set_first kv.2 in Ok (kv.1, t)) data.

(** A record as the dict it is. *)
Definition record_value (r : record) : value :=
  let opt o := match o with Some s => VStr s | None => VNone end in
  VDict ([(py "to", VStr (rec_to r)); (py "from", VStr (rec_from r));
          (py "cc", opt (rec_cc r)); (py "subject", VStr (rec_subject r));
          (py "thread_topic", opt (rec_thread_topic r));
          (py "date", VStr (rec_date r)); (py "body", VStr (rec_body r))]
         ++ match rec_full_text r with
            | Some ft => [(py "full_text", VStr ft)]
            | None => []
            end).

(** How an f-string renders an item of a thread's mapping. *)
Definition entry_str (e : entry) : str :=
  match e with
  | Scalar s => s
  | Unset => py "None"
  | Rec r => container_str (record_value r)
  end.

(** A file written: directory under [outdir], file name, content. *)
Record written := Written {
  w_dir : str;
  w_name : str;
  w_content : str
}.

(** Third loop over [msgs]: the directory is made, the file is opened, the
    full text is written to it. *)
Definition write_row (data : threads) (r : row) : result written :=
  let (msg_id, thr_id) := r in
  let* t := od_get thr_id data in
  let* first_date := od_get (py "first_date") t in
  let* first_subject := od_get (py "first_subject") t in
  let dir := entry_str first_date ++ py " - " ++ entry_str first_subject in
  let* _ := mkdir dir in
  let* rec := member data thr_id msg_id in
  let* dt := date_parse (rec_date rec) in
  let name := datetime_str dt ++ py ".md" in
  let* _ := open dir name in
  match rec_full_text rec with
  | Some text =>
      let* _ := write dir name text in
      Ok (Written dir name text)
  | None => Raise KeyError
  end.

Definition write_all (msgs : list row) (data : threads) : result (list written) :=
  map_result (write_row data) msgs.

(** [query]: [list_messages] is the message-list call, [fetch] the
    message-get call; the result is the files written, in order. *)
Definition query (list_messages : str -> result (list row))
    (fetch : str -> result message) (today : date)
    (begin_date end_date : str) (label g_query : option str)
    (tz_locale : str) (att_get : bool) (max_size : Z)
  : result (list written) :=
  let* q := build_query today begin_date end_date label g_query att_get max_size in
  let* msgs := list_messages q in
  let* data := fetch_all fetch tz_locale msgs (init_data msgs) in
  let* data := topic_all msgs data in
  let* data := first_all data in
  write_all msgs data.

End Steps.

End Steps.
Import Steps.

(** ** A reference runtime

    An instance of the interface for running the model on examples: a host
    whose zone database resolves every name to UTC, ASCII case folding, a
    date parser for ISO dates and for the program's own rendering of a date,
    [repr] with every character above U+007F taken as printable, a standard
    output and text files in strict UTF-8, and a file system that refuses
    the names it cannot store. *)

Module Reference.

Definition hex_digit (n : N) : N := if n <? 10 then 48 + n else 87 + n.

(** [repr(s)] of a string. *)
Definition repr_str (s : str) : str :=
  let quote : N :=
    if bool_decide (39 ∈ s) && negb (bool_decide (34 ∈ s)) then 34 else 39 in
  let esc (c : N) : str :=
    if (c =? quote) || (c =? 92) then [92; c]
    else if c =? 9 then [92; 116]
    else if c =? 10 then [92; 110]
    else if c =? 13 then [92; 114]
    else if (c <? 32) || (c =? 127) then
      [92; 120; hex_digit (c / 16); hex_digit (c mod 16)]
    else [c] in
  [quote] ++ concat (map esc s) ++ [quote].

(** [repr(v)] *)
Fixpoint repr (v : value) : str :=
  match v with
  | VNone => py "None"
  | VBool true => py "True"
  | VBool false => py "False"
  | VInt z => int_str z
  | VStr s => repr_str s
  | VList l => py "[" ++ join (py ", ") (map repr l) ++ py "]"
  | VDict d =>
      py "{"
      ++ join (py ", ")
           (map (fun kv => let (k, x) := kv : str * value in
                           repr_str k ++ py ": " ++ repr x) d)
      ++ py "}"
  end.

Definition ascii_lower (s : str) : str :=
  map (fun c => if (65 <=? c) && (c <=? 90) then c + 32 else c) s.

(** A run of decimal digits as a number. *)
Definition parse_digits (s : str) : option Z :=
  if bool_decide (s <> []) && forallb (fun c => (48 <=? c) && (c <=? 57)) s
  then Some (fold_left (fun acc c => acc * 10 + Z.of_N (c - 48))%Z s 0%Z)
  else None.

Definition valid_date (y m d : Z) : bool :=
  ((1 <=? y) && (y <=? 9999) && (1 <=? m) && (m <=? 12) && (1 <=? d)
   && (d <=? days_in_month y m))%Z.

Definition month_names : list str :=
  py <$> ["Jan"; "Feb"; "Mar"; "Apr"; "May"; "Jun";
          "Jul"; "Aug"; "Sep"; "Oct"; "Nov"; "Dec"]%string.

Definition day_names : list str :=
  py <$> ["Sunday"; "Monday"; "Tuesday"; "Wednesday"; "Thursday"; "Friday";
          "Saturday"]%string.

Fixpoint index_of (x : str) (l : list str) (i : Z) : option Z :=
  match l with
  | [] => None
  | y :: l' => if bool_decide (x = y) then Some i else index_of x l' (i + 1)%Z
  end.

(** [YYYY-MM-DD] *)
Definition parse_iso (s : str) : option datetime :=
  match split_on 45 s with
  | [y; m; d] =>
      match parse_digits y, parse_digits m, parse_digits d with
      | Some y, Some m, Some d =>
          if valid_date y m d then Some (Datetime (Date y m d) 0 0 0 None)
          else None
      | _, _, _ => None
      end
  | _ => None
  end.

(** [Weekday Mon DD, YYYY, HH:MM AM/PM TZ], as the program renders a date. *)
Definition parse_rendered (s : str) : option datetime :=
  match split_on SPACE s with
  | _ :: mon :: d :: y :: hm :: ap :: tz =>
      match index_of mon month_names 1%Z,
            parse_digits (take 2 d), parse_digits (take 4 y),
            split_on 58 hm with
      | Some m, Some d, Some y, [hh; mm] =>
          match parse_digits hh, parse_digits mm with
          | Some h, Some mi =>
              let h := ((h mod 12) + (if bool_decide (ap = py "PM") then 12 else 0))%Z in
              let off := if bool_decide (tz = [py "UTC"]) then Some 0%Z else None in
              if valid_date y m d then Some (Datetime (Date y m d) h mi 0 off)
              else None
          | _, _ => None
          end
      | _, _, _, _ => None
      end
  | _ => None
  end.

Definition ref_date_parse (s : str) : result datetime :=
  match parse_iso s with
  | Some dt => Ok dt
  | None => match parse_rendered s with
            | Some dt => Ok dt
            | None => Raise ValueError
            end
  end.

(** Day of the week, Sunday first. *)
Definition weekday (d : date) : Z :=
  (let t := nth (Z.to_nat (month d - 1)) [0; 3; 2; 5; 0; 3; 5; 1; 4; 6; 2; 4] 0 in
   let y := if month d <? 3 then year d - 1 else year d in
   (y + y / 4 - y / 100 + y / 400 + t + day d) mod 7)%Z.

(** [dt.strftime("%A %b %d, %Y, %I:%M %p %Z")] for a datetime in UTC. *)
Definition strftime_utc (dt : datetime) : str :=
  let d := dt_date dt in
  let h12 := (if dt_hour dt mod 12 =? 0 then 12 else dt_hour dt mod 12)%Z in
  nth (Z.to_nat (weekday d)) day_names [] ++ py " "
  ++ nth (Z.to_nat (month d - 1)) month_names [] ++ py " "
  ++ digits 2 (day d) ++ py ", " ++ digits 4 (year d) ++ py ", "
  ++ digits 2 h12 ++ py ":" ++ digits 2 (dt_minute dt) ++ py " "
  ++ (if (dt_hour dt <? 12)%Z then py "AM" else py "PM") ++ py " UTC".

(** The host's zone is UTC; a datetime at another offset is outside what
    this runtime converts. *)
Definition ref_strftime_in (dt : datetime) (tz_locale : str) : result str :=
  match dt_utcoffset dt with
  | None | Some 0%Z => Ok (strftime_utc dt)
  | Some _ => Raise OverflowError
  end.

Definition ref_datetime_str (dt : datetime) : str :=
  date_str (dt_date dt) ++ py " " ++ digits 2 (dt_hour dt) ++ py ":"
  ++ digits 2 (dt_minute dt) ++ py ":" ++ digits 2 (dt_second dt)
  ++ match dt_utcoffset dt with
     | Some 0%Z => py "+00:00"
     | _ => []
     end.

(** [print(s)] on a standard output in strict UTF-8: the line and its line
    feed are encoded. *)
Definition ref_print (s : str) : result unit :=
  let* _ := utf8_encode (s ++ [LF]) in Ok tt.

(** [os.fsencode(s)]: UTF-8, with the [surrogateescape] handler turning
    U+DC80 to U+DCFF into the bytes 0x80 to 0xFF. *)
Fixpoint fsencode (s : str) : result bytes :=
  match s with
  | [] => Ok []
  | c :: s' =>
      let* b := if (0xDC80 <=? c) && (c <=? 0xDCFF) then Ok [c - 0xDC00]
                else utf8_char c in
      let* r := fsencode s' in
      Ok (b ++ r)
  end.

(** What the file system says to a path under [outdir]: [ValueError] for an
    embedded null byte, [OSError] for a component above 255 bytes or a path
    above 4095 bytes. *)
Definition ref_path (p : str) : result unit :=
  let* b := fsencode p in
  if bool_decide (0 ∈ b) then Raise ValueError
  else if forallb (fun c => (length c <=? 255)%nat) (split_on 47 b)
          && (length b <=? 4095)%nat
  then Ok tt
  else Raise OSError.

Definition ref_mkdir (dir : str) : result unit := ref_path dir.

Definition ref_open (dir name : str) : result unit :=
  ref_path (dir ++ py "/" ++ name).

(** [f.write(text)] on a text file in strict UTF-8. *)
Definition ref_write (dir name text : str) : result unit :=
  let* _ := utf8_encode text in Ok tt.

#[export] Instance reference : Runtime := {
  container_str := repr;
  str_lower := ascii_lower;
  date_parse := ref_date_parse;
  strftime_in := ref_strftime_in;
  datetime_str := ref_datetime_str;
  print := ref_print;
  mkdir := ref_mkdir;
  open := ref_open;
  write := ref_write
}.

End Reference.

(** * Properties *)

(** ** Vocabulary of the statements, sample inputs, tactics *)

(** The acceptance test as a proposition: the content type is one of the
    allowed labels, inverted under negation. *)
Definition passes (negation : bool) (allowed : list str) (ct : value) : Prop :=
  if negation then ct ∉ (VStr <$> allowed) else ct ∈ (VStr <$> allowed).

(** An image part whose children are a single part, not a list. *)
Definition png_node : value :=
  VDict [(py "mimeType", VStr (py "image/png"));
         (py "parts", VDict [(py "mimeType", VStr (py "text/plain"))])].

Ltac nlia := zify; Z.to_euclidean_division_equations; lia.

(** Settle the comparisons in the goal that arithmetic decides. *)
Ltac ntest :=
  repeat match goal with
  | |- context [N.ltb ?a ?b] =>
      first [ rewrite (proj2 (N.ltb_lt a b)) by nlia
            | rewrite (proj2 (N.ltb_ge a b)) by nlia ]
  | |- context [N.leb ?a ?b] =>
      first [ rewrite (proj2 (N.leb_le a b)) by nlia
            | rewrite (proj2 (N.leb_gt a b)) by nlia ]
  | |- context [N.eqb ?a ?b] =>
      first [ rewrite (proj2 (N.eqb_eq a b)) by nlia
            | rewrite (proj2 (N.eqb_neq a b)) by nlia ]
  end.

(** A Unicode scalar value: a code point that is not a surrogate.  Text
    made of scalar values is what UTF-8 can carry. *)
Definition scalar_value (c : N) : Prop :=
  c < 0x110000 /\ is_surrogate c = false.

(** "Hi", e-acute, the euro sign and an emoji: one code point of each UTF-8
    length. *)
Definition sample_text : str := [72; 105; 233; 8364; 128512].

(** A text part, and an image part that has it as its only child. *)
Definition plain_leaf : value := VDict [(py "mimeType", VStr (py "text/plain"))].

Definition png_sibling : value :=
  VDict [(py "mimeType", VStr (py "image/png")); (py "parts", VList [plain_leaf])].

(** Whether some node of a MIME tree has a content type in [allowed]. *)
Fixpoint has_allowed_node (allowed : list str) (v : value) : bool :=
  match v with
  | VDict d =>
      match assoc (py "mimeType") d with
      | Some ct => in_strs ct allowed
      | None => false
      end
      || existsb (fun kv => let (_, x) := kv : str * value in
                            has_allowed_node allowed x) d
  | VList l => existsb (has_allowed_node allowed) l
  | _ => false
  end.

(** [n] nested multipart nodes around [leaf], each with one child. *)
Fixpoint nest (n : nat) (leaf : value) : value :=
  match n with
  | O => leaf
  | S n' =>
      VDict [(py "mimeType", VStr (py "multipart/mixed"));
             (py "parts", VList [nest n' leaf])]
  end.

(** A part that is not text and carries the two bytes "Hi" as its body. *)
Definition json_leaf : value :=
  VDict [(py "mimeType", VStr (py "application/json"));
         (py "body", VDict [(py "size", VInt 2); (py "data", VStr (py "SGk="))])].

(** A message whose only leaf lies below ten multipart nodes. *)
Definition deep_message : value := VDict [(py "payload", nest 10 json_leaf)].

(** A message whose payload is one image part without children. *)
Definition png_message : value :=
  VDict [(py "id", VStr (py "m1"));
         (py "payload", VDict [(py "mimeType", VStr (py "image/png"))])].

(** A message with an HTML part beside a part whose content type is the lone
    surrogate U+D800, as [json.loads] reads it from an escape; both carry
    "Hi". *)
Definition surrogate_message : value :=
  VDict [(py "payload",
          VDict [(py "mimeType", VStr (py "multipart/mixed"));
                 (py "parts",
                  VList [VDict [(py "mimeType", VStr (py "text/html"));
                                (py "body", VDict [(py "data", VStr (py "SGk="))])];
                         VDict [(py "mimeType", VStr [0xD800]);
                                (py "body", VDict [(py "data", VStr (py "SGk="))])]])])].

(** A string that stays on one line. *)
Definition single_line (s : str) : Prop := LF ∉ s.

(** The interpolated header values of a record each stay on one line. *)
Definition single_line_headers (r : record) : Prop :=
  single_line (rec_from r) /\ single_line (rec_to r)
  /\ single_line (opt_str (rec_cc r)) /\ single_line (rec_subject r)
  /\ single_line (opt_str (rec_thread_topic r)) /\ single_line (rec_date r).

(** The six labeled header lines, each ended by a line feed. *)
Definition header_block (r : record) : str :=
  py "**From:** " ++ rec_from r ++ [LF]
  ++ py "**To:** " ++ rec_to r ++ [LF]
  ++ py "**CC:** " ++ opt_str (rec_cc r) ++ [LF]
  ++ py "**Subject:** " ++ rec_subject r ++ [LF]
  ++ py "**Thread Topic:** " ++ opt_str (rec_thread_topic r) ++ [LF]
  ++ py "**Date:** " ++ rec_date r ++ [LF].

(** The full text as the specification words it: the header block, one
    blank line, the body. *)
Definition spec_full_text (r : record) : str :=
  header_block r ++ [LF] ++ rec_body r.

Ltac no_lf :=
  vm_compute;
  let Hin := fresh "Hin" in
  intros Hin; repeat (apply elem_of_cons in Hin as [Hin|Hin]; [done|]);
  by apply elem_of_nil in Hin.

(** A line that starts with a character other than a blank. *)
Definition inked (l : str) : Prop :=
  match l with
  | c :: _ => is_blank c = false
  | [] => False
  end.

(** A record as the second loop leaves it in a thread without topic. *)
Definition sample_record : record :=
  Record_ (py "b@x.com") (py "a@x.com") None (py "Hello") (Some [])
    (py "Tuesday Jan 02, 2018, 03:04 PM UTC") (py "Hi there") None.

(** A message without CC and Thread-Topic headers, and the record the first
    loop builds from it under the reference runtime. *)
Definition sample_message : message :=
  Message
    [(py "From", py "a@x.com"); (py "To", py "b@x.com");
     (py "Subject", py "Hello"); (py "Date", py "2018-01-02")]
    (VDict [(py "id", VStr (py "m1"));
            (py "payload",
             VDict [(py "mimeType", VStr (py "text/plain"));
                    (py "body", VDict [(py "data", VStr (py "SGkgdGhlcmU="))])])]).

Definition sample_built : record :=
  Record_ (py "b@x.com") (py "a@x.com") None (py "Hello") None
    (py "Tuesday Jan 02, 2018, 12:00 AM UTC") (py "Hi there") None.

(** The keys of each thread's mapping are the message ids listed for the
    thread, each once; a thread id that is not listed has no mapping. *)
Definition shaped (msgs : list row) (data : threads) : Prop :=
  forall thr,
    match assoc thr data with
    | Some t => NoDup t.*1 /\ forall m, m ∈ t.*1 <-> (m, thr) ∈ msgs
    | None => forall m, (m, thr) ∉ msgs
    end.

(** [data[thr][m]], when both keys are there. *)
Definition entry_at (data : threads) (thr m : str) : option entry :=
  match assoc thr data with
  | Some t => assoc m t
  | None => None
  end.

Definition is_rec (o : option entry) : Prop := exists r, o = Some (Rec r).

(** Every item of every thread is a record. *)
Definition filled (msgs : list row) (data : threads) : Prop :=
  shaped msgs data
  /\ forall thr t, assoc thr data = Some t ->
       forall m e, (m, e) ∈ t -> exists r, e = Rec r.

(** In a thread, every record's topic is absent or [T], and [T] occurs or
    is the empty string. *)
Definition settles (T : str) (t : thread) : Prop :=
  (forall m r, (m, Rec r) ∈ t ->
     rec_thread_topic r = None \/ rec_thread_topic r = Some T)
  /\ ((exists m r, (m, Rec r) ∈ t /\ rec_thread_topic r = Some T) \/ T = []).

(** The record under [data[thr][m]] has topic [T]. *)
Definition has_topic (data : threads) (thr m T : str) : Prop :=
  exists r, entry_at data thr m = Some (Rec r) /\ rec_thread_topic r = Some T.

(** A listing of three messages in two threads: in thread [t1] only [m2]
    carries a Thread-Topic header, in thread [t2] no message does. *)
Definition sample_rows : list row :=
  [(py "m2", py "t1"); (py "m1", py "t1"); (py "m3", py "t2")].

(** A reply with a Thread-Topic header, the message-get call of the sample,
    and what the first loop leaves for the listing. *)
Definition sample_reply : message :=
  Message
    [(py "From", py "b@x.com"); (py "To", py "a@x.com");
     (py "Subject", py "Re: Hello"); (py "Date", py "2018-01-03");
     (py "Thread-Topic", py "Hello")]
    (msg_json sample_message).

Definition sample_fetch (msg_id : str) : result message :=
  if bool_decide (msg_id = py "m2") then Ok sample_reply
  else Ok sample_message.

Definition sample_reply_built : record :=
  Record_ (py "a@x.com") (py "b@x.com") None (py "Re: Hello") (Some (py "Hello"))
    (py "Wednesday Jan 03, 2018, 12:00 AM UTC") (py "Hi there") None.

Definition sample_data : threads :=
  [(py "t1", [(py "m2", Rec sample_reply_built); (py "m1", Rec sample_built)]);
   (py "t2", [(py "m3", Rec sample_built)])].

(** Every record that holds a full text holds its own. *)
Definition coherent (data : threads) : Prop :=
  forall thr t m r text,
    (thr, t) ∈ data -> (m, Rec r) ∈ t ->
    rec_full_text r = Some text -> text = full_text r.

(** *** Vocabulary of the further properties *)

(** A value that has the [search] field, with a content outside [allowed]. *)
Definition lacks (allowed : list str) (search : str) (m : value) : Prop :=
  exists ct, getitem m search = Ok ct /\ in_strs ct allowed = false.

(** Two image siblings followed by a text part and a node without type. *)
Definition gif_part : value := VDict [(py "mimeType", VStr (py "image/gif"))].
Definition untyped_part : value := VDict [(py "filename", VStr (py "a.bin"))].

(** A part with a content type that is not a text type. *)
Definition not_text (v : value) : Prop := lacks types (py "mimeType") v.

(** [leaf] lies [n] levels below [v] on the path through the first child of
    each node; above the last level, the other children are not text. *)
Fixpoint reaches (n : nat) (v leaf : value) : Prop :=
  match n with
  | O => v = leaf
  | S n' =>
      not_text v
      /\ exists first others,
           getitem v (py "parts") = Ok (VList (first :: others))
           /\ (n' <> O -> Forall not_text others)
           /\ reaches n' first leaf
  end.

(** A part of content type [mime] whose body holds [data]. *)
Definition carries (part : value) (mime data : str) : Prop :=
  getitem part (py "mimeType") = Ok (VStr mime)
  /\ exists body, getitem part (py "body") = Ok body
                  /\ getitem body (py "data") = Ok (VStr data).

(** A part with a content type other than [prefer]. *)
Definition other_type (prefer : str) (part : value) : Prop :=
  exists ct, getitem part (py "mimeType") = Ok ct /\ eq_str ct prefer = false.

(** A leaf part. *)
Definition body_part (mime data : string) : value :=
  VDict [(py "partId", VStr (py "0")); (py "mimeType", VStr (py mime));
         (py "body", VDict [(py "size", VInt 8); (py "data", VStr (py data))])].

(** A multipart node. *)
Definition multipart (subtype : string) (children : list value) : value :=
  VDict [(py "mimeType", VStr (py subtype));
         (py "body", VDict [(py "size", VInt 0)]);
         (py "parts", VList children)].

(** An attachment: its body holds a reference, no data. *)
Definition attachment : value :=
  VDict [(py "mimeType", VStr (py "application/pdf"));
         (py "filename", VStr (py "a.pdf"));
         (py "body", VDict [(py "attachmentId", VStr (py "A1")); (py "size", VInt 9)])].

(** A message with an attachment beside its two alternative bodies,
    "Hi there" as plain text and as HTML. *)
Definition mixed_message : value :=
  VDict [(py "id", VStr (py "m1"));
         (py "payload",
          multipart "multipart/mixed"
            [multipart "multipart/alternative"
               [body_part "text/plain" "SGkgdGhlcmU=";
                body_part "text/html" "PHA+SGkgdGhlcmU8L3A+"];
             attachment])].

(** A message whose two alternative bodies are all it has. *)
Definition alternative_message : value :=
  VDict [(py "payload",
          multipart "multipart/alternative"
            [body_part "text/plain" "SGkgdGhlcmU=";
             body_part "text/html" "PHA+SGkgdGhlcmU8L3A+"])].

(** A message with an HTML body only. *)
Definition html_message : value :=
  VDict [(py "payload", body_part "text/html" "PHA+SGkgdGhlcmU8L3A+")].

(** The headers [query] reads with a subscript. *)
Definition required_headers : list str :=
  [py "date"; py "to"; py "from"; py "subject"].

(** The elements of a list, each once, in the order of first occurrence. *)
Fixpoint distinct (l : list str) : list str :=
  match l with
  | [] => []
  | k :: l' => k :: filter (fun x => x <> k) (distinct l')
  end.

(** A message that was sent without a [To] header. *)
Definition bcc_message : message :=
  Message
    [(py "From", py "a@x.com"); (py "Bcc", py "b@x.com");
     (py "Subject", py "Hello"); (py "Date", py "2018-01-02")]
    (msg_json sample_message).

(** [r'] is the mail [r] with, at most, a thread topic and a full text
    added. *)
Definition same_mail (r r' : record) : Prop :=
  rec_to r' = rec_to r /\ rec_from r' = rec_from r /\ rec_cc r' = rec_cc r
  /\ rec_subject r' = rec_subject r /\ rec_date r' = rec_date r
  /\ rec_body r' = rec_body r
  /\ forall T, rec_thread_topic r = Some T -> rec_thread_topic r' = Some T.

(** [r] is the record of the message the message-get call returns for the
    id [m]. *)
Definition fetched `{Runtime} (fetch : str -> result message) (tz_locale : str)
    (m : str) (r : record) : Prop :=
  exists msg, fetch m = Ok msg /\ make_record msg tz_locale = Ok r.

(** The record under [data[thr][m]] has a thread topic. *)
Definition topical (data : threads) (thr m : str) : Prop :=
  exists r T, entry_at data thr m = Some (Rec r) /\ rec_thread_topic r = Some T.

(** Every thread topic in [t] is the empty string or a topic of [t0]. *)
Definition topics_from (t0 t : thread) : Prop :=
  forall m r T, (m, Rec r) ∈ t -> rec_thread_topic r = Some T ->
    T = [] \/ exists m0 r0, (m0, Rec r0) ∈ t0 /\ rec_thread_topic r0 = Some T.


(** The message ids listed for a thread, each once, in listing order. *)
Definition thread_ids (msgs : list row) (thr : str) : list str :=
  distinct (fst <$> filter (fun r : row => r.2 = thr) msgs).

(** [data] has the keys it was created with: the listed threads in listing
    order and, under each, the message ids listed for it. *)
Definition keyed (msgs : list row) (data : threads) : Prop :=
  data.*1 = distinct (snd <$> msgs)
  /\ forall thr t, assoc thr data = Some t -> t.*1 = thread_ids msgs thr.

(** The record under [data[thr][m]] holds a full text. *)
Definition texted (data : threads) (thr m : str) : Prop :=
  exists r text, entry_at data thr m = Some (Rec r) /\ rec_full_text r = Some text.

(** ** The MIME part walker *)

Lemma in_strs_spec v allowed : in_strs v allowed = true <-> v ∈ (VStr <$> allowed).
Proof.
  unfold in_strs. rewrite existsb_exists, list_elem_of_fmap. split.
  - intros (s & Hs & Heq). exists s. apply list_elem_of_In in Hs. split; [|done].
    destruct v; simpl in Heq; try discriminate.
    apply bool_decide_eq_true in Heq. by subst.
  - intros (s & -> & Hs). exists s. apply list_elem_of_In in Hs. split; [done|].
    simpl. by apply bool_decide_eq_true.
Qed.

Lemma criteria_passes (negation : bool) allowed ct :
  (if negation then negb (in_strs ct allowed) else in_strs ct allowed) = true
  <-> passes negation allowed ct.
Proof.
  unfold passes. destruct negation.
  - rewrite negb_true_iff, <- not_true_iff_false. by rewrite in_strs_spec.
  - apply in_strs_spec.
Qed.

(** C1: on a node that is not a list, [get_next_part] returns the
    one-element list holding the node with [True] when the node's content
    type passes the acceptance test, and otherwise the node's children, made a
    list when they are a single value, with [False]; a node without the
    children key raises the lookup error. *)
Theorem get_next_part_node msg what search negation allowed ct :
  is_list msg = false ->
  getitem msg search = Ok ct ->
  (passes negation allowed ct ->
     get_next_part msg what search negation allowed = Ok ([msg], true))
  /\ (~ passes negation allowed ct ->
      forall children, getitem msg what = Ok children ->
        get_next_part msg what search negation allowed
        = Ok (match children with VList l => l | one => [one] end, false))
  /\ (~ passes negation allowed ct ->
      forall e, getitem msg what = Raise e ->
        get_next_part msg what search negation allowed = Raise e).
Proof.
  intros Hnl Hct.
  assert (Hgo : get_next_part msg what search negation allowed =
     (if (if negation then negb (in_strs ct allowed) else in_strs ct allowed)
      then Ok ([msg], true)
      else let* parts := getitem msg what in Ok (as_list parts, false))).
  { destruct msg; try discriminate Hnl; unfold get_next_part; rewrite Hct; done. }
  rewrite Hgo. pose proof (criteria_passes negation allowed ct) as Hc.
  destruct (if negation then _ else _) eqn:E.
  - split; [done|]. split; intros Hn; exfalso; apply Hn, Hc; done.
  - split; [intros Hp; apply Hc in Hp; discriminate|].
    split; intros _ x Hx; rewrite Hx; done.
Qed.

Lemma get_next_part_node_witness :
  get_next_part png_node default_what default_search true default_allowed
    = Ok ([png_node], true)
  /\ get_next_part png_node default_what default_search false default_allowed
    = Ok ([VDict [(py "mimeType", VStr (py "text/plain"))]], false).
Proof.
  split.
  - apply (get_next_part_node png_node default_what default_search true
             default_allowed (VStr (py "image/png"))); [done|done|].
    unfold passes. rewrite <- in_strs_spec. vm_compute. discriminate.
  - destruct (get_next_part_node png_node default_what default_search false
                default_allowed (VStr (py "image/png")) eq_refl eq_refl)
      as (_ & Hdown & _).
    apply (Hdown ltac:(unfold passes; rewrite <- in_strs_spec; vm_compute;
                       discriminate)
                 (VDict [(py "mimeType", VStr (py "text/plain"))])).
    reflexivity.
Defined.

(** ** Text and transport codecs *)

Lemma utf8_decode_cons b0 r0 :
  utf8_decode (b0 :: r0) =
    if b0 <? 0x80 then
      let* s := utf8_decode r0 in Ok (b0 :: s)
    else if b0 <? 0xC2 then Raise UnicodeDecodeError
    else if b0 <? 0xE0 then
      match r0 with
      | b1 :: r1 =>
          if cont b1 then
            let* s := utf8_decode r1 in
            Ok (b0 mod 32 * 64 + b1 mod 64 :: s)
          else Raise UnicodeDecodeError
      | _ => Raise UnicodeDecodeError
      end
    else if b0 <? 0xF0 then
      match r0 with
      | b1 :: b2 :: r2 =>
          if second3 b0 b1 && cont b2 then
            let* s := utf8_decode r2 in
            Ok (b0 mod 16 * 4096 + b1 mod 64 * 64 + b2 mod 64 :: s)
          else Raise UnicodeDecodeError
      | _ => Raise UnicodeDecodeError
      end
    else if b0 <? 0xF5 then
      match r0 with
      | b1 :: b2 :: b3 :: r3 =>
          if second4 b0 b1 && cont b2 && cont b3 then
            let* s := utf8_decode r3 in
            Ok (b0 mod 8 * 262144 + b1 mod 64 * 4096 + b2 mod 64 * 64
                + b3 mod 64 :: s)
          else Raise UnicodeDecodeError
      | _ => Raise UnicodeDecodeError
      end
    else Raise UnicodeDecodeError.
Proof. reflexivity. Qed.

Lemma bind_cons_eq (m : result str) (a b : N) :
  a = b -> (let* s := m in Ok (a :: s)) = (let* s := m in Ok (b :: s)).
Proof. by intros ->. Qed.

(** One code point: the one-byte form. *)
Lemma utf8_decode_char1 c rest :
  c < 0x80 ->
  utf8_decode ([c] ++ rest) = let* s := utf8_decode rest in Ok (c :: s).
Proof.
  intros Hc. cbn [app]. rewrite utf8_decode_cons. by ntest.
Qed.

(** One code point: the two-byte form. *)
Lemma utf8_decode_char2 c rest :
  0x80 <= c < 0x800 ->
  utf8_decode ([0xC0 + c / 64; 0x80 + c mod 64] ++ rest)
  = let* s := utf8_decode rest in Ok (c :: s).
Proof.
  intros Hc. cbn [app]. rewrite utf8_decode_cons. unfold cont. ntest.
  cbn [andb]. apply bind_cons_eq. nlia.
Qed.

(** One code point: the three-byte form, surrogates apart. *)
Lemma utf8_decode_char3 c rest :
  0x800 <= c < 0x10000 -> is_surrogate c = false ->
  utf8_decode ([0xE0 + c / 4096; 0x80 + c / 64 mod 64; 0x80 + c mod 64] ++ rest)
  = let* s := utf8_decode rest in Ok (c :: s).
Proof.
  intros Hc Hs. cbn [app]. rewrite utf8_decode_cons. ntest.
  assert (c < 0xD800 \/ 0xDFFF < c) as Hns.
  { unfold is_surrogate in Hs. apply andb_false_iff in Hs as [H|H].
    - apply N.leb_gt in H. lia.
    - apply N.leb_gt in H. lia. }
  replace (second3 (0xE0 + c / 4096) (0x80 + c / 64 mod 64)) with true.
  2:{ symmetry. unfold second3, cont.
      destruct (N.eqb_spec (0xE0 + c / 4096) 0xE0);
        [|destruct (N.eqb_spec (0xE0 + c / 4096) 0xED)]; ntest; done. }
  unfold cont. ntest. cbn [andb]. apply bind_cons_eq. nlia.
Qed.

(** One code point: the four-byte form. *)
Lemma utf8_decode_char4 c rest :
  0x10000 <= c < 0x110000 ->
  utf8_decode ([0xF0 + c / 262144; 0x80 + c / 4096 mod 64;
                0x80 + c / 64 mod 64; 0x80 + c mod 64] ++ rest)
  = let* s := utf8_decode rest in Ok (c :: s).
Proof.
  intros Hc. cbn [app]. rewrite utf8_decode_cons. ntest.
  replace (second4 (0xF0 + c / 262144) (0x80 + c / 4096 mod 64)) with true.
  2:{ symmetry. unfold second4, cont.
      destruct (N.eqb_spec (0xF0 + c / 262144) 0xF0);
        [|destruct (N.eqb_spec (0xF0 + c / 262144) 0xF4)]; ntest; done. }
  unfold cont. ntest. cbn [andb]. apply bind_cons_eq. nlia.
Qed.

Lemma utf8_char_decode c b rest :
  utf8_char c = Ok b ->
  utf8_decode (b ++ rest) = let* s := utf8_decode rest in Ok (c :: s).
Proof.
  unfold utf8_char. intros H.
  destruct (N.ltb_spec c 0x80).
  { injection H as <-. by apply utf8_decode_char1. }
  destruct (N.ltb_spec c 0x800).
  { injection H as <-. apply utf8_decode_char2. lia. }
  destruct (N.ltb_spec c 0x10000).
  { destruct (is_surrogate c) eqn:Hs; [discriminate|].
    injection H as <-. apply utf8_decode_char3; [lia|done]. }
  destruct (N.ltb_spec c 0x110000); [|discriminate].
  injection H as <-. apply utf8_decode_char4. lia.
Qed.

(** Decoding undoes encoding, for every text that can be encoded. *)
Lemma utf8_decode_encode s b :
  utf8_encode s = Ok b -> utf8_decode b = Ok s.
Proof.
  revert b. induction s as [|c s IH]; intros b H; simpl in H.
  - by injection H as <-.
  - destruct (utf8_char c) as [bc|] eqn:Hc; [|discriminate]. simpl in H.
    destruct (utf8_encode s) as [bs|] eqn:Hs; [|discriminate]. simpl in H.
    injection H as <-. rewrite (utf8_char_decode _ _ _ Hc), (IH bs eq_refl). done.
Qed.

Lemma utf8_char_bytes c b :
  utf8_char c = Ok b -> Forall (fun x => x < 256) b.
Proof.
  unfold utf8_char. intros H.
  destruct (N.ltb_spec c 0x80).
  { injection H as <-. repeat constructor. lia. }
  destruct (N.ltb_spec c 0x800).
  { injection H as <-. repeat constructor; nlia. }
  destruct (N.ltb_spec c 0x10000).
  { destruct (is_surrogate c); [discriminate|].
    injection H as <-. repeat constructor; nlia. }
  destruct (N.ltb_spec c 0x110000); [|discriminate].
  injection H as <-. repeat constructor; nlia.
Qed.

Lemma utf8_encode_bytes s b :
  utf8_encode s = Ok b -> Forall (fun x => x < 256) b.
Proof.
  revert b. induction s as [|c s IH]; intros b H; simpl in H.
  - injection H as <-. constructor.
  - destruct (utf8_char c) as [bc|] eqn:Hc; [|discriminate]. simpl in H.
    destruct (utf8_encode s) as [bs|] eqn:Hs; [|discriminate]. simpl in H.
    injection H as <-. apply Forall_app. split; [by eapply utf8_char_bytes|by apply IH].
Qed.

(** ASCII text is its own UTF-8 form. *)
Lemma utf8_encode_ascii s :
  Forall (fun c => c < 128) s -> utf8_encode s = Ok s.
Proof.
  induction 1 as [|c s Hc _ IH]; [done|].
  simpl. unfold utf8_char. ntest. simpl. by rewrite IH.
Qed.

Lemma b2a_table_ascii i : urlsafe_out (b2a_table i) < 128.
Proof.
  unfold urlsafe_out, b2a_table.
  repeat match goal with
         | |- context [N.ltb ?a ?b] => destruct (N.ltb_spec a b)
         | |- context [N.eqb ?a ?b] => destruct (N.eqb_spec a b)
         end; lia.
Qed.

Lemma urlsafe_b64encode_ascii bs :
  Forall (fun c => c < 128) (urlsafe_b64encode bs).
Proof.
  unfold urlsafe_b64encode.
  assert (Hpad : urlsafe_out pad < 128) by (vm_compute; done).
  revert bs. fix IH 1. intros [|a [|b [|c rest]]]; cbn [b2a_base64 map].
  - constructor.
  - repeat constructor; auto using b2a_table_ascii.
  - repeat constructor; auto using b2a_table_ascii.
  - repeat (constructor; [apply b2a_table_ascii|]). apply IH.
Qed.

(** A character the encoder writes for a 6-bit group is read back as that
    group, and is not the pad. *)
Lemma a2b_table_b2a i :
  i < 64 ->
  a2b_table (urlsafe_in (urlsafe_out (b2a_table i))) = Some i
  /\ (urlsafe_in (urlsafe_out (b2a_table i)) =? pad) = false.
Proof.
  intros Hi. unfold b2a_table.
  destruct (N.ltb_spec i 26); [|destruct (N.ltb_spec i 52);
    [|destruct (N.ltb_spec i 62); [|destruct (N.eqb_spec i 62)]]].
  - unfold urlsafe_out, urlsafe_in, a2b_table, pad. ntest. cbn [andb].
    split; [f_equal; lia|done].
  - unfold urlsafe_out, urlsafe_in, a2b_table, pad. ntest. cbn [andb].
    split; [f_equal; lia|done].
  - unfold urlsafe_out, urlsafe_in, a2b_table, pad. ntest. cbn [andb].
    split; [f_equal; lia|done].
  - subst i. vm_compute. done.
  - assert (i = 63) as -> by lia. vm_compute. done.
Qed.

(** One step of the decoder on a character the encoder wrote. *)
Lemma a2b_loop_group i rest quad_pos leftchar pads :
  i < 64 ->
  a2b_loop (urlsafe_in (urlsafe_out (b2a_table i)) :: rest) quad_pos leftchar pads
  = if quad_pos =? 0 then a2b_loop rest 1 i 0
    else if quad_pos =? 1 then
      let* out := a2b_loop rest 2 (i mod 16) 0 in
      Ok (leftchar * 4 + i / 16 :: out)
    else if quad_pos =? 2 then
      let* out := a2b_loop rest 3 (i mod 4) 0 in
      Ok (leftchar * 16 + i / 4 :: out)
    else
      let* out := a2b_loop rest 0 0 0 in
      Ok (leftchar * 64 + i :: out).
Proof.
  intros Hi. destruct (a2b_table_b2a i Hi) as [Ht Hp].
  cbn [a2b_loop]. by rewrite Hp, Ht.
Qed.

Lemma a2b_loop_pad rest quad_pos leftchar pads :
  a2b_loop (urlsafe_in (urlsafe_out pad) :: rest) quad_pos leftchar pads
  = if 2 <=? quad_pos then
      if 4 <=? quad_pos + (pads + 1) then Ok []
      else a2b_loop rest quad_pos leftchar (pads + 1)
    else a2b_loop rest quad_pos leftchar pads.
Proof. reflexivity. Qed.

(** Decoding undoes the URL-safe base64 encoding of any bytes. *)
Lemma urlsafe_b64decode_encode bs :
  Forall (fun x => x < 256) bs ->
  urlsafe_b64decode (urlsafe_b64encode bs) = Ok bs.
Proof.
  unfold urlsafe_b64decode, a2b_base64, urlsafe_b64encode.
  revert bs. fix IH 1. intros [|a [|b [|c rest]]] Hb; cbn [b2a_base64 map].
  - reflexivity.
  - apply Forall_cons in Hb as [Ha _].
    rewrite !a2b_loop_group, !a2b_loop_pad by nlia. ntest.
    cbn [bind]. f_equal. f_equal. nlia.
  - apply Forall_cons in Hb as [Ha Hb]. apply Forall_cons in Hb as [Hb _].
    rewrite !a2b_loop_group, !a2b_loop_pad by nlia. ntest.
    cbn [bind]. f_equal. f_equal; [nlia|f_equal; nlia].
  - apply Forall_cons in Hb as [Ha Hb]. apply Forall_cons in Hb as [Hb Hc].
    apply Forall_cons in Hc as [Hc Hrest].
    rewrite !a2b_loop_group by nlia. ntest.
    rewrite (IH rest Hrest). cbn [bind].
    f_equal. f_equal; [nlia|f_equal; [nlia|f_equal; nlia]].
Qed.

(** Every text of scalar values has a UTF-8 form. *)
Lemma utf8_encode_total text :
  Forall scalar_value text -> exists raw, utf8_encode text = Ok raw.
Proof.
  induction 1 as [|c text [Hc Hs] _ [raw IH]]; [by exists []|].
  simpl. rewrite IH. unfold utf8_char. rewrite Hs.
  repeat match goal with
         | |- context [N.ltb ?a ?b] => destruct (N.ltb_spec a b)
         end; try (by eexists); lia.
Qed.

(** C5: every text payload has a transport encoding (UTF-8, then URL-safe
    base64), and the decode step of [parse_body] takes that encoding back to
    the original text. *)
Theorem decode_body_transport_encode `{Runtime} (text : str) :
  Forall scalar_value text ->
  exists data,
    transport_encode text = Ok data
    /\ decode_body (VStr data) = Ok text.
Proof.
  intros Htext. unfold transport_encode, decode_body.
  destruct (utf8_encode_total text Htext) as [raw Hraw]. rewrite Hraw.
  cbn [bind py_str]. eexists. split; [reflexivity|].
  rewrite (utf8_encode_ascii _ (urlsafe_b64encode_ascii raw)). cbn [bind].
  rewrite (urlsafe_b64decode_encode raw (utf8_encode_bytes _ _ Hraw)). cbn [bind].
  by apply utf8_decode_encode.
Qed.

Lemma decode_body_transport_encode_witness :
  exists data,
    transport_encode sample_text = Ok data
    /\ data = py "SGnDqeKCrPCfmIA="
    /\ @decode_body Reference.reference (VStr data) = Ok sample_text.
Proof.
  destruct (@decode_body_transport_encode Reference.reference sample_text)
    as (data & Henc & Hdec).
  - unfold sample_text, scalar_value. repeat constructor; done.
  - exists data. split; [exact Henc|]. split; [|exact Hdec].
    vm_compute in Henc. by injection Henc as <-.
Defined.

(** The list branch never reads the negation flag. *)
Lemma get_next_part_list_negation l what search negation allowed :
  get_next_part (VList l) what search negation allowed
  = get_next_part (VList l) what search false allowed.
Proof. reflexivity. Qed.

Lemma any_sibling_true search allowed l :
  any_sibling search allowed l = Ok true ->
  exists m ct, m ∈ l /\ getitem m search = Ok ct /\ ct ∈ (VStr <$> allowed).
Proof.
  induction l as [|m l IH]; simpl; [discriminate|].
  destruct (getitem m search) as [ct|] eqn:Hct; simpl; [|discriminate].
  destruct (in_strs ct allowed) eqn:Hin.
  - intros _. exists m, ct. split; [left|]. by rewrite <- in_strs_spec.
  - intros (m' & ct' & Hm & Hrest)%IH. exists m', ct'. split; [by right|done].
Qed.

Lemma any_sibling_false search allowed l :
  any_sibling search allowed l = Ok false ->
  forall m, m ∈ l -> exists ct, getitem m search = Ok ct /\ ct ∉ (VStr <$> allowed).
Proof.
  induction l as [|m l IH]; simpl; [intros _ m Hm; by apply elem_of_nil in Hm|].
  destruct (getitem m search) as [ct|] eqn:Hct; simpl; [|discriminate].
  destruct (in_strs ct allowed) eqn:Hin; [discriminate|].
  intros Hrest m' [->|Hm']%elem_of_cons; [|by apply IH].
  exists ct. split; [done|]. rewrite <- in_strs_spec. by rewrite Hin.
Qed.

(** Without negation the list branch does what is said of it: when every
    sibling has the search field, the whole list comes back with [True]
    exactly when some sibling's field is allowed, and otherwise the first
    sibling's children with [False]. *)
Lemma get_next_part_list_plain l what search allowed :
  Forall (fun m => exists ct, getitem m search = Ok ct) l ->
  ((exists m ct, m ∈ l /\ getitem m search = Ok ct /\ passes false allowed ct)
   -> get_next_part (VList l) what search false allowed = Ok (l, true))
  /\ ((forall m ct, m ∈ l -> getitem m search = Ok ct -> ~ passes false allowed ct)
      -> forall first rest children,
         l = first :: rest -> getitem first what = Ok children ->
         get_next_part (VList l) what search false allowed
         = Ok (as_list children, false)).
Proof.
  intros Hall. unfold get_next_part, passes.
  assert (Hdef : exists b, any_sibling search allowed l = Ok b).
  { induction Hall as [|m l [ct Hct] _ [b IH]]; simpl; [by exists false|].
    rewrite Hct. simpl. destruct (in_strs ct allowed); [by exists true|by exists b]. }
  destruct Hdef as [[] Hb]; rewrite Hb; simpl.
  - split; [done|]. intros Hno.
    apply any_sibling_true in Hb as (m & ct & Hm & Hct & Hin).
    by destruct (Hno m ct Hm Hct).
  - split.
    + intros (m & ct & Hm & Hct & Hin).
      destruct (any_sibling_false _ _ _ Hb m Hm) as (ct' & Hct' & Hnin).
      congruence.
    + intros _ first rest children -> Hch. simpl. by rewrite Hch.
Qed.

(** C2: with the negation flag set, a list whose only sibling has a content
    type outside the allowed set passes the inverted acceptance test, yet
    [get_next_part] answers with that sibling's children and [False]: the
    list branch tests plain membership whatever the flag. *)
Theorem get_next_part_list_negated :
  passes true default_allowed (VStr (py "image/png"))
  /\ getitem png_sibling default_search = Ok (VStr (py "image/png"))
  /\ get_next_part (VList [png_sibling]) default_what default_search true
       default_allowed
     = Ok ([plain_leaf], false).
Proof.
  split; [|split; reflexivity].
  unfold passes. rewrite <- in_strs_spec. vm_compute. discriminate.
Qed.

(** ** The body decoder *)

(** C3: a message whose tree has no text node at all, nested one level
    deeper than the depth bound of 10.  The walker runs out of depth without a
    match, and [parse_body] then decodes the body of the part it stopped at
    instead of returning the placeholder. *)
Theorem parse_body_depth_exhausted `{Runtime} :
  has_allowed_node types deep_message = false
  /\ walk 10 (nest 10 json_leaf) = Ok (VList [json_leaf], false)
  /\ parse_body deep_message (py "text/plain") 10 = Ok (py "Hi").
Proof. repeat split; reflexivity. Qed.

(** A walk that raises, as on a node without the children key, ends in the
    placeholder. *)
Lemma parse_body_walk_raises `{Runtime} msg payload prefer depth e :
  getitem msg (py "payload") = Ok payload ->
  prefer ∈ types ->
  walk (Z.to_nat depth) payload = Raise e ->
  parse_body_io msg prefer depth = Ok (fallback, []).
Proof.
  intros Hp Hpre Hw. unfold parse_body_io, resolve.
  rewrite (bool_decide_eq_true_2 _ Hpre), Hp. cbn [negb bind].
  rewrite Hw. reflexivity.
Qed.

(** C4: on a message that has a payload, with a preferred type it accepts,
    [parse_body] returns a text, the placeholder whenever resolving the body
    failed, or raises what the [print] call after the [try] block raised; it
    reaches that call only when a text part was found and the type it settled
    on is not the preferred one.  A first node that is not an acceptable type
    and has no children key gives the placeholder. *)
Theorem parse_body_recovers `{Runtime} msg payload prefer depth :
  getitem msg (py "payload") = Ok payload ->
  prefer = py "text/plain" \/ prefer = py "text/html" ->
  ((exists plain,
      parse_body msg prefer depth = Ok plain
      /\ (forall e, snd (resolve payload prefer depth) = Raise e ->
            plain = fallback))
   \/ (exists e pmime,
         parse_body msg prefer depth = Raise e
         /\ fst (resolve payload prefer depth) = true
         /\ pmime = match snd (resolve payload prefer depth) with
                    | Ok r => fst r
                    | Raise _ => VStr (py "text/plain")
                    end
         /\ eq_str pmime prefer = false
         /\ print (py "Could not find preferred type. Body retrieved as "
                   ++ py_str pmime ++ py ".") = Raise e))
  /\ (forall ct e, (0 < depth)%Z -> is_list payload = false ->
        getitem payload (py "mimeType") = Ok ct -> in_strs ct types = false ->
        getitem payload (py "parts") = Raise e ->
        parse_body msg prefer depth = Ok fallback).
Proof.
  intros Hp Hpre.
  assert (Hin : prefer ∈ types).
  { unfold types. destruct Hpre as [->| ->]; set_solver. }
  split.
  - unfold parse_body, parse_body_io.
    rewrite (bool_decide_eq_true_2 _ Hin), Hp. cbn [negb bind].
    destruct (resolve payload prefer depth) as [found outcome].
    cbn [fst snd].
    set (settled := match outcome with
                    | Ok r => r
                    | Raise _ => (VStr (py "text/plain"), fallback)
                    end).
    assert (Hmime : settled.1 = match outcome with
                                | Ok r => fst r
                                | Raise _ => VStr (py "text/plain")
                                end) by (by destruct outcome).
    assert (Hfail : forall e, outcome = Raise e -> settled.2 = fallback)
      by (by intros e ->).
    destruct settled as [pmime plain]. cbn [fst snd] in Hmime, Hfail.
    destruct found; cbn [andb].
    + destruct (eq_str pmime prefer) eqn:Heq; cbn [negb].
      * left. exists plain. by split.
      * destruct (print _) as [[]|e] eqn:Hprint; cbn [bind].
        -- left. exists plain. by split.
        -- right. exists e, pmime. by repeat split.
    + left. exists plain. by split.
  - intros ct e Hd Hnl Hct Hnin Hparts.
    assert (Hwalk : walk (Z.to_nat depth) payload = Raise e).
    { destruct (Z.to_nat depth) as [|n] eqn:Hn; [lia|]. cbn [walk].
      replace (get_next_part payload (py "parts") (py "mimeType") false types)
        with (@Raise (list value * bool) e); [done|].
      destruct payload; try discriminate Hnl; unfold get_next_part;
        rewrite Hct; cbn [bind]; rewrite Hnin, Hparts; done. }
    unfold parse_body.
    by rewrite (parse_body_walk_raises msg payload prefer depth e Hp Hin Hwalk).
Qed.

Lemma parse_body_recovers_witness :
  @parse_body Reference.reference png_message (py "text/plain") 10 = Ok fallback.
Proof.
  apply (proj2 (@parse_body_recovers Reference.reference png_message
                  (VDict [(py "mimeType", VStr (py "image/png"))])
                  (py "text/plain") 10 eq_refl (or_introl eq_refl))
           (VStr (py "image/png")) KeyError);
    reflexivity.
Defined.

(** A message without the payload field makes [parse_body] raise: the lookup
    stands before the [try]. *)
Lemma parse_body_without_payload :
  @parse_body Reference.reference (VDict [(py "id", VStr (py "m1"))])
    (py "text/plain") 10
  = Raise KeyError.
Proof. reflexivity. Qed.

(** A message whose payload is found makes it raise too, on a standard output
    in UTF-8, when the part it settles on has a content type that holds a
    lone surrogate: the line to print cannot be encoded. *)
Example parse_body_print_raises :
  @parse_body Reference.reference surrogate_message (py "text/plain") 10
  = Raise UnicodeEncodeError.
Proof. reflexivity. Qed.

(** ** The search string *)

(** With ['today'] as end date the string is built: the begin date, the day
    after the run date, then the optional clauses, joined by spaces. *)
Lemma build_query_today `{Runtime} today begin_date label g_query att_get
    max_size b d :
  date_parse begin_date = Ok b ->
  next_day today = Ok d ->
  build_query today begin_date (py "today") label g_query att_get max_size
  = Ok (join (py " ")
          ([py "after:" ++ date_str (dt_date b); py "before:" ++ date_str d]
           ++ match label with Some l => [py "label:" ++ str_lower l] | None => [] end
           ++ match g_query with Some g => [g] | None => [] end
           ++ if att_get then [py "smaller:" ++ int_str max_size] else [])).
Proof.
  intros Hb Hd. unfold build_query. rewrite Hb. cbn [bind].
  rewrite bool_decide_eq_true_2 by done. rewrite Hd. cbn [bind].
  destruct label, g_query, att_get; reflexivity.
Qed.

(** With any other end date no string is built: the parser fails, or adding
    the integer 1 to a date raises. *)
Lemma build_query_end_date_raises `{Runtime} today begin_date end_date label
    g_query att_get max_size :
  end_date <> py "today" ->
  raises (build_query today begin_date end_date label g_query att_get max_size)
  = true.
Proof.
  intros Hne. unfold build_query.
  destruct (date_parse begin_date); [|done]. cbn [bind].
  rewrite bool_decide_eq_false_2 by done.
  destruct (date_parse end_date); done.
Qed.

(** C8: on a run dated 2018-01-02, begin date 2018-01-01 and end date
    ['today'] give "after:2018-01-01 before:2018-01-03"; with the ISO end
    date 2018-01-02 the builder raises [TypeError] instead of advancing the
    date by one day. *)
Theorem build_query_end_date :
  @build_query Reference.reference (Date 2018 1 2) (py "2018-01-01")
     (py "today") None None false 20971520
  = Ok (py "after:2018-01-01 before:2018-01-03")
  /\ @build_query Reference.reference (Date 2018 1 2) (py "2018-01-01")
       (py "2018-01-02") None None false 20971520
     = Raise TypeError.
Proof. split; reflexivity. Qed.

(** ** Lines *)

Lemma split_on_nonempty sep s : split_on sep s <> [].
Proof.
  destruct s as [|c s]; simpl; [done|].
  destruct (c =? sep); [done|]. by destruct (split_on sep s).
Qed.

(** Splitting distributes over a separator. *)
Lemma split_on_sep sep a b :
  split_on sep (a ++ sep :: b) = split_on sep a ++ split_on sep b.
Proof.
  induction a as [|c a IH]; simpl.
  - by rewrite N.eqb_refl.
  - destruct (c =? sep); simpl; [by rewrite IH|].
    rewrite IH. destruct (split_on sep a) eqn:E; [|done].
    by destruct (split_on_nonempty sep a).
Qed.

(** A piece without the separator stays in front of the first part. *)
Lemma split_on_prefix sep a b :
  sep ∉ a ->
  split_on sep (a ++ b)
  = match split_on sep b with
    | l :: ls => (a ++ l) :: ls
    | [] => [a]
    end.
Proof.
  induction a as [|c a IH]; intros Ha; simpl.
  - destruct (split_on sep b) eqn:E; [|done]. by destruct (split_on_nonempty sep b).
  - apply not_elem_of_cons in Ha as [Hc Ha].
    rewrite (proj2 (N.eqb_neq c sep)) by done. rewrite (IH Ha).
    by destruct (split_on sep b).
Qed.

Lemma split_on_single sep a : sep ∉ a -> split_on sep a = [a].
Proof.
  intros Ha. pose proof (split_on_prefix sep a [] Ha) as Hp.
  rewrite app_nil_r in Hp. rewrite Hp. simpl. by rewrite app_nil_r.
Qed.

Lemma split_on_line sep a b :
  sep ∉ a -> split_on sep (a ++ sep :: b) = a :: split_on sep b.
Proof. intros Ha. by rewrite split_on_sep, split_on_single. Qed.

(** No part holds the separator. *)
Lemma split_on_parts sep s l : l ∈ split_on sep s -> sep ∉ l.
Proof.
  revert l. induction s as [|c s IH]; intros l; simpl.
  - intros ->%list_elem_of_singleton. apply not_elem_of_nil.
  - destruct (N.eqb_spec c sep) as [->|Hne].
    + intros [->|Hl]%elem_of_cons; [apply not_elem_of_nil|by apply IH].
    + destruct (split_on sep s) as [|l0 ls] eqn:E.
      * intros ->%list_elem_of_singleton.
        apply not_elem_of_cons. split; [done|apply not_elem_of_nil].
      * intros [->|Hl]%elem_of_cons.
        -- apply not_elem_of_cons. split; [done|]. apply IH. by left.
        -- apply IH. by right.
Qed.

(** Joining parts without the separator and splitting again gives them back. *)
Lemma split_on_join sep ls :
  ls <> [] -> Forall (fun l => sep ∉ l) ls ->
  split_on sep (join [sep] ls) = ls.
Proof.
  induction ls as [|l ls IH]; [done|]. intros _ Hall.
  apply Forall_cons in Hall as [Hl Hls].
  destruct ls as [|l' ls']; simpl.
  - by apply split_on_single.
  - change (l ++ [sep] ++ join [sep] (l' :: ls'))
      with (l ++ sep :: join [sep] (l' :: ls')).
    rewrite split_on_line by done. f_equal. by apply IH.
Qed.

(** ** The template and its indentation *)

Lemma single_line_label (label : string) (s : str) :
  LF ∉ py label -> single_line s -> LF ∉ indent12 ++ py label ++ s.
Proof.
  intros Hl Hs. rewrite !not_elem_of_app. repeat split; [|done..].
  vm_compute. intros Hin. repeat (apply elem_of_cons in Hin as [Hin|Hin]; [done|]).
  by apply elem_of_nil in Hin.
Qed.

Lemma template_line (label : string) (x rest : str) :
  LF ∉ py label -> single_line x ->
  split_on LF (indent12 ++ py label ++ x ++ [LF] ++ rest)
  = (indent12 ++ py label ++ x) :: split_on LF rest.
Proof.
  intros Hl Hx.
  replace (indent12 ++ py label ++ x ++ [LF] ++ rest)
    with ((indent12 ++ py label ++ x) ++ LF :: rest)
    by (by rewrite <- !app_assoc).
  apply split_on_line. by apply single_line_label.
Qed.

(** The lines of the template when every header value stays on one line. *)
Lemma template_lines r :
  single_line_headers r ->
  lines (template r)
  = [indent12 ++ py "**From:** " ++ rec_from r;
     indent12 ++ py "**To:** " ++ rec_to r;
     indent12 ++ py "**CC:** " ++ opt_str (rec_cc r);
     indent12 ++ py "**Subject:** " ++ rec_subject r;
     indent12 ++ py "**Thread Topic:** " ++ opt_str (rec_thread_topic r);
     indent12 ++ py "**Date:** " ++ rec_date r;
     indent12].
Proof.
  intros (Hf & Ht & Hc & Hs & Htt & Hd). unfold lines, template.
  do 6 (rewrite template_line; [f_equal|no_lf|assumption]).
Qed.

Lemma forallb_blank_inked m l :
  inked l -> forallb is_blank (m ++ l) = false.
Proof.
  destruct l as [|c l]; [done|]. simpl. intros Hc.
  rewrite forallb_app. simpl. rewrite Hc. apply andb_false_r.
Qed.

Lemma leading_blanks_inked m l :
  forallb is_blank m = true -> inked l -> leading_blanks (m ++ l) = m.
Proof.
  intros Hm Hl. induction m as [|c m IH]; simpl in *.
  - destruct l as [|c l]; [done|]. simpl in Hl |- *. by rewrite Hl.
  - apply andb_true_iff in Hm as [Hc Hm]. rewrite Hc. f_equal. by apply IH.
Qed.

Lemma starts_with_app m l : starts_with (m ++ l) m = true.
Proof. induction m as [|c m IH]; simpl; [done|]. by rewrite N.eqb_refl, IH. Qed.

Lemma strip_margin_app m l : strip_margin m (m ++ l) = l.
Proof. unfold strip_margin. by rewrite starts_with_app, drop_app_length. Qed.

Lemma narrow_same m : narrow m m = m.
Proof.
  unfold narrow. pose proof (starts_with_app m []) as Hs.
  rewrite app_nil_r in Hs. by rewrite Hs.
Qed.

(** Lines that all carry the indentation [m], then a last line of [m]
    alone: dedenting removes [m] everywhere. *)
Lemma dedent_lines_uniform m bodies :
  m <> [] -> forallb is_blank m = true ->
  bodies <> [] -> Forall inked bodies ->
  dedent_lines (((fun b => m ++ b) <$> bodies) ++ [m]) = bodies ++ [[]].
Proof.
  intros Hm Hblank Hne Hink. unfold dedent_lines.
  assert (Hnorm : normalize <$> ((fun b => m ++ b) <$> bodies) ++ [m]
                  = ((fun b => m ++ b) <$> bodies) ++ [[]]).
  { rewrite fmap_app. f_equal.
    - clear Hne. induction Hink as [|b bs Hb _ IH]; [done|].
      rewrite !fmap_cons. f_equal; [|done].
      unfold normalize. by rewrite forallb_blank_inked.
    - simpl. unfold normalize. by rewrite Hblank. }
  rewrite Hnorm.
  assert (Hind : indents (((fun b => m ++ b) <$> bodies) ++ [[]])
                 = (fun _ => m) <$> bodies).
  { unfold indents. rewrite List.filter_app. simpl. rewrite app_nil_r.
    clear Hne Hnorm. induction Hink as [|b bs Hb _ IH]; [done|].
    rewrite !fmap_cons. cbn [List.filter].
    rewrite forallb_blank_inked by done. cbn [negb].
    rewrite fmap_cons, leading_blanks_inked by done. by f_equal. }
  rewrite Hind.
  assert (Hmargin : margin_of ((fun _ => m) <$> bodies) = Some m).
  { destruct bodies as [|b bs]; [done|]. simpl. f_equal.
    clear. induction bs as [|b' bs IH]; [done|]. simpl. by rewrite narrow_same. }
  rewrite Hmargin. destruct m as [|c m]; [done|].
  rewrite fmap_app. f_equal.
  clear. induction bodies as [|b bs IH]; [done|].
  rewrite !fmap_cons, (strip_margin_app (c :: m) b). by f_equal.
Qed.

Lemma inked_label (label : string) (x : str) :
  match py label with
  | c :: _ => is_blank c
  | [] => true
  end = false ->
  inked (py label ++ x).
Proof. destruct (py label) as [|c l]; [done|]. simpl. done. Qed.

(** Dedenting the template of a record with one-line header values leaves
    exactly the header block. *)
Lemma dedent_template r :
  single_line_headers r -> dedent (template r) = header_block r.
Proof.
  intros Hr. unfold dedent. rewrite (template_lines r Hr).
  pose proof (dedent_lines_uniform indent12
    [py "**From:** " ++ rec_from r; py "**To:** " ++ rec_to r;
     py "**CC:** " ++ opt_str (rec_cc r); py "**Subject:** " ++ rec_subject r;
     py "**Thread Topic:** " ++ opt_str (rec_thread_topic r);
     py "**Date:** " ++ rec_date r]) as Hd.
  cbn [fmap list_fmap app] in Hd. rewrite Hd.
  - unfold header_block, unlines. cbn [join app]. by rewrite <- !app_assoc.
  - done.
  - reflexivity.
  - done.
  - repeat (constructor; [by apply inked_label|]). constructor.
Qed.

(** ** Ordered dicts *)

(** Reading back what was just stored. *)
Lemma assoc_od_set_eq {V} k (v : V) d : assoc k (od_set k v d) = Some v.
Proof.
  induction d as [|[k' v'] d IH]; simpl.
  - by rewrite decide_True.
  - destruct (decide (k = k')) as [->|Hne]; simpl.
    + by rewrite decide_True.
    + by rewrite decide_False.
Qed.

Lemma assoc_od_set_ne {V} k k' (v : V) d :
  k <> k' -> assoc k' (od_set k v d) = assoc k' d.
Proof.
  intros Hne. induction d as [|[k0 v0] d IH]; simpl.
  - by rewrite decide_False.
  - destruct (decide (k = k0)) as [->|Hne0]; simpl.
    + by rewrite !decide_False.
    + destruct (decide (k' = k0)); [done|apply IH].
Qed.

(** ** The first message of a thread *)

Lemma assoc_snoc {V} k (v : V) d :
  k ∉ d.*1 -> assoc k (d ++ [(k, v)]) = Some v.
Proof.
  induction d as [|[k' v'] d IH]; simpl; intros Hk.
  - by rewrite decide_True.
  - apply not_elem_of_cons in Hk as [Hne Hk]. rewrite decide_False by done.
    by apply IH.
Qed.

(** C7: in a thread's mapping with at least one entry, the first message
    is the record under the last key in insertion order; the thread's
    [first_subject] is that record's subject, and its [first_date] is the
    calendar date, in ISO form, of that record's rendered date parsed back. *)
Theorem set_first_last `{Runtime} (members : thread) (k : str) (m : record)
    (dt : datetime) :
  k ∉ members.*1 ->
  date_parse (rec_date m) = Ok dt ->
  exists t',
    set_first (members ++ [(k, Rec m)]) = Ok t'
    /\ od_get (py "first_subject") t' = Ok (Scalar (rec_subject m))
    /\ od_get (py "first_date") t' = Ok (Scalar (date_str (dt_date dt))).
Proof.
  intros Hk Hdt. unfold set_first.
  rewrite fmap_app. change (fst <$> [(k, Rec m)]) with [k].
  rewrite last_snoc. unfold od_get at 1.
  rewrite (assoc_snoc k (Rec m) members Hk). cbn [bind]. rewrite Hdt. cbn [bind].
  eexists. split; [reflexivity|]. unfold od_get. split.
  - rewrite assoc_od_set_ne by (vm_compute; discriminate).
    by rewrite assoc_od_set_eq.
  - by rewrite assoc_od_set_eq.
Qed.

Lemma set_first_last_witness :
  exists t',
    @set_first Reference.reference
      ([(py "m2", Rec sample_record)] ++ [(py "m1", Rec sample_record)]) = Ok t'
    /\ od_get (py "first_subject") t' = Ok (Scalar (py "Hello"))
    /\ od_get (py "first_date") t' = Ok (Scalar (py "2018-01-02")).
Proof.
  apply (@set_first_last Reference.reference [(py "m2", Rec sample_record)]
           (py "m1") sample_record
           (Datetime (Date 2018 1 2) 15 4 0 (Some 0%Z))).
  - vm_compute. intros Hin. apply elem_of_cons in Hin as [Hin|Hin]; [done|].
    by apply elem_of_nil in Hin.
  - reflexivity.
Defined.

(** The derived date of a thread is not the first message's own date
    string. *)
Lemma first_date_is_not_the_message_date :
  exists t',
    @set_first Reference.reference [(py "m1", Rec sample_record)] = Ok t'
    /\ od_get (py "first_date") t' = Ok (Scalar (py "2018-01-02"))
    /\ rec_date sample_record = py "Tuesday Jan 02, 2018, 03:04 PM UTC"
    /\ py "2018-01-02" <> rec_date sample_record.
Proof. eexists. repeat split. vm_compute. discriminate. Qed.

(** ** Dedenting arbitrary text *)

Lemma starts_with_prefix s p : starts_with s p = true -> p `prefix_of` s.
Proof.
  revert s. induction p as [|c p IH]; intros s; simpl.
  - intros _. apply prefix_nil.
  - destruct s as [|c' s]; [done|].
    intros [->%N.eqb_eq Hs]%andb_true_iff. by apply prefix_cons, IH.
Qed.

Lemma common_prefix_prefix m i : common_prefix m i `prefix_of` m.
Proof.
  revert i. induction m as [|x m IH]; intros [|y i]; simpl;
    try apply prefix_nil.
  destruct (x =? y); [by apply prefix_cons|apply prefix_nil].
Qed.

(** A round of the margin loop never widens the margin. *)
Lemma narrow_prefix m i : narrow m i `prefix_of` m.
Proof.
  unfold narrow. destruct (starts_with i m); [done|].
  destruct (starts_with m i) eqn:E; [by apply starts_with_prefix|].
  apply common_prefix_prefix.
Qed.

Lemma fold_narrow_prefix ins m : fold_left narrow ins m `prefix_of` m.
Proof.
  revert m. induction ins as [|i ins IH]; intros m; simpl; [done|].
  etrans; [apply IH|apply narrow_prefix].
Qed.

Lemma prefix_replicate (p : str) n x :
  p `prefix_of` replicate n x -> exists k, (k <= n)%nat /\ p = replicate k x.
Proof.
  revert n. induction p as [|c p IH]; intros n Hp.
  - exists 0%nat. split; [lia|done].
  - destruct n as [|n]; simpl in Hp.
    + by apply prefix_nil_inv in Hp.
    + pose proof (prefix_cons_inv_1 _ _ _ _ Hp) as ->.
      apply prefix_cons_inv_2, IH in Hp as (k & Hk & ->).
      exists (S k). split; [lia|done].
Qed.

Lemma dedent_lines_length ls : length (dedent_lines ls) = length ls.
Proof.
  unfold dedent_lines.
  destruct (margin_of _) as [[|c m]|]; by rewrite ?length_fmap.
Qed.

Lemma normalize_no_sep sep l : sep ∉ l -> sep ∉ normalize l.
Proof.
  unfold normalize. destruct (forallb is_blank l); [|done].
  intros _. apply not_elem_of_nil.
Qed.

Lemma strip_margin_no_sep sep m l : sep ∉ l -> sep ∉ strip_margin m l.
Proof.
  unfold strip_margin. destruct (starts_with l m); [|done].
  intros Hl Hin. apply Hl. rewrite <- (take_drop (length m) l).
  apply elem_of_app. by right.
Qed.

Lemma dedent_lines_no_sep sep ls :
  Forall (fun l => sep ∉ l) ls -> Forall (fun l => sep ∉ l) (dedent_lines ls).
Proof.
  intros Hls. unfold dedent_lines.
  assert (Hn : Forall (fun l => sep ∉ l) (normalize <$> ls)).
  { apply Forall_fmap. eapply Forall_impl; [exact Hls|].
    intros l. apply normalize_no_sep. }
  destruct (margin_of _) as [[|c m]|]; try done.
  apply Forall_fmap. eapply Forall_impl; [exact Hn|].
  intros l. apply strip_margin_no_sep.
Qed.

(** The lines that come out of [dedent] are lines of the full text. *)
Lemma full_text_lines r l :
  l ∈ dedent_lines (lines (template r)) -> l ∈ lines (full_text r).
Proof.
  intros Hl. unfold full_text, dedent, lines, unlines.
  change (join [LF] (dedent_lines (split_on LF (template r))) ++ [LF; LF] ++ rec_body r)
    with (join [LF] (dedent_lines (split_on LF (template r)))
          ++ LF :: (LF :: rec_body r)).
  rewrite split_on_sep, split_on_join.
  - apply elem_of_app. by left.
  - intros Hnil. apply (f_equal length) in Hnil.
    rewrite dedent_lines_length in Hnil.
    destruct (split_on LF (template r)) eqn:E; [|done].
    by destruct (split_on_nonempty LF (template r)).
  - apply dedent_lines_no_sep, Forall_forall. intros x. apply split_on_parts.
Qed.

(** When the first line is indented by twelve spaces, a line indented by
    twelve spaces keeps its text and at most twelve of the spaces. *)
Lemma dedent_lines_keeps (first target : str) (rest : list str) :
  inked first -> inked target ->
  indent12 ++ target ∈ (indent12 ++ first) :: rest ->
  exists k, (k <= 12)%nat
    /\ replicate k SPACE ++ target ∈ dedent_lines ((indent12 ++ first) :: rest).
Proof.
  intros Hfirst Htarget Hin. unfold dedent_lines.
  assert (Hkeep : indent12 ++ target ∈ normalize <$> (indent12 ++ first) :: rest).
  { apply list_elem_of_fmap. exists (indent12 ++ target). split; [|done].
    unfold normalize. by rewrite forallb_blank_inked. }
  assert (Hmargin : exists ins,
    margin_of (indents (normalize <$> (indent12 ++ first) :: rest))
    = Some (fold_left narrow ins indent12)).
  { rewrite fmap_cons. unfold indents. cbn [List.filter].
    unfold normalize at 1 2. rewrite forallb_blank_inked by done.
    rewrite forallb_blank_inked by done. cbn [negb]. rewrite fmap_cons.
    rewrite leading_blanks_inked by done. eexists. reflexivity. }
  destruct Hmargin as [ins ->].
  destruct (prefix_replicate _ _ _ (fold_narrow_prefix ins indent12))
    as (k & Hk & ->).
  destruct k as [|k]; cbn [replicate].
  - exists 12%nat. split; [lia|exact Hkeep].
  - exists (12 - S k)%nat. split; [lia|].
    apply list_elem_of_fmap. exists (indent12 ++ target). split; [|done].
    change (SPACE :: replicate k SPACE) with (replicate (S k) SPACE).
    replace (indent12 ++ target)
      with (replicate (S k) SPACE ++ (replicate (12 - S k) SPACE ++ target)).
    + by rewrite strip_margin_app.
    + rewrite app_assoc, <- replicate_add. unfold indent12.
      by replace (S k + (12 - S k))%nat with 12%nat by lia.
Qed.

(** ** A message without a CC header *)

Lemma make_header_lookup_none `{Runtime} (headers : list (str * str)) (k : str) :
  (forall n v, (n, v) ∈ headers -> str_lower n <> k) ->
  make_header headers !! k = None.
Proof.
  unfold make_header.
  assert (Hgen : forall (h : gmap str str), h !! k = None ->
            (forall n v, (n, v) ∈ headers -> str_lower n <> k) ->
            foldl (fun h x => <[str_lower x.1 := x.2]> h) h headers !! k = None).
  { induction headers as [|[n v] hs IH]; intros h Hh Hall; simpl; [done|].
    apply IH.
    - rewrite lookup_insert_ne; [done|]. apply (Hall n v). by left.
    - intros n' v' Hin. apply (Hall n' v'). by right. }
  apply Hgen. apply lookup_empty.
Qed.

(** A record without CC: the template's first line is indented by twelve
    spaces, and one of its lines is the CC line with the text [None]. *)
Lemma template_cc_line r :
  rec_cc r = None ->
  exists first rest,
    inked first
    /\ lines (template r) = (indent12 ++ first) :: rest
    /\ indent12 ++ py "**CC:** None" ∈ (indent12 ++ first) :: rest.
Proof.
  intros Hcc.
  set (tail := py "**Subject:** " ++ rec_subject r ++ [LF]
        ++ indent12 ++ py "**Thread Topic:** " ++ opt_str (rec_thread_topic r)
        ++ [LF] ++ indent12 ++ py "**Date:** " ++ rec_date r ++ [LF] ++ indent12).
  assert (Hin : indent12 ++ py "**CC:** None" ∈ lines (template r)).
  { replace (template r)
      with ((indent12 ++ py "**From:** " ++ rec_from r ++ [LF]
             ++ indent12 ++ py "**To:** " ++ rec_to r)
            ++ LF :: ((indent12 ++ py "**CC:** None") ++ LF :: indent12 ++ tail)).
    2:{ unfold template, tail. rewrite Hcc. cbn [opt_str].
        rewrite <- !app_assoc. reflexivity. }
    unfold lines. rewrite split_on_sep, split_on_line by no_lf.
    apply elem_of_app. right. by left. }
  set (body := rec_from r ++ [LF] ++ indent12 ++ py "**To:** " ++ rec_to r ++ [LF]
     ++ indent12 ++ py "**CC:** " ++ opt_str (rec_cc r) ++ [LF] ++ indent12 ++ tail).
  pose proof (split_on_prefix LF (indent12 ++ py "**From:** ") body
    ltac:(no_lf)) as Hhead.
  replace ((indent12 ++ py "**From:** ") ++ body) with (template r) in Hhead
    by (unfold template, body, tail; by rewrite <- !app_assoc).
  unfold lines in *. rewrite Hhead in Hin |- *.
  destruct (split_on LF body) as [|l ls].
  - exists (py "**From:** "), [].
    split; [by vm_compute|]. split; [done|exact Hin].
  - exists (py "**From:** " ++ l), ls. rewrite <- app_assoc in Hin |- *.
    split; [by apply inked_label|]. split; [done|exact Hin].
Qed.

(** C10: a message whose header names do not include [cc] gets a record
    with no CC, and the full text of that record, whatever thread topic the
    second loop gives it, has a line reading "**CC:** None": after at most
    twelve spaces left from the template, and flush left when the header
    values each stay on one line. *)
Theorem cc_none_line `{Runtime} (msg : message) (tz_locale : str) (r : record)
    (topic : option str) (text : option str) :
  (forall n v, (n, v) ∈ msg_headers msg -> str_lower n <> py "cc") ->
  make_record msg tz_locale = Ok r ->
  let shown :=
    Record_ (rec_to r) (rec_from r) (rec_cc r) (rec_subject r) topic
      (rec_date r) (rec_body r) text in
  rec_cc r = None
  /\ (exists k, (k <= 12)%nat
        /\ replicate k SPACE ++ py "**CC:** None" ∈ lines (full_text shown))
  /\ (single_line_headers shown ->
      py "**CC:** None" ∈ lines (full_text shown)).
Proof.
  intros Hnocc Hmake shown.
  assert (Hcc : rec_cc r = None).
  { unfold make_record in Hmake.
    repeat match type of Hmake with
           | bind ?m _ = Ok _ => destruct m; [cbn [bind] in Hmake|discriminate]
           end.
    injection Hmake as <-. cbn [rec_cc]. by apply make_header_lookup_none. }
  split; [exact Hcc|]. split.
  - destruct (template_cc_line shown Hcc) as (first & rest & Hfirst & Hlines & Hin).
    destruct (dedent_lines_keeps first (py "**CC:** None") rest Hfirst
                ltac:(by vm_compute) Hin) as (k & Hk & Hline).
    exists k. split; [exact Hk|]. apply full_text_lines. by rewrite Hlines.
  - intros Hone. unfold full_text. rewrite (dedent_template shown Hone).
    unfold header_block, shown. cbn [rec_from rec_to rec_cc]. rewrite Hcc.
    cbn [opt_str].
    replace ((py "**From:** " ++ rec_from r ++ [LF] ++ py "**To:** " ++ rec_to r
              ++ [LF] ++ py "**CC:** " ++ py "None" ++ [LF] ++ _) ++ _)
      with ((py "**From:** " ++ rec_from r ++ [LF] ++ py "**To:** " ++ rec_to r)
            ++ LF :: (py "**CC:** None" ++ LF ::
                 (py "**Subject:** " ++ rec_subject r ++ [LF]
                  ++ py "**Thread Topic:** " ++ opt_str topic ++ [LF]
                  ++ py "**Date:** " ++ rec_date r ++ [LF])
                 ++ [LF; LF] ++ rec_body r))
      by (rewrite <- !app_assoc; reflexivity).
    unfold lines. rewrite split_on_sep, split_on_line by no_lf.
    apply elem_of_app. right. by left.
Qed.

Lemma cc_none_line_witness :
  @make_record Reference.reference sample_message (py "UTC") = Ok sample_built
  /\ py "**CC:** None"
     ∈ lines (full_text
                (Record_ (py "b@x.com") (py "a@x.com") None (py "Hello") (Some [])
                   (py "Tuesday Jan 02, 2018, 12:00 AM UTC") (py "Hi there") None)).
Proof.
  assert (Hmake : @make_record Reference.reference sample_message (py "UTC")
                  = Ok sample_built) by (vm_compute; reflexivity).
  split; [exact Hmake|].
  assert (Hnocc : forall n v, (n, v) ∈ msg_headers sample_message ->
                    @str_lower Reference.reference n <> py "cc").
  { intros n v Hin. cbn [msg_headers sample_message] in Hin.
    repeat (apply elem_of_cons in Hin as [[= -> ->]|Hin];
            [vm_compute; discriminate|]).
    by apply elem_of_nil in Hin. }
  destruct (@cc_none_line Reference.reference sample_message (py "UTC")
              sample_built (Some []) None Hnocc Hmake) as (_ & _ & Hline).
  apply Hline. unfold single_line_headers, single_line. repeat split; no_lf.
Defined.

(** ** More on ordered dicts *)

Lemma assoc_None {V} k (d : odict V) : assoc k d = None <-> k ∉ d.*1.
Proof.
  induction d as [|[k' v'] d IH]; simpl.
  - split; [intros _; apply not_elem_of_nil|done].
  - rewrite not_elem_of_cons. destruct (decide (k = k')) as [->|Hne].
    + split; [done|]. by intros [? _].
    + rewrite IH. split; [done|]. by intros [_ ?].
Qed.

Lemma assoc_Some_elem {V} k (v : V) d : assoc k d = Some v -> (k, v) ∈ d.
Proof.
  induction d as [|[k' v'] d IH]; simpl; [done|].
  destruct (decide (k = k')) as [->|Hne].
  - intros [= ->]. by left.
  - intros Hd. right. by apply IH.
Qed.

(** With distinct keys, an item of the dict is what lookup finds. *)
Lemma assoc_elem {V} k (v : V) d :
  NoDup d.*1 -> (k, v) ∈ d -> assoc k d = Some v.
Proof.
  induction d as [|[k' v'] d IH]; simpl; intros Hnd Hin.
  - by apply elem_of_nil in Hin.
  - apply NoDup_cons in Hnd as [Hk' Hnd].
    apply elem_of_cons in Hin as [[= -> ->]|Hin].
    + by rewrite decide_True.
    + rewrite decide_False; [by apply IH|].
      intros ->. apply Hk'. apply list_elem_of_fmap. by exists (k', v).
Qed.

(** Storing under a key the dict has keeps the keys and their order. *)
Lemma od_set_keys_present {V} k (v : V) d :
  k ∈ d.*1 -> (od_set k v d).*1 = d.*1.
Proof.
  induction d as [|[k' v'] d IH]; simpl; intros Hk.
  - by apply elem_of_nil in Hk.
  - destruct (decide (k = k')) as [->|Hne]; simpl; [done|].
    f_equal. apply IH. by apply elem_of_cons in Hk as [?|?].
Qed.

(** Storing under a new key adds it at the end. *)
Lemma od_set_keys_new {V} k (v : V) d :
  k ∉ d.*1 -> (od_set k v d).*1 = d.*1 ++ [k].
Proof.
  induction d as [|[k' v'] d IH]; simpl; intros Hk; [done|].
  apply not_elem_of_cons in Hk as [Hne Hk].
  rewrite decide_False by done. simpl. f_equal. by apply IH.
Qed.

Lemma od_set_keys_elem {V} k (v : V) d k' :
  k' ∈ (od_set k v d).*1 <-> k' = k \/ k' ∈ d.*1.
Proof.
  destruct (decide (k ∈ d.*1)) as [Hin|Hnin].
  - rewrite od_set_keys_present by done. split; [by right|].
    by intros [->|?].
  - rewrite od_set_keys_new by done. rewrite elem_of_app, list_elem_of_singleton.
    tauto.
Qed.

Lemma od_set_NoDup {V} k (v : V) d : NoDup d.*1 -> NoDup (od_set k v d).*1.
Proof.
  intros Hnd. destruct (decide (k ∈ d.*1)) as [Hin|Hnin].
  - by rewrite od_set_keys_present.
  - rewrite od_set_keys_new by done. apply NoDup_app. split; [done|].
    split; [|apply NoDup_singleton].
    intros x Hx ->%list_elem_of_singleton. done.
Qed.

Lemma od_fromkeys_spec {V} (init : V) keys :
  NoDup (od_fromkeys init keys).*1
  /\ forall k, k ∈ (od_fromkeys init keys).*1 <-> k ∈ keys.
Proof.
  unfold od_fromkeys.
  assert (Hgen : forall d : odict V, NoDup d.*1 ->
    NoDup (fold_left (fun d k => od_set k init d) keys d).*1
    /\ forall k, k ∈ (fold_left (fun d k => od_set k init d) keys d).*1
                 <-> k ∈ d.*1 \/ k ∈ keys).
  { induction keys as [|k0 keys IH]; intros d Hd; simpl.
    - split; [done|]. intros k. rewrite elem_of_nil. tauto.
    - destruct (IH (od_set k0 init d) (od_set_NoDup _ _ _ Hd)) as [Hnd Hk].
      split; [done|]. intros k. rewrite Hk, od_set_keys_elem, elem_of_cons. tauto. }
  destruct (Hgen [] (NoDup_nil_2)) as [Hnd Hk]. split; [done|].
  intros k. rewrite Hk. simpl. rewrite elem_of_nil. tauto.
Qed.

(** ** The thread mappings the loops work on *)

Lemma assoc_init_data thr msgs :
  assoc thr (init_data msgs)
  = (fun _ => od_fromkeys Unset
       (fst <$> List.filter (fun r : row => bool_decide (r.2 = thr)) msgs))
    <$> assoc thr (od_fromkeys () (snd <$> msgs)).
Proof.
  unfold init_data. generalize (od_fromkeys () (snd <$> msgs)).
  intros d. induction d as [|[k' v'] d IH]; simpl; [done|].
  destruct (decide (thr = k')) as [->|Hne]; [done|apply IH].
Qed.

Lemma init_data_shaped msgs : shaped msgs (init_data msgs).
Proof.
  intros thr. rewrite assoc_init_data.
  destruct (od_fromkeys_spec () (snd <$> msgs)) as [_ Hkeys].
  destruct (assoc thr (od_fromkeys () (snd <$> msgs))) eqn:E; simpl.
  - destruct (od_fromkeys_spec Unset
      (fst <$> List.filter (fun r : row => bool_decide (r.2 = thr)) msgs))
      as [Hnd Hk].
    split; [done|]. intros m. rewrite Hk, list_elem_of_fmap. split.
    + intros ([m' thr'] & -> & Hin). apply list_elem_of_In, filter_In in Hin as [Hin Hb].
      apply bool_decide_eq_true in Hb. simpl in Hb. subst thr'.
      by apply list_elem_of_In.
    + intros Hin. exists (m, thr). split; [done|].
      apply list_elem_of_In, filter_In. split; [by apply list_elem_of_In|].
      by apply bool_decide_eq_true.
  - intros m Hin. apply assoc_None in E. apply E, Hkeys.
    apply list_elem_of_fmap. by exists (m, thr).
Qed.

Lemma set_member_assoc data thr m e data' :
  set_member data thr m e = Ok data' ->
  exists t, assoc thr data = Some t
    /\ assoc thr data' = Some (od_set m e t)
    /\ forall thr', thr' <> thr -> assoc thr' data' = assoc thr' data.
Proof.
  unfold set_member, od_get.
  destruct (assoc thr data) as [t|]; [|discriminate]. cbn [bind].
  intros [= <-]. exists t. split; [done|]. split.
  - apply assoc_od_set_eq.
  - intros thr' Hne. by apply assoc_od_set_ne.
Qed.

Lemma set_member_entry data thr m e data' :
  set_member data thr m e = Ok data' ->
  entry_at data' thr m = Some e
  /\ forall thr' m', (thr', m') <> (thr, m) ->
       entry_at data' thr' m' = entry_at data thr' m'.
Proof.
  intros (t & Ht & Ht' & Hother)%set_member_assoc. unfold entry_at. split.
  - rewrite Ht'. apply assoc_od_set_eq.
  - intros thr' m' Hne. destruct (decide (thr' = thr)) as [->|Hthr].
    + rewrite Ht, Ht'. apply assoc_od_set_ne. congruence.
    + by rewrite Hother.
Qed.

Lemma set_member_shaped msgs data thr m e data' :
  shaped msgs data -> (m, thr) ∈ msgs ->
  set_member data thr m e = Ok data' -> shaped msgs data'.
Proof.
  intros Hsh Hrow (t & Ht & Ht' & Hother)%set_member_assoc thr'.
  destruct (decide (thr' = thr)) as [->|Hne].
  - rewrite Ht'. specialize (Hsh thr). rewrite Ht in Hsh. destruct Hsh as [Hnd Hk].
    rewrite od_set_keys_present by (by apply Hk). done.
  - rewrite Hother by done. apply Hsh.
Qed.

(** A listed row has its thread's mapping, so storing its entry succeeds. *)
Lemma set_member_ok msgs data thr m e :
  shaped msgs data -> (m, thr) ∈ msgs ->
  exists data', set_member data thr m e = Ok data'.
Proof.
  intros Hsh Hrow. unfold set_member, od_get. specialize (Hsh thr).
  destruct (assoc thr data) as [t|]; [by eexists|]. by destruct (Hsh m).
Qed.

Lemma od_set_elem {V} k (v : V) d k' v' :
  (k', v') ∈ od_set k v d -> (k', v') = (k, v) \/ (k', v') ∈ d.
Proof.
  induction d as [|[k0 v0] d IH]; simpl.
  - intros ->%list_elem_of_singleton. by left.
  - destruct (decide (k = k0)) as [->|Hne].
    + intros [->|Hin]%elem_of_cons; [by left|right; by right].
    + intros [->|Hin]%elem_of_cons; [right; by left|].
      destruct (IH Hin) as [?|?]; [by left|right; by right].
Qed.

(** The first loop leaves a record under every key. *)
Lemma fetch_rows_filled `{Runtime} fetch tz_locale msgs rows data data' :
  (forall x, x ∈ rows -> x ∈ msgs) ->
  shaped msgs data ->
  fold_result (fetch_row fetch tz_locale) rows data = Ok data' ->
  shaped msgs data'
  /\ forall thr m, (m, thr) ∈ rows \/ is_rec (entry_at data thr m) ->
       is_rec (entry_at data' thr m).
Proof.
  revert data. induction rows as [|[m0 thr0] rows IH]; intros data Hsub Hsh; simpl.
  - intros [= <-]. split; [done|]. intros thr m [Hin|?]; [|done].
    by apply elem_of_nil in Hin.
  - unfold fetch_row at 1.
    destruct (fetch m0) as [msg|]; [|discriminate]. cbn [bind].
    destruct (make_record msg tz_locale) as [rec|]; [|discriminate]. cbn [bind].
    destruct (set_member data thr0 m0 (Rec rec)) as [data1|] eqn:Hset;
      [|discriminate]. cbn [bind].
    intros Hrest.
    assert (Hrow : (m0, thr0) ∈ msgs) by (apply Hsub; by left).
    destruct (IH data1 (fun x Hx => Hsub x (list_elem_of_further _ _ _ Hx))
                (set_member_shaped _ _ _ _ _ _ Hsh Hrow Hset) Hrest)
      as [Hsh' Hrec].
    split; [done|]. intros thr m Hcase. apply Hrec.
    destruct (set_member_entry _ _ _ _ _ Hset) as [Hnew Hold].
    destruct (decide ((thr, m) = (thr0, m0))) as [[= -> ->]|Hne].
    + right. by exists rec.
    + destruct Hcase as [[[= -> ->]|Hin]%elem_of_cons|Hwas]; [done|by left|].
      right. by rewrite Hold.
Qed.

Lemma fetch_all_filled `{Runtime} fetch tz_locale msgs data :
  fetch_all fetch tz_locale msgs (init_data msgs) = Ok data ->
  filled msgs data.
Proof.
  intros Hrun.
  destruct (fetch_rows_filled fetch tz_locale msgs msgs _ _ (fun _ Hx => Hx)
              (init_data_shaped msgs) Hrun) as [Hsh Hrec].
  split; [done|]. intros thr t Ht m e Hin.
  specialize (Hsh thr). rewrite Ht in Hsh. destruct Hsh as [Hnd Hk].
  assert (Hrow : (m, thr) ∈ msgs).
  { apply Hk, list_elem_of_fmap. by exists (m, e). }
  destruct (Hrec thr m (or_introl Hrow)) as [r Hr].
  unfold entry_at in Hr. rewrite Ht in Hr.
  rewrite (assoc_elem m e t Hnd Hin) in Hr. exists r. congruence.
Qed.

(** ** The thread topic *)

Lemma NoDup_all_eq {A} (l : list A) (a : A) :
  NoDup l -> (forall x, x ∈ l -> x = a) -> l = [] \/ l = [a].
Proof.
  intros Hnd Hall. destruct l as [|x [|y l]]; [by left| |].
  - right. f_equal. apply Hall. by left.
  - exfalso. apply NoDup_cons in Hnd as [Hx _]. apply Hx.
    rewrite (Hall x) by (by left). rewrite (Hall y) by (right; by left). by left.
Qed.

Lemma remove_first_spec (a : option str) l :
  NoDup l ->
  NoDup (remove_first a l)
  /\ forall x, x ∈ remove_first a l <-> x ∈ l /\ x <> a.
Proof.
  unfold remove_first. induction l as [|y l IH]; intros Hnd.
  - split; [done|]. intros x. rewrite elem_of_nil. tauto.
  - apply NoDup_cons in Hnd as [Hy Hnd]. destruct (decide (a = y)) as [->|Hne].
    + split; [done|]. intros x. rewrite elem_of_cons. split.
      * intros Hx. split; [by right|]. by intros ->.
      * by intros [[->|?] ?].
    + destruct (IH Hnd) as [Hnd' Hel]. split.
      * apply NoDup_cons. split; [|done]. rewrite Hel. tauto.
      * intros x. rewrite !elem_of_cons, Hel. split.
        -- intros [->|[? ?]]; [by split; [left|]|by split; [right|]].
        -- intros [[->|?] ?]; [by left|by right].
Qed.

(** When every member's topic is either absent or [T], and [T] occurs or
    is the empty string, the topic chosen for the thread is [T]. *)
Lemma choose_topic_uniform topics T :
  (forall x, x ∈ topics -> x = None \/ x = Some T) ->
  (Some T ∈ topics \/ T = []) ->
  choose_topic topics = Some T.
Proof.
  intros Hall Hsome. unfold choose_topic.
  set (l := elements (list_to_set topics : gset (option str))).
  assert (Hnd : NoDup l) by apply NoDup_elements.
  assert (Hel : forall x, x ∈ l <-> x ∈ topics).
  { intros x. unfold l. by rewrite elem_of_elements, elem_of_list_to_set. }
  set (l' := if bool_decide (None ∈ l) then remove_first None l else l).
  assert (Hl' : NoDup l' /\ forall x, x ∈ l' <-> x ∈ l /\ x <> None).
  { unfold l'. destruct (bool_decide (None ∈ l)) eqn:E.
    - by apply remove_first_spec.
    - apply bool_decide_eq_false in E. split; [done|]. intros x. split.
      + intros Hx. split; [done|]. by intros ->.
      + by intros [? _]. }
  destruct Hl' as [Hnd' Hel'].
  assert (Hsame : forall x, x ∈ l' -> x = Some T).
  { intros x [Hx Hne]%Hel'. by destruct (Hall x (proj1 (Hel x) Hx)). }
  destruct (NoDup_all_eq l' (Some T) Hnd' Hsame) as [E|E]; rewrite E; [|done].
  destruct Hsome as [Hin| ->]; [|done]. exfalso.
  assert (Some T ∈ l') as Hin' by (apply Hel'; by rewrite Hel).
  rewrite E in Hin'. by apply elem_of_nil in Hin'.
Qed.

(** The topics of a thread whose items are all records. *)
Lemma thread_topics (t : thread) :
  (forall m e, (m, e) ∈ t -> exists r, e = Rec r) ->
  exists topics,
    map_result entry_topic (snd <$> t) = Ok topics
    /\ forall x, x ∈ topics <->
         exists m r, (m, Rec r) ∈ t /\ rec_thread_topic r = x.
Proof.
  induction t as [|[m e] t IH]; intros Hrec.
  - exists []. split; [done|]. intros x. rewrite elem_of_nil. split; [done|].
    intros (? & ? & Hin & _). by apply elem_of_nil in Hin.
  - destruct (Hrec m e ltac:(by left)) as [r ->].
    destruct IH as (topics & Heq & Hel).
    { intros m' e' Hin. apply (Hrec m' e'). by right. }
    rewrite fmap_cons. cbn [map_result entry_topic snd bind]. rewrite Heq.
    cbn [bind]. eexists. split; [done|].
    intros x. rewrite elem_of_cons, Hel. split.
    + intros [->|(m' & r' & Hin & Hx)].
      * exists m, r. split; [by left|done].
      * exists m', r'. split; [by right|done].
    + intros (m' & r' & [[= -> ->]|Hin]%elem_of_cons & Hx).
      * by left.
      * right. by exists m', r'.
Qed.

(** One step of the second loop on a listed row: it succeeds, stores under
    the row's key a record with the row's own topic or else the chosen one,
    and leaves every other item alone. *)
Lemma topic_row_step msgs data m thr :
  filled msgs data -> (m, thr) ∈ msgs ->
  exists data' t r r' topics,
    assoc thr data = Some t
    /\ assoc m t = Some (Rec r)
    /\ (forall x, x ∈ topics <->
          exists m' r0, (m', Rec r0) ∈ t /\ rec_thread_topic r0 = x)
    /\ topic_row data (m, thr) = Ok data'
    /\ assoc thr data' = Some (od_set m (Rec r') t)
    /\ (forall thr', thr' <> thr -> assoc thr' data' = assoc thr' data)
    /\ rec_thread_topic r'
       = match rec_thread_topic r with
         | None => choose_topic topics
         | Some own => Some own
         end
    /\ filled msgs data'.
Proof.
  intros [Hsh Hrec] Hrow.
  pose proof (Hsh thr) as Hthr. destruct (assoc thr data) as [t|] eqn:Ht;
    [|by destruct (Hthr m)].
  destruct Hthr as [Hnd Hk].
  destruct (thread_topics t (Hrec thr t Ht)) as (topics & Htopics & Hel).
  assert (Hm : exists r, assoc m t = Some (Rec r)).
  { destruct (assoc m t) as [e|] eqn:Hm.
    - destruct (Hrec thr t Ht m e (assoc_Some_elem _ _ _ Hm)) as [r ->]. by exists r.
    - apply assoc_None in Hm. by destruct (Hm (proj2 (Hk m) Hrow)). }
  destruct Hm as [r Hm].
  unfold topic_row, member, od_get. rewrite Ht. cbn [bind]. rewrite Htopics.
  cbn [bind]. rewrite Hm. cbn [bind].
  match goal with
  | |- context [set_member data thr m (Rec ?x)] => set (r' := x)
  end.
  destruct (set_member_ok msgs data thr m (Rec r') Hsh Hrow) as [data' Hset].
  destruct (set_member_assoc _ _ _ _ _ Hset) as (t0 & Ht0 & Ht' & Hother).
  assert (t0 = t) as -> by congruence.
  exists data', t, r, r', topics.
  split; [done|]. split; [done|]. split; [exact Hel|].
  split; [exact Hset|]. split; [exact Ht'|]. split; [exact Hother|].
  split; [reflexivity|]. split.
  - by eapply set_member_shaped.
  - intros thr' t' Hget m' e' Hin. destruct (decide (thr' = thr)) as [->|Hne].
    + rewrite Ht' in Hget. injection Hget as <-.
      apply od_set_elem in Hin as [[= -> ->]|Hin]; [by eexists|].
      by apply (Hrec thr t Ht m' e').
    + rewrite Hother in Hget by done. by apply (Hrec thr' t' Hget m' e').
Qed.

Lemma od_set_elem_new {V} k (v : V) d : (k, v) ∈ od_set k v d.
Proof.
  induction d as [|[k0 v0] d IH]; simpl; [by left|].
  destruct (decide (k = k0)); [by left|by right].
Qed.

Lemma member_entry data thr m r :
  member data thr m = Ok r <-> entry_at data thr m = Some (Rec r).
Proof.
  unfold member, entry_at, od_get.
  destruct (assoc thr data) as [t|]; cbn [bind]; [|done].
  destruct (assoc m t) as [[|r0|]|]; cbn [bind]; try done.
  split; congruence.
Qed.

(** The second loop over any listed rows: it succeeds and keeps every
    thread's mapping; in a thread that [T] settles, every row it visits ends
    with topic [T], and keeps it. *)
Lemma topic_rows_spec msgs rows data :
  (forall x, x ∈ rows -> x ∈ msgs) ->
  filled msgs data ->
  exists data',
    fold_result topic_row rows data = Ok data'
    /\ filled msgs data'
    /\ forall thr t, assoc thr data = Some t ->
         exists t', assoc thr data' = Some t'
           /\ forall T, settles T t ->
                settles T t'
                /\ forall m, (m, thr) ∈ rows \/ has_topic data thr m T ->
                     has_topic data' thr m T.
Proof.
  revert data. induction rows as [|[m0 thr0] rows IH]; intros data Hsub Hfilled.
  - exists data. split; [done|]. split; [done|]. intros thr t Ht.
    exists t. split; [done|]. intros T Hset. split; [done|].
    intros m [Hin|?]; [|done]. by apply elem_of_nil in Hin.
  - assert (Hrow : (m0, thr0) ∈ msgs) by (apply Hsub; by left).
    destruct (topic_row_step msgs data m0 thr0 Hfilled Hrow)
      as (data1 & t & r & r' & topics & Ht & Hm & Htopics & Hrun & Ht1 & Hother
          & Htopic & Hfilled1).
    destruct (IH data1 (fun x Hx => Hsub x (list_elem_of_further _ _ _ Hx)) Hfilled1)
      as (data' & Hrest & Hfilled' & Hspec).
    exists data'. split; [by cbn [fold_result]; rewrite Hrun|]. split; [done|].
    intros thr t0 Ht0.
    assert (Hstep : exists t1, assoc thr data1 = Some t1
              /\ forall T, settles T t0 ->
                   settles T t1
                   /\ forall m, (m, thr) = (m0, thr0) \/ has_topic data thr m T ->
                        has_topic data1 thr m T).
    { destruct (decide (thr = thr0)) as [->|Hne].
      - assert (t0 = t) as -> by congruence.
        exists (od_set m0 (Rec r') t). split; [done|]. intros T [Hall Hsome].
        assert (Hr' : rec_thread_topic r' = Some T).
        { rewrite Htopic. destruct (rec_thread_topic r) as [own|] eqn:Hown.
          - destruct (Hall m0 r (assoc_Some_elem _ _ _ Hm)); congruence.
          - apply choose_topic_uniform.
            + intros x (m' & r0 & Hin & <-)%Htopics. by apply (Hall m' r0).
            + destruct Hsome as [(m' & r0 & Hin & Hx)|?]; [left|by right].
              apply Htopics. by exists m', r0. }
        split; [split|].
        + intros m r1 [[= -> ->]|Hin]%od_set_elem; [by right|by apply (Hall m r1)].
        + left. exists m0, r'. split; [apply od_set_elem_new|done].
        + intros m Hcase. unfold has_topic, entry_at. rewrite Ht1.
          destruct (decide (m = m0)) as [->|Hm0].
          * exists r'. by rewrite assoc_od_set_eq.
          * destruct Hcase as [[= ?]|(r1 & Hr1 & Htop)]; [done|].
            exists r1. rewrite assoc_od_set_ne by done. split; [|done].
            unfold entry_at in Hr1. by rewrite Ht in Hr1.
      - exists t0. split; [by rewrite Hother|]. intros T Hset. split; [done|].
        intros m [[= ? ?]|(r1 & Hr1 & Htop)]; [done|].
        exists r1. split; [|done]. unfold entry_at in *. by rewrite Hother. }
    destruct Hstep as (t1 & Hget1 & Hkeep).
    destruct (Hspec thr t1 Hget1) as (t' & Hget' & Hfinal).
    exists t'. split; [done|]. intros T Hset.
    destruct (Hkeep T Hset) as [Hset1 Hhas1].
    destruct (Hfinal T Hset1) as [Hset' Hhas'].
    split; [done|]. intros m Hcase. apply Hhas'.
    destruct Hcase as [[Heq|Hin]%elem_of_cons|Hwas].
    + right. apply Hhas1. by left.
    + by left.
    + right. apply Hhas1. by right.
Qed.

(** C6: once every listed message is fetched, the second loop succeeds and
    the mapping of a thread keeps the message ids listed for it.  In a
    thread where one record carries thread topic [T] and all others none,
    [data[thr][m]] of every listed row [(m, thr)] ends as a record with
    topic [T]; in a thread where no record carries a topic, it ends as a
    record with the empty string; and the mapping holds nothing else. *)
Theorem thread_topic_propagation `{Runtime} (fetch : str -> result message)
    (tz_locale : str) (msgs : list row) (data0 : threads) (thr : str)
    (t0 : thread) :
  fetch_all fetch tz_locale msgs (init_data msgs) = Ok data0 ->
  od_get thr data0 = Ok t0 ->
  exists data1 t1,
    topic_all msgs data0 = Ok data1
    /\ od_get thr data1 = Ok t1
    /\ (forall m, (m, thr) ∈ msgs <-> m ∈ t0.*1)
    /\ (forall m, (m, thr) ∈ msgs <-> m ∈ t1.*1)
    /\ (forall T m0 r0,
          (m0, Rec r0) ∈ t0 -> rec_thread_topic r0 = Some T ->
          (forall m r, (m, Rec r) ∈ t0 -> m <> m0 -> rec_thread_topic r = None) ->
          (forall m, (m, thr) ∈ msgs ->
             exists r, member data1 thr m = Ok r
                       /\ rec_thread_topic r = Some T)
          /\ forall m e, (m, e) ∈ t1 ->
               exists r, e = Rec r /\ rec_thread_topic r = Some T)
    /\ ((forall m r, (m, Rec r) ∈ t0 -> rec_thread_topic r = None) ->
        (forall m, (m, thr) ∈ msgs ->
           exists r, member data1 thr m = Ok r
                     /\ rec_thread_topic r = Some [])
        /\ forall m e, (m, e) ∈ t1 ->
             exists r, e = Rec r /\ rec_thread_topic r = Some []).
Proof.
  intros Hfetch Hget. apply fetch_all_filled in Hfetch as Hfilled.
  unfold od_get in Hget. destruct (assoc thr data0) as [t|] eqn:Ht; [|discriminate].
  injection Hget as ->.
  destruct (topic_rows_spec msgs msgs data0 (fun _ Hx => Hx) Hfilled)
    as (data1 & Hrun & [Hsh1 Hrec1] & Hspec).
  destruct (Hspec thr t0 Ht) as (t1 & Ht1 & Hfinal).
  destruct Hfilled as [Hsh0 _]. pose proof (Hsh0 thr) as Hshape0.
  rewrite Ht in Hshape0. destruct Hshape0 as [Hnd0 Hk0].
  pose proof (Hsh1 thr) as Hshape1. rewrite Ht1 in Hshape1.
  destruct Hshape1 as [Hnd1 Hk1].
  exists data1, t1. split; [exact Hrun|]. split; [unfold od_get; by rewrite Ht1|].
  split; [intros m; by rewrite Hk0|]. split; [intros m; by rewrite Hk1|].
  assert (Hall : forall T, settles T t0 ->
            (forall m, (m, thr) ∈ msgs ->
               exists r, member data1 thr m = Ok r
                         /\ rec_thread_topic r = Some T)
            /\ forall m e, (m, e) ∈ t1 ->
                 exists r, e = Rec r /\ rec_thread_topic r = Some T).
  { intros T Hset. destruct (Hfinal T Hset) as [_ Hhas]. split.
    - intros m Hrow. destruct (Hhas m (or_introl Hrow)) as (r & Hr & Htop).
      exists r. by rewrite member_entry.
    - intros m e Hin.
      assert (Hrow : (m, thr) ∈ msgs).
      { apply Hk1, list_elem_of_fmap. by exists (m, e). }
      destruct (Hhas m (or_introl Hrow)) as (r & Hr & Htop).
      unfold entry_at in Hr. rewrite Ht1, (assoc_elem m e t1 Hnd1 Hin) in Hr.
      exists r. split; [congruence|done]. }
  split.
  - intros T m0 r0 Hin0 Htop0 Hothers. apply Hall. split.
    + intros m r Hin. destruct (decide (m = m0)) as [->|Hne].
      * right. pose proof (assoc_elem _ _ _ Hnd0 Hin) as H1.
        pose proof (assoc_elem _ _ _ Hnd0 Hin0) as H2. congruence.
      * left. by apply (Hothers m r).
    + left. by exists m0, r0.
  - intros Hnone. apply Hall. split; [|by right].
    intros m r Hin. left. by apply (Hnone m r).
Qed.

Lemma thread_topic_propagation_witness :
  exists data1 r2 r1 r3,
    topic_all sample_rows sample_data = Ok data1
    /\ member data1 (py "t1") (py "m2") = Ok r2
    /\ rec_thread_topic r2 = Some (py "Hello")
    /\ member data1 (py "t1") (py "m1") = Ok r1
    /\ rec_thread_topic r1 = Some (py "Hello")
    /\ member data1 (py "t2") (py "m3") = Ok r3
    /\ rec_thread_topic r3 = Some [].
Proof.
  assert (Hfetch : @fetch_all Reference.reference sample_fetch (py "UTC")
                     sample_rows (init_data sample_rows) = Ok sample_data)
    by (vm_compute; reflexivity).
  destruct (@thread_topic_propagation Reference.reference sample_fetch (py "UTC")
              sample_rows sample_data (py "t1")
              [(py "m2", Rec sample_reply_built); (py "m1", Rec sample_built)]
              Hfetch eq_refl)
    as (data1 & t1 & Hrun & _ & _ & _ & Hone & _).
  destruct (@thread_topic_propagation Reference.reference sample_fetch (py "UTC")
              sample_rows sample_data (py "t2") [(py "m3", Rec sample_built)]
              Hfetch eq_refl)
    as (data1' & t2 & Hrun' & _ & _ & _ & _ & Hnone).
  assert (data1' = data1) as -> by congruence.
  destruct (Hone (py "Hello") (py "m2") sample_reply_built) as [Hrows1 _].
  { by left. }
  { reflexivity. }
  { intros m r [[= -> ->]|[[= -> ->]|Hin]%elem_of_cons]%elem_of_cons Hne;
      [done|done|by apply elem_of_nil in Hin]. }
  destruct Hnone as [Hrows2 _].
  { intros m r [[= -> ->]|Hin]%elem_of_cons; [done|by apply elem_of_nil in Hin]. }
  destruct (Hrows1 (py "m2")) as (r2 & Hr2 & Ht2); [by repeat constructor|].
  destruct (Hrows1 (py "m1")) as (r1 & Hr1 & Ht1); [by repeat constructor|].
  destruct (Hrows2 (py "m3")) as (r3 & Hr3 & Ht3); [by repeat constructor|].
  exists data1, r2, r1, r3.
  split; [exact Hrun|]. split; [exact Hr2|]. split; [exact Ht2|].
  split; [exact Hr1|]. split; [exact Ht1|]. split; [exact Hr3|exact Ht3].
Defined.

(** ** What the run writes *)

Lemma fold_result_invariant {A S} (f : S -> A -> result S) (P : S -> Prop) l :
  (forall s x s', P s -> f s x = Ok s' -> P s') ->
  forall s s', P s -> fold_result f l s = Ok s' -> P s'.
Proof.
  intros Hstep. induction l as [|x l IH]; intros s s' Hs; simpl.
  - by intros [= <-].
  - destruct (f s x) as [s1|] eqn:Hf; [|discriminate]. cbn [bind].
    apply IH. by eapply Hstep.
Qed.

Lemma set_member_coherent data thr m r data' :
  coherent data ->
  (forall text, rec_full_text r = Some text -> text = full_text r) ->
  set_member data thr m (Rec r) = Ok data' -> coherent data'.
Proof.
  intros Hco Hr. unfold set_member, od_get.
  destruct (assoc thr data) as [t|] eqn:Ht; [|discriminate]. cbn [bind].
  intros [= <-] thr' t' m' r' text [[= -> ->]|Hin]%od_set_elem.
  - intros [[= -> ->]|Hin]%od_set_elem; [apply Hr|].
    apply (Hco thr t m' r'); [by apply assoc_Some_elem|done].
  - by apply (Hco thr' t' m' r').
Qed.

Lemma od_fromkeys_values {V} (init : V) keys k v :
  (k, v) ∈ od_fromkeys init keys -> v = init.
Proof.
  unfold od_fromkeys.
  assert (Hgen : forall (d : odict V),
            (forall k v, (k, v) ∈ d -> v = init) ->
            (k, v) ∈ fold_left (fun d k => od_set k init d) keys d -> v = init).
  { induction keys as [|k0 keys IH]; intros d Hd; simpl; [apply Hd|].
    apply IH. intros k' v' [[= -> ->]|Hin]%od_set_elem; [done|by apply (Hd k')]. }
  apply Hgen. intros k' v' Hnil. by apply elem_of_nil in Hnil.
Qed.

Lemma init_data_coherent msgs : coherent (init_data msgs).
Proof.
  intros thr t m r text Hin Hrec. exfalso. unfold init_data in Hin.
  apply list_elem_of_fmap in Hin as ([thr' u] & [= -> ->] & _).
  by apply od_fromkeys_values in Hrec.
Qed.

Lemma fetch_all_coherent `{Runtime} fetch tz_locale msgs data :
  fetch_all fetch tz_locale msgs (init_data msgs) = Ok data -> coherent data.
Proof.
  apply (fold_result_invariant _ coherent); [|apply init_data_coherent].
  intros s [m thr] s' Hs. unfold fetch_row.
  destruct (fetch m) as [msg|]; [|discriminate]. cbn [bind].
  destruct (make_record msg tz_locale) as [rec|] eqn:Hmake; [|discriminate].
  cbn [bind]. apply set_member_coherent; [done|].
  unfold make_record in Hmake.
  repeat match type of Hmake with
         | bind ?m _ = Ok _ => destruct m; [cbn [bind] in Hmake|discriminate]
         end.
  injection Hmake as <-. discriminate.
Qed.

Lemma topic_all_coherent msgs data data' :
  coherent data -> topic_all msgs data = Ok data' -> coherent data'.
Proof.
  intros Hco. apply (fold_result_invariant _ coherent); [|done].
  intros s [m thr] s' Hs. unfold topic_row.
  destruct (od_get thr s); [|discriminate]. cbn [bind].
  destruct (map_result entry_topic _); [|discriminate]. cbn [bind].
  destruct (member s thr m); [|discriminate]. cbn [bind].
  apply set_member_coherent; [done|]. by intros text [= <-].
Qed.

(** The loop over threads stores strings only: a record of a thread was
    there before. *)
Lemma set_first_records `{Runtime} t t' m r :
  set_first t = Ok t' -> (m, Rec r) ∈ t' -> (m, Rec r) ∈ t.
Proof.
  unfold set_first. destruct (last (fst <$> t)) as [k|]; [|discriminate].
  destruct (od_get k t) as [[|first|]|]; try discriminate. cbn [bind].
  destruct (date_parse (rec_date first)); [|discriminate]. cbn [bind].
  intros [= <-] [[= ]|[[= ]|Hin]%od_set_elem]%od_set_elem. done.
Qed.

(** *** From the listing to a file *)

Lemma init_data_unset msgs thr m e :
  entry_at (init_data msgs) thr m = Some e -> e = Unset.
Proof.
  unfold entry_at. rewrite assoc_init_data.
  destruct (assoc thr (od_fromkeys () (snd <$> msgs))); cbn; [|done].
  intros Hin%assoc_Some_elem. by apply od_fromkeys_values in Hin.
Qed.

Lemma fetch_all_fetched `{Runtime} fetch tz_locale msgs data thr m r :
  fetch_all fetch tz_locale msgs (init_data msgs) = Ok data ->
  entry_at data thr m = Some (Rec r) ->
  fetched fetch tz_locale m r.
Proof.
  intros Hrun. revert thr m r.
  apply (fold_result_invariant (fetch_row fetch tz_locale)
           (fun data => forall thr m r,
              entry_at data thr m = Some (Rec r) -> fetched fetch tz_locale m r)
           msgs) with (s := init_data msgs); [| |exact Hrun].
  - intros s [m0 thr0] s' Hs. unfold fetch_row.
    destruct (fetch m0) as [msg|] eqn:Hfetch; [|discriminate]. cbn [bind].
    destruct (make_record msg tz_locale) as [rec|] eqn:Hmake; [|discriminate].
    cbn [bind]. intros Hset thr m r.
    destruct (set_member_entry _ _ _ _ _ Hset) as [Hnew Hold].
    destruct (decide ((thr, m) = (thr0, m0))) as [[= -> ->]|Hne].
    + rewrite Hnew. intros [= <-]. by exists msg.
    + rewrite Hold by done. apply Hs.
  - intros thr m r Hin. by apply init_data_unset in Hin.
Qed.

Lemma filled_entry msgs data thr m :
  filled msgs data -> (m, thr) ∈ msgs ->
  exists r, entry_at data thr m = Some (Rec r).
Proof.
  intros [Hsh Hrec] Hrow. unfold entry_at. specialize (Hsh thr).
  destruct (assoc thr data) as [t|] eqn:Ht; [|by destruct (Hsh m)].
  destruct Hsh as [Hnd Hk].
  assert (Hm : m ∈ t.*1) by (by apply Hk).
  apply list_elem_of_fmap in Hm as ([m' e] & -> & Hin).
  destruct (Hrec thr t Ht _ _ Hin) as [r ->]. exists r.
  by apply assoc_elem.
Qed.

Lemma same_mail_refl r : same_mail r r.
Proof. by repeat split. Qed.

Lemma same_mail_trans r1 r2 r3 :
  same_mail r1 r2 -> same_mail r2 r3 -> same_mail r1 r3.
Proof.
  intros (? & ? & ? & ? & ? & ? & H12) (? & ? & ? & ? & ? & ? & H23).
  repeat split; try congruence. intros T HT. by apply H23, H12.
Qed.

Lemma topic_row_same_mail data row data' thr m r :
  topic_row data row = Ok data' ->
  member data thr m = Ok r ->
  exists r', member data' thr m = Ok r' /\ same_mail r r'.
Proof.
  destruct row as [m0 thr0]. unfold topic_row.
  destruct (od_get thr0 data) as [t|]; [|discriminate]. cbn [bind].
  destruct (map_result entry_topic _) as [topics|]; [|discriminate]. cbn [bind].
  destruct (member data thr0 m0) as [rec|] eqn:Hrec; [|discriminate]. cbn [bind].
  intros Hset Hr.
  destruct (set_member_entry _ _ _ _ _ Hset) as [Hnew Hold].
  destruct (decide ((thr, m) = (thr0, m0))) as [[= -> ->]|Hne].
  - eexists. split; [by apply member_entry|].
    rewrite Hrec in Hr. injection Hr as ->.
    repeat split; try done. cbn. by intros T ->.
  - exists r. split; [|apply same_mail_refl].
    apply member_entry. rewrite Hold by done. by apply member_entry.
Qed.

Lemma topic_rows_same_mail rows : forall data data' thr m r,
  fold_result topic_row rows data = Ok data' ->
  member data thr m = Ok r ->
  exists r', member data' thr m = Ok r' /\ same_mail r r'.
Proof.
  induction rows as [|row rows IH]; intros data data' thr m r; cbn [fold_result].
  - intros [= <-] Hr. exists r. split; [done|apply same_mail_refl].
  - destruct (topic_row data row) as [data1|] eqn:Hstep; [|discriminate].
    cbn [bind]. intros Hrest Hr.
    destruct (topic_row_same_mail _ _ _ _ _ _ Hstep Hr) as (r1 & Hr1 & H1).
    destruct (IH _ _ _ _ _ Hrest Hr1) as (r2 & Hr2 & H2).
    exists r2. split; [done|by eapply same_mail_trans].
Qed.

Lemma map_result_length {A B} (f : A -> result B) l : forall l',
  map_result f l = Ok l' -> length l' = length l.
Proof.
  induction l as [|x l IH]; intros l'; cbn [map_result].
  - by intros [= <-].
  - destruct (f x); [|discriminate]. cbn [bind].
    destruct (map_result f l) as [ys|]; [|discriminate]. cbn [bind].
    intros [= <-]. cbn. f_equal. by apply IH.
Qed.

Lemma map_result_lookup {A B} (f : A -> result B) l : forall l' i x y,
  map_result f l = Ok l' -> l !! i = Some x -> l' !! i = Some y -> f x = Ok y.
Proof.
  induction l as [|x0 l IH]; intros l' i x y; cbn [map_result]; [done|].
  destruct (f x0) as [y0|] eqn:Hf; [|discriminate]. cbn [bind].
  destruct (map_result f l) as [ys|]; [|discriminate]. cbn [bind].
  intros [= <-]. destruct i as [|i]; cbn.
  - by intros [= <-] [= <-].
  - by apply IH.
Qed.

Lemma first_all_assoc `{Runtime} data : forall data' thr t',
  first_all data = Ok data' -> assoc thr data' = Some t' ->
  exists t, assoc thr data = Some t /\ set_first t = Ok t'.
Proof.
  unfold first_all.
  induction data as [|[k t] data IH]; intros data' thr t'; cbn [map_result].
  - by intros [= <-].
  - cbn [fst snd]. destruct (set_first t) as [t1|] eqn:Hfirst; [|discriminate].
    cbn [bind].
    destruct (map_result _ data) as [rest|]; [|discriminate]. cbn [bind].
    intros [= <-]. cbn [assoc].
    destruct (decide (thr = k)) as [->|Hne].
    + intros [= <-]. by exists t.
    + by apply IH.
Qed.

Lemma topic_all_filled msgs data data' :
  filled msgs data -> topic_all msgs data = Ok data' -> filled msgs data'.
Proof.
  intros Hfilled Hrun.
  destruct (topic_rows_spec msgs msgs data (fun _ Hx => Hx) Hfilled)
    as (data1 & Hrun1 & Hfilled1 & _).
  unfold topic_all in Hrun. rewrite Hrun in Hrun1. by injection Hrun1 as ->.
Qed.

(** A file written for a listed message, traced back through the loops: to
    the record the second loop left under its row, and to the message
    fetched for it. *)
Lemma write_row_source `{Runtime} fetch tz_locale msgs data0 data1 data2 m thr w :
  fetch_all fetch tz_locale msgs (init_data msgs) = Ok data0 ->
  topic_all msgs data0 = Ok data1 ->
  first_all data1 = Ok data2 ->
  (m, thr) ∈ msgs ->
  write_row data2 (m, thr) = Ok w ->
  exists msg r0 r dt,
    fetch m = Ok msg /\ make_record msg tz_locale = Ok r0
    /\ member data1 thr m = Ok r
    /\ same_mail r0 r
    /\ rec_full_text r = Some (w_content w)
    /\ w_content w = full_text r
    /\ date_parse (rec_date r0) = Ok dt
    /\ w_name w = datetime_str dt ++ py ".md".
Proof.
  intros Hfetch Htopic Hfirst Hrow Hwrite.
  pose proof (fetch_all_filled _ _ _ _ Hfetch) as Hfilled0.
  pose proof (topic_all_filled _ _ _ Hfilled0 Htopic) as [Hshaped1 _].
  assert (Hco1 : coherent data1).
  { eapply topic_all_coherent; [|exact Htopic]. by eapply fetch_all_coherent. }
  unfold write_row in Hwrite.
  destruct (od_get thr data2) as [t2|]; [|discriminate]. cbn [bind] in Hwrite.
  destruct (od_get (py "first_date") t2); [|discriminate]. cbn [bind] in Hwrite.
  destruct (od_get (py "first_subject") t2); [|discriminate]. cbn [bind] in Hwrite.
  destruct (mkdir _); [|discriminate]. cbn [bind] in Hwrite.
  destruct (member data2 thr m) as [r|] eqn:Hmember; [|discriminate].
  cbn [bind] in Hwrite.
  destruct (date_parse (rec_date r)) as [dt|] eqn:Hdate; [|discriminate].
  cbn [bind] in Hwrite.
  destruct (open _ _); [|discriminate]. cbn [bind] in Hwrite.
  destruct (rec_full_text r) as [text|] eqn:Htext; [|discriminate].
  destruct (write _ _ _); [|discriminate]. cbn [bind] in Hwrite.
  injection Hwrite as <-. cbn [w_content w_name].
  apply member_entry in Hmember. unfold entry_at in Hmember.
  destruct (assoc thr data2) as [t2'|] eqn:Ht2; [|discriminate].
  destruct (first_all_assoc _ _ _ _ Hfirst Ht2) as (t1 & Ht1 & Hset).
  assert (Hin1 : (m, Rec r) ∈ t1).
  { eapply set_first_records; [exact Hset|]. by apply assoc_Some_elem. }
  assert (Hm1 : member data1 thr m = Ok r).
  { apply member_entry. unfold entry_at. rewrite Ht1.
    specialize (Hshaped1 thr). rewrite Ht1 in Hshaped1.
    apply assoc_elem; [apply Hshaped1|done]. }
  destruct (filled_entry _ _ _ _ Hfilled0 Hrow) as [r0 Hr0].
  destruct (fetch_all_fetched _ _ _ _ _ _ _ Hfetch Hr0) as (msg & Hmsg & Hmake).
  apply member_entry in Hr0.
  destruct (topic_rows_same_mail _ _ _ _ _ _ Htopic Hr0) as (r' & Hr' & Hsame).
  rewrite Hm1 in Hr'. injection Hr' as <-.
  exists msg, r0, r, dt. repeat split; try apply Hsame; try done.
  - apply (Hco1 thr t1 m r); [by apply assoc_Some_elem|done|done].
  - destruct Hsame as (_ & _ & _ & _ & Hd & _). by rewrite <- Hd.
Qed.

Lemma write_row_trace `{Runtime} fetch tz_locale msgs data0 data1 data2 m thr w :
  fetch_all fetch tz_locale msgs (init_data msgs) = Ok data0 ->
  topic_all msgs data0 = Ok data1 ->
  first_all data1 = Ok data2 ->
  (m, thr) ∈ msgs ->
  write_row data2 (m, thr) = Ok w ->
  exists msg r0 r dt,
    fetch m = Ok msg /\ make_record msg tz_locale = Ok r0
    /\ same_mail r0 r
    /\ w_content w = full_text r
    /\ date_parse (rec_date r0) = Ok dt
    /\ w_name w = datetime_str dt ++ py ".md".
Proof.
  intros Hfetch Htopic Hfirst Hrow Hwrite.
  destruct (write_row_source _ _ _ _ _ _ _ _ _ Hfetch Htopic Hfirst Hrow Hwrite)
    as (msg & r0 & r & dt & ? & ? & ? & ? & ? & ? & ? & ?).
  by exists msg, r0, r, dt.
Qed.

Lemma query_stages `{Runtime} list_messages fetch today begin_date end_date
    label g_query tz_locale att_get max_size q msgs files :
  query list_messages fetch today begin_date end_date label g_query tz_locale
    att_get max_size = Ok files ->
  build_query today begin_date end_date label g_query att_get max_size = Ok q ->
  list_messages q = Ok msgs ->
  exists data0 data1 data2,
    fetch_all fetch tz_locale msgs (init_data msgs) = Ok data0
    /\ topic_all msgs data0 = Ok data1
    /\ first_all data1 = Ok data2
    /\ write_all msgs data2 = Ok files.
Proof.
  unfold query. intros Hrun Hq Hlist. rewrite Hq in Hrun. cbn [bind] in Hrun.
  rewrite Hlist in Hrun. cbn [bind] in Hrun.
  destruct (fetch_all _ _ _ _) as [data0|] eqn:H0; [|discriminate].
  cbn [bind] in Hrun.
  destruct (topic_all msgs data0) as [data1|] eqn:H1; [|discriminate].
  cbn [bind] in Hrun.
  destruct (first_all data1) as [data2|] eqn:H2; [|discriminate].
  cbn [bind] in Hrun.
  by exists data0, data1, data2.
Qed.

(** ** The full text of a record *)

(** C9: the full text of a record whose header values each stay on one
    line is the six labeled lines From, To, CC, Subject, Thread Topic, Date,
    then two blank lines, then the body; and a run of [query] that succeeds
    writes one file per listed row, the file of row [(m, thr)] holding
    exactly the full text of [data[thr][m]] as the second loop left it, which
    is the record built from the message fetched for [m] with at most a
    thread topic added. *)
Theorem full_text_layout `{Runtime} (r : record) :
  single_line_headers r ->
  full_text r = header_block r ++ [LF; LF] ++ rec_body r
  /\ (forall list_messages fetch today begin_date end_date label g_query
             tz_locale att_get max_size q msgs files,
        build_query today begin_date end_date label g_query att_get max_size
        = Ok q ->
        list_messages q = Ok msgs ->
        query list_messages fetch today begin_date end_date label g_query
          tz_locale att_get max_size = Ok files ->
        length files = length msgs
        /\ forall i m thr w,
             msgs !! i = Some (m, thr) -> files !! i = Some w ->
             exists data0 data1 msg r0 r',
               fetch_all fetch tz_locale msgs (init_data msgs) = Ok data0
               /\ topic_all msgs data0 = Ok data1
               /\ member data1 thr m = Ok r'
               /\ fetch m = Ok msg /\ make_record msg tz_locale = Ok r0
               /\ same_mail r0 r'
               /\ rec_full_text r' = Some (w_content w)
               /\ w_content w = full_text r'
               /\ (single_line_headers r' ->
                   w_content w = header_block r' ++ [LF; LF] ++ rec_body r')).
Proof.
  intros Hr.
  assert (Hlayout : forall r0, single_line_headers r0 ->
            full_text r0 = header_block r0 ++ [LF; LF] ++ rec_body r0).
  { intros r0 Hr0. unfold full_text. by rewrite dedent_template. }
  split; [by apply Hlayout|].
  intros list_messages fetch today begin_date end_date label g_query tz_locale
    att_get max_size q msgs files Hq Hlist Hrun.
  destruct (query_stages _ _ _ _ _ _ _ _ _ _ _ _ _ Hrun Hq Hlist)
    as (data0 & data1 & data2 & Hfetch & Htopic & Hfirst & Hwrite).
  split; [by eapply map_result_length|].
  intros i m thr w Hi Hw.
  destruct (write_row_source fetch tz_locale msgs data0 data1 data2 m thr w)
    as (msg & r0 & r' & dt & Hmsg & Hmake & Hmember & Hsame & Htext & Hfull & _);
    try done.
  { by eapply list_elem_of_lookup_2. }
  { by eapply map_result_lookup. }
  exists data0, data1, msg, r0, r'. repeat (split; [done|]).
  intros Hr'. rewrite Hfull. by apply Hlayout.
Qed.

Lemma sample_single_line : single_line_headers sample_record.
Proof. unfold single_line_headers, single_line. repeat split; no_lf. Qed.

Lemma full_text_layout_witness :
  full_text sample_record
  = header_block sample_record ++ [LF; LF] ++ py "Hi there"
  /\ exists files,
       @query Reference.reference (fun _ => Ok sample_rows) sample_fetch
         (Date 2018 1 4) (py "2018-01-01") (py "today") None None (py "UTC")
         false 20971520 = Ok files
       /\ length files = 3%nat.
Proof.
  destruct (@full_text_layout Reference.reference sample_record
              sample_single_line) as [Hlayout Hfiles].
  split; [exact Hlayout|].
  destruct (@query Reference.reference (fun _ => Ok sample_rows) sample_fetch
              (Date 2018 1 4) (py "2018-01-01") (py "today") None None
              (py "UTC") false 20971520) as [files|] eqn:Hrun;
    [|by vm_compute in Hrun].
  exists files. split; [done|].
  exact (proj1 (Hfiles (fun _ => Ok sample_rows) sample_fetch (Date 2018 1 4)
                  (py "2018-01-01") (py "today") None None (py "UTC") false
                  20971520%Z (py "after:2018-01-01 before:2018-01-05")
                  sample_rows files eq_refl eq_refl Hrun)).
Defined.

(** The full text of the sample record has two line feeds more after the
    Date line, not the one the specification's wording gives. *)
Lemma full_text_two_blank_lines :
  full_text sample_record = header_block sample_record ++ [LF; LF] ++ py "Hi there"
  /\ spec_full_text sample_record = header_block sample_record ++ [LF] ++ py "Hi there"
  /\ full_text sample_record <> spec_full_text sample_record.
Proof. repeat split. vm_compute. discriminate. Qed.

(** ** A sample run *)

(** The three sample messages, listed on 2018-01-04: each file goes to the
    directory of its thread's last listed message, here the same one for
    both threads, and holds the full text of its record. *)
Example query_sample_run :
  exists files,
    @query Reference.reference (fun _ => Ok sample_rows) sample_fetch
      (Date 2018 1 4) (py "2018-01-01") (py "today") None None (py "UTC")
      false 20971520 = Ok files
    /\ w_dir <$> files
       = [py "2018-01-02 - Hello"; py "2018-01-02 - Hello"; py "2018-01-02 - Hello"]
    /\ w_name <$> files
       = [py "2018-01-03 00:00:00+00:00.md"; py "2018-01-02 00:00:00+00:00.md";
          py "2018-01-02 00:00:00+00:00.md"]
    /\ w_content <$> files
       = [header_block sample_reply_built ++ [LF; LF] ++ py "Hi there";
          py "**From:** a@x.com" ++ [LF] ++ py "**To:** b@x.com" ++ [LF]
          ++ py "**CC:** None" ++ [LF] ++ py "**Subject:** Hello" ++ [LF]
          ++ py "**Thread Topic:** Hello" ++ [LF]
          ++ py "**Date:** Tuesday Jan 02, 2018, 12:00 AM UTC" ++ [LF]
          ++ [LF; LF] ++ py "Hi there";
          py "**From:** a@x.com" ++ [LF] ++ py "**To:** b@x.com" ++ [LF]
          ++ py "**CC:** None" ++ [LF] ++ py "**Subject:** Hello" ++ [LF]
          ++ py "**Thread Topic:** " ++ [LF]
          ++ py "**Date:** Tuesday Jan 02, 2018, 12:00 AM UTC" ++ [LF]
          ++ [LF; LF] ++ py "Hi there"].
Proof. eexists. split; [vm_compute; reflexivity|]. repeat split. Qed.

(** * Further properties *)

(** ** The walker over a list of siblings *)

Lemma any_sibling_skip search allowed pre rest :
  Forall (lacks allowed search) pre ->
  any_sibling search allowed (pre ++ rest) = any_sibling search allowed rest.
Proof.
  induction 1 as [|m pre (ct & Hct & Hout) _ IH]; [done|].
  cbn [app any_sibling]. rewrite Hct. cbn [bind]. by rewrite Hout.
Qed.

Lemma any_sibling_none search allowed l :
  Forall (lacks allowed search) l -> any_sibling search allowed l = Ok false.
Proof.
  intros Hl. rewrite <- (app_nil_r l). by rewrite any_sibling_skip.
Qed.

(** X1: on a list of siblings, the first sibling whose [search] field is in
    [allowed] ends the search: the whole list comes back with [True],
    whatever the negation flag and whatever the siblings after it are.  The
    siblings before it must have the field, with a content outside
    [allowed]. *)
Theorem get_next_part_list_first_match (pre post : list value) (m ct : value)
    (what search : str) (negation : bool) (allowed : list str) :
  Forall (lacks allowed search) pre ->
  getitem m search = Ok ct ->
  in_strs ct allowed = true ->
  get_next_part (VList (pre ++ m :: post)) what search negation allowed
  = Ok (pre ++ m :: post, true).
Proof.
  intros Hpre Hct Hin. unfold get_next_part.
  rewrite any_sibling_skip by done. cbn [any_sibling].
  rewrite Hct. cbn [bind]. by rewrite Hin.
Qed.

Lemma get_next_part_list_first_match_witness :
  get_next_part (VList ([png_node; gif_part] ++ plain_leaf :: [untyped_part]))
    default_what default_search false default_allowed
  = Ok ([png_node; gif_part] ++ plain_leaf :: [untyped_part], true).
Proof.
  apply (get_next_part_list_first_match _ _ _ (VStr (py "text/plain"))).
  - repeat constructor; eexists; split; reflexivity.
  - reflexivity.
  - reflexivity.
Defined.

(** X2: on a list of siblings, a sibling whose [search] field cannot be
    read, met before any sibling that matches, makes [get_next_part] raise
    that lookup error, even when a later sibling would match. *)
Theorem get_next_part_list_error (pre post : list value) (m : value) (e : exn)
    (what search : str) (negation : bool) (allowed : list str) :
  Forall (lacks allowed search) pre ->
  getitem m search = Raise e ->
  get_next_part (VList (pre ++ m :: post)) what search negation allowed
  = Raise e.
Proof.
  intros Hpre Hm. unfold get_next_part.
  rewrite any_sibling_skip by done. cbn [any_sibling].
  by rewrite Hm.
Qed.

Lemma get_next_part_list_error_witness :
  get_next_part (VList ([png_node] ++ untyped_part :: [plain_leaf]))
    default_what default_search false default_allowed
  = Raise KeyError.
Proof.
  apply get_next_part_list_error.
  - repeat constructor; eexists; split; reflexivity.
  - reflexivity.
Defined.

(** X3: on a list in which no sibling matches, [get_next_part] goes down
    into the first sibling only: it returns that sibling's [what] field,
    coerced to a list, with [False], raises that lookup's error when the
    field is missing, and raises [IndexError] on the empty list.  The other
    siblings' children are never looked at. *)
Theorem get_next_part_list_descends (l : list value) (what search : str)
    (negation : bool) (allowed : list str) :
  Forall (lacks allowed search) l ->
  get_next_part (VList l) what search negation allowed
  = match l with
    | [] => Raise IndexError
    | first :: _ => let* parts := getitem first what in Ok (as_list parts, false)
    end.
Proof.
  intros Hl. unfold get_next_part.
  rewrite any_sibling_none by done. cbn [bind].
  by destruct l.
Qed.

Lemma get_next_part_list_descends_witness :
  get_next_part (VList [png_node; gif_part]) default_what default_search false
    default_allowed
  = Ok ([VDict [(py "mimeType", VStr (py "text/plain"))]], false).
Proof.
  rewrite get_next_part_list_descends; [reflexivity|].
  repeat constructor; eexists; split; reflexivity.
Defined.

(** X4: when [get_next_part] returns [True], the list it returns is the
    level it was given (the list itself, or the single node in a list), and
    without negation that level holds a part whose [search] field is in
    [allowed]. *)
Theorem get_next_part_found (msg : value) (what search : str) (negation : bool)
    (allowed : list str) (parts : list value) :
  get_next_part msg what search negation allowed = Ok (parts, true) ->
  parts = as_list msg
  /\ (negation = false ->
      exists p ct, p ∈ parts /\ getitem p search = Ok ct
                   /\ in_strs ct allowed = true).
Proof.
  intros Hget.
  assert (Hlist : forall l, msg = VList l ->
            parts = l /\ exists p ct, p ∈ l /\ getitem p search = Ok ct
                                      /\ in_strs ct allowed = true).
  { intros l ->. cbn [get_next_part] in Hget.
    destruct (any_sibling search allowed l) as [[]|] eqn:Hany; cbn [bind] in Hget.
    - injection Hget as <-. split; [done|].
      apply any_sibling_true in Hany as (p & ct & Hp & Hct & Hin).
      exists p, ct. by rewrite in_strs_spec.
    - destruct (getitem0 l) as [first|]; [|done]. cbn [bind] in Hget.
      by destruct (getitem first what).
    - done. }
  assert (Hnode : is_list msg = false ->
            parts = [msg] /\ exists ct, getitem msg search = Ok ct
              /\ (if negation then negb (in_strs ct allowed)
                  else in_strs ct allowed) = true).
  { intros Hnl.
    assert (Hunf : get_next_part msg what search negation allowed
              = let* v := getitem msg search in
                if (if negation then negb (in_strs v allowed)
                    else in_strs v allowed)
                then Ok ([msg], true)
                else let* parts := getitem msg what in Ok (as_list parts, false))
      by (by destruct msg).
    rewrite Hunf in Hget.
    destruct (getitem msg search) as [ct|] eqn:Hct; [|done]. cbn [bind] in Hget.
    destruct (if negation then _ else _) eqn:Hcrit.
    - injection Hget as <-. eauto.
    - by destruct (getitem msg what). }
  destruct (is_list msg) eqn:Hkind.
  - destruct msg; try discriminate Hkind.
    destruct (Hlist _ eq_refl) as (-> & Hp). split; [done|]. by intros _.
  - destruct (Hnode eq_refl) as (-> & ct & Hct & Hcrit).
    split; [by destruct msg|]. intros ->. exists msg, ct.
    split; [apply list_elem_of_singleton; reflexivity|done].
Qed.

Lemma get_next_part_found_witness :
  [plain_leaf] = as_list plain_leaf
  /\ exists p ct, p ∈ [plain_leaf] /\ getitem p default_search = Ok ct
                  /\ in_strs ct default_allowed = true.
Proof.
  destruct (get_next_part_found plain_leaf default_what default_search false
              default_allowed [plain_leaf] eq_refl) as [Has Hex].
  split; [exact Has | exact (Hex eq_refl)].
Defined.

(** ** Where the body decoder looks *)

Lemma getitem_dict v k x : getitem v k = Ok x -> exists d, v = VDict d.
Proof. destruct v; try discriminate. eauto. Qed.

Lemma in_strs_types mime : mime ∈ types -> in_strs (VStr mime) types = true.
Proof. intros Hin. apply in_strs_spec. by apply list_elem_of_fmap_2. Qed.

Lemma eq_str_refl s : eq_str (VStr s) s = true.
Proof. cbn. by apply bool_decide_eq_true. Qed.

Lemma not_text_other_type prefer v :
  prefer ∈ types -> not_text v -> other_type prefer v.
Proof.
  intros Hin (ct & Hct & Hout). exists ct. split; [done|].
  destruct ct; try done. cbn. apply bool_decide_eq_false. intros ->.
  by rewrite in_strs_types in Hout.
Qed.

Lemma walk_succ n parts :
  walk (S n) parts
  = let* (next, found) :=
      get_next_part parts (py "parts") (py "mimeType") false types in
    if found then Ok (VList next, true) else walk n (VList next).
Proof. reflexivity. Qed.

Lemma get_next_part_not_text v children :
  not_text v -> getitem v (py "parts") = Ok (VList children) ->
  get_next_part v (py "parts") (py "mimeType") false types = Ok (children, false).
Proof.
  intros (ct & Hct & Hout) Hparts.
  destruct (getitem_dict _ _ _ Hct) as [d ->].
  cbn [get_next_part]. rewrite Hct. cbn [bind]. rewrite Hout, Hparts. done.
Qed.

Lemma get_next_part_text v mime :
  getitem v (py "mimeType") = Ok (VStr mime) -> mime ∈ types ->
  get_next_part v (py "parts") (py "mimeType") false types = Ok ([v], true).
Proof.
  intros Hct Hin. destruct (getitem_dict _ _ _ Hct) as [d ->].
  cbn [get_next_part]. rewrite Hct. cbn [bind]. by rewrite in_strs_types.
Qed.

Lemma get_next_part_siblings_miss first others children :
  Forall not_text (first :: others) ->
  getitem first (py "parts") = Ok (VList children) ->
  get_next_part (VList (first :: others)) (py "parts") (py "mimeType") false types
  = Ok (children, false).
Proof.
  intros Hall Hparts. unfold get_next_part.
  rewrite any_sibling_none by done. cbn [bind getitem0]. by rewrite Hparts.
Qed.

Lemma walk_siblings n : forall first others leaf mime k,
  reaches n first leaf ->
  (n <> O -> Forall not_text others) ->
  getitem leaf (py "mimeType") = Ok (VStr mime) -> mime ∈ types ->
  exists others',
    walk (n + S k) (VList (first :: others)) = Ok (VList (leaf :: others'), true).
Proof.
  induction n as [|n IH]; intros first others leaf mime k Hreach Hothers Hct Hin.
  - cbn in Hreach. subst first. exists others.
    change (0 + S k)%nat with (S k). rewrite walk_succ.
    cbn [get_next_part any_sibling]. rewrite Hct. cbn [bind].
    by rewrite in_strs_types.
  - destruct Hreach as (Hnt & first' & others' & Hparts & Hothers' & Hreach).
    destruct (IH first' others' leaf mime k Hreach Hothers' Hct Hin) as [o Ho].
    exists o. change (S n + S k)%nat with (S (n + S k)). rewrite walk_succ.
    rewrite (get_next_part_siblings_miss first others (first' :: others'));
      [exact Ho|constructor; [exact Hnt|by apply Hothers]|exact Hparts].
Qed.

Lemma walk_reaches n payload leaf mime k :
  reaches n payload leaf ->
  getitem leaf (py "mimeType") = Ok (VStr mime) -> mime ∈ types ->
  exists others, walk (n + S k) payload = Ok (VList (leaf :: others), true).
Proof.
  intros Hreach Hct Hin. destruct n as [|n].
  - cbn in Hreach. subst payload. exists [].
    change (0 + S k)%nat with (S k). rewrite walk_succ.
    by rewrite (get_next_part_text leaf mime).
  - destruct Hreach as (Hnt & first & others & Hparts & Hothers & Hreach).
    destruct (walk_siblings n first others leaf mime k Hreach Hothers Hct Hin)
      as [o Ho].
    exists o. change (S n + S k)%nat with (S (n + S k)). rewrite walk_succ.
    rewrite (get_next_part_not_text payload (first :: others)) by done.
    exact Ho.
Qed.

Lemma pick_part_first prefer pre p post data bound :
  Forall (other_type prefer) pre -> carries p prefer data ->
  pick_part prefer (pre ++ p :: post) bound = Ok (Some p).
Proof.
  intros Hpre [Hct _]. revert bound.
  induction Hpre as [|x pre (ct & Hx & Hne) _ IH]; intros bound.
  - cbn [app pick_part]. rewrite Hct. cbn [bind]. by rewrite eq_str_refl.
  - cbn [app pick_part]. rewrite Hx. cbn [bind]. rewrite Hne. apply IH.
Qed.

Lemma pick_part_last prefer l bound :
  Forall (other_type prefer) l ->
  pick_part prefer l bound = Ok (match last l with Some z => Some z | None => bound end).
Proof.
  intros Hl. revert bound.
  induction Hl as [|x l (ct & Hx & Hne) _ IH]; intros bound; [done|].
  cbn [pick_part]. rewrite Hx. cbn [bind]. rewrite Hne, IH.
  destruct l as [|y l]; [done|]. rewrite last_cons_cons.
  destruct (last (y :: l)) eqn:Hlast; [done|].
  by apply last_None in Hlast.
Qed.

Lemma extract_part `{Runtime} l prefer p mime data :
  pick_part prefer l None = Ok (Some p) ->
  carries p mime data ->
  extract (VList l) prefer
  = let* plain := decode_body (VStr data) in Ok (VStr mime, plain).
Proof.
  intros Hpick (Hct & body & Hbody & Hdata). unfold extract.
  cbn [iterate bind]. rewrite Hpick. cbn [bind].
  rewrite Hct. cbn [bind]. rewrite Hbody. cbn [bind]. by rewrite Hdata.
Qed.

Lemma parse_body_io_found `{Runtime} msg payload prefer depth parts found :
  getitem msg (py "payload") = Ok payload ->
  prefer ∈ types ->
  walk (Z.to_nat depth) payload = Ok (parts, found) ->
  parse_body_io msg prefer depth
  = let '(pmime, plain) :=
      match extract parts prefer with
      | Ok r => r
      | Raise _ => (VStr (py "text/plain"), fallback)
      end in
    if found && negb (eq_str pmime prefer) then
      let* _ := print (py "Could not find preferred type. Body retrieved as "
                       ++ py_str pmime ++ py ".") in
      Ok (plain, [py "Could not find preferred type. Body retrieved as "
                  ++ py_str pmime ++ py "."])
    else Ok (plain, []).
Proof.
  intros Hpayload Hprefer Hwalk. unfold parse_body_io, resolve.
  rewrite bool_decide_eq_true_2 by done. cbn [negb].
  rewrite Hpayload. cbn [bind]. by rewrite Hwalk.
Qed.

(** X5: [parse_body] raises [Warning] for every preferred type other than
    [text/plain] and [text/html], before it looks at the message: also for a
    message without payload. *)
Theorem parse_body_rejects_prefer `{Runtime} (msg : value) (prefer : str)
    (depth : Z) :
  prefer <> py "text/plain" ->
  prefer <> py "text/html" ->
  parse_body msg prefer depth = Raise Warning.
Proof.
  intros Hplain Hhtml. unfold parse_body, parse_body_io.
  rewrite bool_decide_eq_false_2; [done|].
  intros Hin. apply elem_of_cons in Hin as [->|Hin]; [done|].
  apply elem_of_cons in Hin as [->|Hin]; [done|].
  by apply elem_of_nil in Hin.
Qed.

Lemma parse_body_rejects_prefer_witness :
  @parse_body Reference.reference (VDict []) (py "text/enriched") 10
  = Raise Warning.
Proof. by apply parse_body_rejects_prefer. Defined.

(** X6: a part of the preferred type that lies on the first-child path of
    the payload, fewer levels down than [depth], is the body [parse_body]
    returns, decoded, and nothing is printed.  Above the last level the
    other children must be typed parts that are not text; at the last level
    they may be anything. *)
Theorem parse_body_first_child_path `{Runtime} (msg payload leaf : value)
    (n : nat) (prefer data text : str) (depth : Z) :
  getitem msg (py "payload") = Ok payload ->
  prefer ∈ types ->
  reaches n payload leaf ->
  carries leaf prefer data ->
  decode_body (VStr data) = Ok text ->
  (Z.of_nat n < depth)%Z ->
  parse_body_io msg prefer depth = Ok (text, []).
Proof.
  intros Hpayload Hprefer Hreach Hleaf Hdecode Hdepth.
  destruct (walk_reaches n payload leaf prefer (Z.to_nat depth - S n)
              Hreach (proj1 Hleaf) Hprefer) as [others Hwalk].
  replace (n + S (Z.to_nat depth - S n))%nat with (Z.to_nat depth) in Hwalk by lia.
  rewrite (parse_body_io_found _ _ _ _ _ _ Hpayload Hprefer Hwalk).
  rewrite (extract_part _ prefer leaf prefer data);
    [|exact (pick_part_first prefer [] leaf others data None (Forall_nil_2 _) Hleaf)
     |exact Hleaf].
  rewrite Hdecode. cbn [bind]. by rewrite eq_str_refl.
Qed.

Lemma parse_body_first_child_path_witness :
  @parse_body_io Reference.reference mixed_message (py "text/plain") 10
  = Ok (py "Hi there", []).
Proof.
  apply (parse_body_first_child_path mixed_message
           (multipart "multipart/mixed"
              [multipart "multipart/alternative"
                 [body_part "text/plain" "SGkgdGhlcmU=";
                  body_part "text/html" "PHA+SGkgdGhlcmU8L3A+"];
               attachment])
           (body_part "text/plain" "SGkgdGhlcmU=") 2 (py "text/plain")
           (py "SGkgdGhlcmU=")).
  - reflexivity.
  - by repeat constructor.
  - split; [by eexists|].
    eexists _, _. split; [reflexivity|]. split.
    + intros _. repeat constructor. by eexists.
    + split; [by eexists|].
      eexists _, _. split; [reflexivity|]. split; [done|reflexivity].
  - split; [reflexivity|]. eexists. split; reflexivity.
  - reflexivity.
  - reflexivity.
Defined.

(** X7: among the siblings the walk ends on, [parse_body] decodes the first
    one of the preferred type and prints nothing, whatever follows it. *)
Theorem parse_body_preferred_sibling `{Runtime} (msg payload p : value)
    (pre post : list value) (found : bool) (prefer data text : str)
    (depth : Z) :
  getitem msg (py "payload") = Ok payload ->
  prefer ∈ types ->
  walk (Z.to_nat depth) payload = Ok (VList (pre ++ p :: post), found) ->
  Forall (other_type prefer) pre ->
  carries p prefer data ->
  decode_body (VStr data) = Ok text ->
  parse_body_io msg prefer depth = Ok (text, []).
Proof.
  intros Hpayload Hprefer Hwalk Hpre Hp Hdecode.
  rewrite (parse_body_io_found _ _ _ _ _ _ Hpayload Hprefer Hwalk).
  rewrite (extract_part _ prefer p prefer data);
    [|by apply (pick_part_first prefer pre p post data)|exact Hp].
  rewrite Hdecode. cbn [bind]. rewrite eq_str_refl. by destruct found.
Qed.

Lemma parse_body_preferred_sibling_witness :
  @parse_body_io Reference.reference alternative_message (py "text/html") 10
  = Ok (py "<p>Hi there</p>", []).
Proof.
  apply (parse_body_preferred_sibling alternative_message
           (multipart "multipart/alternative"
              [body_part "text/plain" "SGkgdGhlcmU=";
               body_part "text/html" "PHA+SGkgdGhlcmU8L3A+"])
           (body_part "text/html" "PHA+SGkgdGhlcmU8L3A+")
           [body_part "text/plain" "SGkgdGhlcmU="] [] true (py "text/html")
           (py "PHA+SGkgdGhlcmU8L3A+")).
  - reflexivity.
  - by repeat constructor.
  - reflexivity.
  - repeat constructor. by eexists.
  - split; [reflexivity|]. eexists. split; reflexivity.
  - reflexivity.
Defined.

(** X8: when no sibling the walk ends on has the preferred type,
    [parse_body] decodes the last sibling of the list, whatever its type,
    and, when the walk had found a text part, prints that the body was
    retrieved as that last sibling's type; it raises what that [print]
    raises, and returns the text otherwise. *)
Theorem parse_body_last_sibling `{Runtime} (msg payload z : value)
    (init : list value) (found : bool) (prefer mime data text : str)
    (depth : Z) :
  getitem msg (py "payload") = Ok payload ->
  prefer ∈ types ->
  walk (Z.to_nat depth) payload = Ok (VList (init ++ [z]), found) ->
  Forall (other_type prefer) (init ++ [z]) ->
  carries z mime data ->
  decode_body (VStr data) = Ok text ->
  parse_body_io msg prefer depth
  = if found then
      let* _ := print (py "Could not find preferred type. Body retrieved as "
                       ++ mime ++ py ".") in
      Ok (text, [py "Could not find preferred type. Body retrieved as "
                 ++ mime ++ py "."])
    else Ok (text, []).
Proof.
  intros Hpayload Hprefer Hwalk Hall Hz Hdecode.
  rewrite (parse_body_io_found _ _ _ _ _ _ Hpayload Hprefer Hwalk).
  rewrite (extract_part _ prefer z mime data); [| |exact Hz].
  - rewrite Hdecode. cbn [bind].
    assert (Hne : eq_str (VStr mime) prefer = false).
    { apply Forall_app in Hall as [_ Hlast].
      apply Forall_cons in Hlast as [(ct & Hct & Hne) _].
      destruct Hz as [Hmime _]. rewrite Hmime in Hct. by injection Hct as <-. }
    rewrite Hne. by destruct found.
  - rewrite pick_part_last by done. by rewrite last_snoc.
Qed.

Lemma parse_body_last_sibling_witness :
  @parse_body_io Reference.reference html_message (py "text/plain") 10
  = Ok (py "<p>Hi there</p>",
        [py "Could not find preferred type. Body retrieved as text/html."]).
Proof.
  etrans.
  - apply (parse_body_last_sibling html_message
             (body_part "text/html" "PHA+SGkgdGhlcmU8L3A+")
             (body_part "text/html" "PHA+SGkgdGhlcmU8L3A+")
             [] true (py "text/plain") (py "text/html")
             (py "PHA+SGkgdGhlcmU8L3A+") (py "<p>Hi there</p>")).
    + reflexivity.
    + by repeat constructor.
    + reflexivity.
    + repeat constructor. by eexists.
    + split; [reflexivity|]. eexists. split; reflexivity.
    + reflexivity.
  - reflexivity.
Defined.

Lemma walk_found_mono n : forall m v s,
  walk n v = Ok (s, true) -> (n <= m)%nat -> walk m v = Ok (s, true).
Proof.
  induction n as [|n IH]; intros m v s Hwalk Hle; [done|].
  destruct m as [|m]; [lia|].
  rewrite walk_succ in Hwalk |- *.
  destruct (get_next_part v _ _ _ _) as [[next []]|]; cbn [bind] in *; [done| |done].
  apply IH; [done|lia].
Qed.

(** X9: once a depth bound lets the walk find a text part, every larger
    bound gives the same result and the same printed line. *)
Theorem parse_body_depth_monotone `{Runtime} (msg payload : value)
    (prefer : str) (depth depth' : Z) :
  getitem msg (py "payload") = Ok payload ->
  fst (resolve payload prefer depth) = true ->
  (depth <= depth')%Z ->
  parse_body_io msg prefer depth' = parse_body_io msg prefer depth.
Proof.
  intros Hpayload Hfound Hle. unfold parse_body_io.
  destruct (negb (bool_decide (prefer ∈ types))); [done|].
  rewrite Hpayload. cbn [bind].
  assert (Hsame : resolve payload prefer depth' = resolve payload prefer depth);
    [|by rewrite Hsame].
  unfold resolve in Hfound |- *.
  destruct (walk (Z.to_nat depth) payload) as [[parts found]|] eqn:Hwalk;
    [|done].
  cbn in Hfound. subst found.
  by rewrite (walk_found_mono _ (Z.to_nat depth') _ _ Hwalk) by lia.
Qed.

Lemma parse_body_depth_monotone_witness :
  @parse_body_io Reference.reference mixed_message (py "text/plain") 50
  = @parse_body_io Reference.reference mixed_message (py "text/plain") 3.
Proof.
  apply (parse_body_depth_monotone mixed_message
           (multipart "multipart/mixed"
              [multipart "multipart/alternative"
                 [body_part "text/plain" "SGkgdGhlcmU=";
                  body_part "text/html" "PHA+SGkgdGhlcmU8L3A+"];
               attachment])).
  - reflexivity.
  - reflexivity.
  - lia.
Defined.

Lemma extract_dict_raises `{Runtime} d prefer :
  raises (extract (VDict d) prefer) = true.
Proof.
  unfold extract. cbn [iterate bind].
  destruct d as [|[k v] d]; [done|].
  cbn [dict_keys]. by rewrite decide_False by apply not_elem_of_nil.
Qed.

Lemma parse_body_io_raised `{Runtime} msg payload prefer depth parts :
  getitem msg (py "payload") = Ok payload ->
  prefer ∈ types ->
  walk (Z.to_nat depth) payload = Ok (parts, false) ->
  raises (extract parts prefer) = true ->
  parse_body_io msg prefer depth = Ok (fallback, []).
Proof.
  intros Hpayload Hprefer Hwalk Hraises.
  rewrite (parse_body_io_found _ _ _ _ _ _ Hpayload Hprefer Hwalk).
  by destruct (extract parts prefer).
Qed.

(** X10: with a depth of zero or less no step is taken: for a payload that
    is a dict, [parse_body] returns the fallback text and prints nothing. *)
Theorem parse_body_depth_zero `{Runtime} (msg : value)
    (d : list (str * value)) (prefer : str) (depth : Z) :
  getitem msg (py "payload") = Ok (VDict d) ->
  prefer ∈ types ->
  (depth <= 0)%Z ->
  parse_body_io msg prefer depth = Ok (fallback, []).
Proof.
  intros Hpayload Hprefer Hdepth.
  apply (parse_body_io_raised _ _ _ _ (VDict d) Hpayload Hprefer).
  - by replace (Z.to_nat depth) with O by lia.
  - apply extract_dict_raises.
Qed.

Lemma parse_body_depth_zero_witness :
  @parse_body_io Reference.reference html_message (py "text/html") 0
  = Ok (fallback, []).
Proof.
  apply (parse_body_depth_zero html_message
           [(py "partId", VStr (py "0")); (py "mimeType", VStr (py "text/html"));
            (py "body", VDict [(py "size", VInt 8);
                               (py "data", VStr (py "PHA+SGkgdGhlcmU8L3A+"))])]).
  - reflexivity.
  - by repeat constructor.
  - lia.
Defined.

Lemma nest_not_text n leaf : not_text (nest (S n) leaf).
Proof. by eexists. Qed.

Lemma walk_nest_siblings leaf j k :
  walk k (VList [nest (k + S j) leaf]) = Ok (VList [nest (S j) leaf], false).
Proof.
  induction k as [|k IH]; [done|].
  rewrite walk_succ.
  rewrite (get_next_part_siblings_miss _ [] [nest (k + S j) leaf]);
    [exact IH|repeat constructor; apply nest_not_text|reflexivity].
Qed.

(** X11: below more single-child multipart nodes than [depth] allows, no
    leaf is reached: the walk stops on a multipart node, which has no body,
    and [parse_body] returns the fallback text and prints nothing. *)
Theorem parse_body_too_deep `{Runtime} (msg leaf : value) (n : nat)
    (prefer : str) (depth : Z) :
  getitem msg (py "payload") = Ok (nest (S n) leaf) ->
  prefer ∈ types ->
  (depth <= Z.of_nat n)%Z ->
  parse_body_io msg prefer depth = Ok (fallback, []).
Proof.
  intros Hpayload Hprefer Hdepth.
  destruct (Z.to_nat depth) as [|k] eqn:Hk.
  - apply (parse_body_io_raised _ _ _ _ (nest (S n) leaf) Hpayload Hprefer).
    + by rewrite Hk.
    + apply extract_dict_raises.
  - assert (Hn : n = (k + S (n - S k))%nat) by lia.
    set (j := (n - S k)%nat) in Hn.
    apply (parse_body_io_raised _ _ _ _ (VList [nest (S j) leaf]) Hpayload Hprefer).
    + rewrite Hk, Hn at 1. rewrite walk_succ.
      rewrite (get_next_part_not_text _ [nest (k + S j) leaf]);
        [|apply nest_not_text|reflexivity].
      apply walk_nest_siblings.
    + unfold extract. cbn [iterate bind].
      rewrite pick_part_last
        by (repeat constructor; apply not_text_other_type;
            [done|apply nest_not_text]).
      reflexivity.
Qed.

Lemma parse_body_too_deep_witness :
  @parse_body_io Reference.reference
    (VDict [(py "payload", nest 3 (body_part "text/plain" "SGkgdGhlcmU="))])
    (py "text/plain") 2
  = Ok (fallback, []).
Proof.
  apply (parse_body_too_deep _ (body_part "text/plain" "SGkgdGhlcmU=") 2).
  - reflexivity.
  - by repeat constructor.
  - lia.
Defined.

(** ** The header dict *)

(** X12: the header dict is keyed by lower-cased names, and of several
    headers whose names lower-case to the same key the last one listed gives
    the value. *)
Theorem make_header_last `{Runtime} (headers : list (str * str)) (k : str) :
  make_header headers !! k
  = snd <$> last (filter (fun x => str_lower x.1 = k) headers).
Proof.
  unfold make_header.
  induction headers as [|x headers IH] using rev_ind; [done|].
  rewrite foldl_snoc, filter_app.
  destruct (decide (str_lower x.1 = k)) as [Heq|Hne].
  - rewrite filter_cons_True, filter_nil, last_snoc by done.
    rewrite <- Heq. apply lookup_insert_eq.
  - rewrite filter_cons_False, filter_nil, app_nil_r by done.
    by rewrite lookup_insert_ne.
Qed.

(** X13: a message that has no [Date], [To], [From] or [Subject] header,
    under any spelling of the name, gets no record: [make_record] raises,
    and with [KeyError] when it is the date that is missing. *)
Theorem make_record_requires `{Runtime} (msg : message) (tz_locale k : str) :
  k ∈ required_headers ->
  (forall n v, (n, v) ∈ msg_headers msg -> str_lower n <> k) ->
  raises (make_record msg tz_locale) = true
  /\ (k = py "date" -> make_record msg tz_locale = Raise KeyError).
Proof.
  intros Hk Hnone.
  pose proof (make_header_lookup_none _ _ Hnone) as Hlook.
  assert (Hitem : header_item (make_header (msg_headers msg)) k = Raise KeyError)
    by (unfold header_item; by rewrite Hlook).
  unfold make_record. set (h := make_header (msg_headers msg)) in *.
  unfold required_headers in Hk. split.
  - apply elem_of_cons in Hk as [->|Hk]; [by rewrite Hitem|].
    destruct (header_item h (py "date")) as [dh|]; [cbn [bind]|done].
    destruct (date_parse dh) as [dt|]; [cbn [bind]|done].
    destruct (strftime_in dt tz_locale) as [date|]; [cbn [bind]|done].
    apply elem_of_cons in Hk as [->|Hk]; [by rewrite Hitem|].
    destruct (header_item h (py "to")) as [to|]; [cbn [bind]|done].
    apply elem_of_cons in Hk as [->|Hk]; [by rewrite Hitem|].
    destruct (header_item h (py "from")) as [from|]; [cbn [bind]|done].
    apply elem_of_cons in Hk as [->|Hk]; [by rewrite Hitem|].
    by apply elem_of_nil in Hk.
  - intros ->. by rewrite Hitem.
Qed.

Lemma make_record_requires_witness :
  raises (@make_record Reference.reference bcc_message (py "UTC")) = true.
Proof.
  apply (make_record_requires bcc_message (py "UTC") (py "to")).
  - by repeat constructor.
  - intros n v Hin.
    repeat (apply elem_of_cons in Hin as [[= -> ->]|Hin]; [done|]).
    by apply elem_of_nil in Hin.
Defined.

(** ** The search string and the end date *)

(** X14: with an end date other than ['today'], [query] raises before it
    calls the API: the same exception whatever the listing and the messages
    are. *)
Theorem query_explicit_end_date `{Runtime} (today : date)
    (begin_date end_date : str) (label g_query : option str) (att_get : bool)
    (max_size : Z) :
  end_date <> py "today" ->
  exists e, forall list_messages fetch tz_locale,
    query list_messages fetch today begin_date end_date label g_query
      tz_locale att_get max_size
    = Raise e.
Proof.
  intros Hne.
  pose proof (build_query_end_date_raises today begin_date end_date label
                g_query att_get max_size Hne) as Hraises.
  destruct (build_query today begin_date end_date label g_query att_get max_size)
    as [q|e] eqn:Hq; [done|].
  exists e. intros list_messages fetch tz_locale. unfold query. by rewrite Hq.
Qed.

Lemma query_explicit_end_date_witness :
  exists e, forall list_messages fetch tz_locale,
    @query Reference.reference list_messages fetch (Date 2018 1 4)
      (py "2018-01-01") (py "2018-01-03") None None tz_locale false 20971520
    = Raise e.
Proof. by apply query_explicit_end_date. Defined.

(** ** The thread mappings before the first loop *)

Lemma filter_bool_decide {A} (P : A -> Prop) `{forall x, Decision (P x)} l :
  List.filter (fun x => bool_decide (P x)) l = filter P l.
Proof.
  induction l as [|x l IH]; [done|]. cbn [List.filter].
  destruct (decide (P x)) as [Hx|Hx].
  - by rewrite bool_decide_eq_true_2, filter_cons_True, IH.
  - by rewrite bool_decide_eq_false_2, filter_cons_False, IH.
Qed.

Lemma od_set_again {V} (init : V) k ks :
  k ∈ ks ->
  od_set k init ((fun k => (k, init)) <$> ks) = (fun k => (k, init)) <$> ks.
Proof.
  induction ks as [|k' ks IH]; intros Hin; [by apply elem_of_nil in Hin|].
  cbn [fmap list_fmap od_set]. destruct (decide (k = k')) as [->|Hne]; [done|].
  apply elem_of_cons in Hin as [->|Hin]; [done|]. f_equal. by apply IH.
Qed.

Lemma od_set_fresh {V} (init : V) k ks :
  k ∉ ks ->
  od_set k init ((fun k => (k, init)) <$> ks)
  = (fun k => (k, init)) <$> (ks ++ [k]).
Proof.
  induction ks as [|k' ks IH]; intros Hout; [done|].
  apply not_elem_of_cons in Hout as [Hne Hout].
  cbn [fmap list_fmap od_set app]. rewrite decide_False by done.
  f_equal. by apply IH.
Qed.

Lemma od_fromkeys_from {V} (init : V) keys : forall ks,
  fold_left (fun d k => od_set k init d) keys ((fun k => (k, init)) <$> ks)
  = (fun k => (k, init)) <$> (ks ++ filter (fun x => x ∉ ks) (distinct keys)).
Proof.
  induction keys as [|k keys IH]; intros ks.
  - cbn. by rewrite app_nil_r.
  - cbn [fold_left distinct]. destruct (decide (k ∈ ks)) as [Hin|Hout].
    + rewrite od_set_again, IH by done.
      rewrite filter_cons_False by (intros Hk; by apply Hk).
      rewrite list_filter_filter. do 2 f_equal.
      apply list_filter_iff. intros x. split; [|by intros [? _]].
      intros Hx. split; [done|]. by intros ->.
    + rewrite od_set_fresh, IH by done.
      rewrite filter_cons_True by done.
      rewrite list_filter_filter, <- app_assoc. do 3 f_equal.
      apply list_filter_iff. intros x.
      rewrite not_elem_of_app, not_elem_of_cons.
      pose proof (not_elem_of_nil x). tauto.
Qed.

Lemma od_fromkeys_distinct {V} (init : V) keys :
  od_fromkeys init keys = (fun k => (k, init)) <$> distinct keys.
Proof.
  unfold od_fromkeys.
  change (@nil (str * V)) with ((fun k => (k, init)) <$> @nil str).
  rewrite (od_fromkeys_from init keys []).
  cbn [app]. f_equal. induction (distinct keys) as [|x l IH]; [done|].
  rewrite filter_cons_True by apply not_elem_of_nil. by rewrite IH.
Qed.

(** X15: before the first loop, [data] maps the listed thread ids, each
    once and in the order of first occurrence, to the message ids listed for
    the thread, each once and in listing order, every one holding [None]. *)
Theorem init_data_grouped (msgs : list row) :
  init_data msgs
  = (fun thr =>
       (thr, (fun m => (m, Unset))
             <$> distinct (fst <$> filter (fun r : row => r.2 = thr) msgs)))
    <$> distinct (snd <$> msgs).
Proof.
  unfold init_data. rewrite od_fromkeys_distinct, <- list_fmap_compose.
  apply list_fmap_ext. intros _ thr _. cbn.
  by rewrite od_fromkeys_distinct, filter_bool_decide.
Qed.

(** ** The records the loops keep *)

(** X16: after the first loop, [data[thr][m]] of every listed row [(m, thr)]
    is the record built from the message that the message-get call returns
    for [m]. *)
Theorem fetch_all_records `{Runtime} (fetch : str -> result message)
    (tz_locale : str) (msgs : list row) (data : threads) (m thr : str) :
  fetch_all fetch tz_locale msgs (init_data msgs) = Ok data ->
  (m, thr) ∈ msgs ->
  exists msg r,
    fetch m = Ok msg /\ make_record msg tz_locale = Ok r
    /\ member data thr m = Ok r.
Proof.
  intros Hrun Hrow.
  destruct (filled_entry msgs data thr m (fetch_all_filled _ _ _ _ Hrun) Hrow)
    as [r Hr].
  destruct (fetch_all_fetched _ _ _ _ _ _ _ Hrun Hr) as (msg & Hfetch & Hmake).
  exists msg, r. by rewrite member_entry.
Qed.

Lemma fetch_all_records_witness :
  exists msg r,
    sample_fetch (py "m2") = Ok msg
    /\ @make_record Reference.reference msg (py "UTC") = Ok r
    /\ member sample_data (py "t1") (py "m2") = Ok r.
Proof.
  apply (fetch_all_records sample_fetch (py "UTC") sample_rows).
  - reflexivity.
  - by repeat constructor.
Defined.




(** ** What the second loop changes *)

(** X18: the second loop changes a record's thread topic and full text
    only: sender, recipients, CC, subject, date and body stay, and a thread
    topic that was there is kept. *)
Theorem topic_all_preserves (msgs : list row) (data data' : threads)
    (thr m : str) (r : record) :
  topic_all msgs data = Ok data' ->
  member data thr m = Ok r ->
  exists r',
    member data' thr m = Ok r'
    /\ rec_to r' = rec_to r /\ rec_from r' = rec_from r
    /\ rec_cc r' = rec_cc r /\ rec_subject r' = rec_subject r
    /\ rec_date r' = rec_date r /\ rec_body r' = rec_body r
    /\ forall T, rec_thread_topic r = Some T -> rec_thread_topic r' = Some T.
Proof. apply topic_rows_same_mail. Qed.

Lemma topic_all_preserves_witness :
  exists data' r',
    topic_all sample_rows sample_data = Ok data'
    /\ member data' (py "t1") (py "m1") = Ok r'
    /\ rec_to r' = py "b@x.com" /\ rec_from r' = py "a@x.com"
    /\ rec_cc r' = None /\ rec_subject r' = py "Hello"
    /\ rec_date r' = py "Tuesday Jan 02, 2018, 12:00 AM UTC"
    /\ rec_body r' = py "Hi there".
Proof.
  destruct (topic_all sample_rows sample_data) as [data'|] eqn:Hrun;
    [|by vm_compute in Hrun].
  destruct (topic_all_preserves sample_rows sample_data data' (py "t1") (py "m1")
              sample_built Hrun eq_refl)
    as (r' & Hr' & Hto & Hfrom & Hcc & Hsubject & Hdate & Hbody & _).
  exists data', r'. repeat split; assumption.
Defined.

(** ** Where a thread topic comes from *)

Lemma choose_topic_origin topics :
  exists T, choose_topic topics = Some T /\ (T = [] \/ Some T ∈ topics).
Proof.
  unfold choose_topic.
  set (l := elements (list_to_set topics : gset (option str))).
  assert (Hnd : NoDup l) by apply NoDup_elements.
  assert (Hel : forall x, x ∈ l <-> x ∈ topics).
  { intros x. unfold l. by rewrite elem_of_elements, elem_of_list_to_set. }
  set (l' := if bool_decide (None ∈ l) then remove_first None l else l).
  assert (Hel' : forall x, x ∈ l' <-> x ∈ l /\ x <> None).
  { unfold l'. destruct (bool_decide (None ∈ l)) eqn:E.
    - by apply remove_first_spec.
    - apply bool_decide_eq_false in E. intros x. split.
      + intros Hx. split; [done|]. by intros ->.
      + by intros [? _]. }
  destruct l' as [|first rest]; [by exists []; split; [|left]|].
  destruct (proj1 (Hel' first) ltac:(by left)) as [Hin Hsome].
  destruct first as [T|]; [|done].
  exists T. split; [done|]. right. by apply Hel.
Qed.

Lemma topic_rows_origin msgs data0 rows : forall data,
  (forall x, x ∈ rows -> x ∈ msgs) ->
  filled msgs data ->
  (forall thr t t0, assoc thr data = Some t -> assoc thr data0 = Some t0 ->
     topics_from t0 t) ->
  exists data',
    fold_result topic_row rows data = Ok data'
    /\ forall thr m, (m, thr) ∈ rows \/ topical data thr m ->
         topical data' thr m
         /\ forall t' t0, assoc thr data' = Some t' -> assoc thr data0 = Some t0 ->
              topics_from t0 t'.
Proof.
  induction rows as [|[m0 thr0] rows IH]; intros data Hsub Hfilled Hinv.
  - exists data. split; [done|].
    intros thr m [Hin|Htop]; [by apply elem_of_nil in Hin|].
    split; [done|]. intros t' t0. apply Hinv.
  - assert (Hrow : (m0, thr0) ∈ msgs) by (apply Hsub; by left).
    destruct (topic_row_step msgs data m0 thr0 Hfilled Hrow)
      as (data1 & t & r & r1 & topics & Ht & Hm & Htopics & Hstep & Ht1 & Hother
          & Htopic & Hfilled1).
    assert (Hinv1 : forall thr t1 t0,
              assoc thr data1 = Some t1 -> assoc thr data0 = Some t0 ->
              topics_from t0 t1).
    { intros thr t1 t0 Hthr H0. destruct (decide (thr = thr0)) as [->|Hne].
      - rewrite Ht1 in Hthr. injection Hthr as <-.
        pose proof (Hinv thr0 t t0 Ht H0) as Hfrom.
        intros m r' T [[= -> ->]|Hin]%od_set_elem HT; [|by eapply Hfrom].
        rewrite Htopic in HT. destruct (rec_thread_topic r) as [own|] eqn:Hown.
        + injection HT as ->. apply (Hfrom m0 r); [|done].
          by apply assoc_Some_elem.
        + destruct (choose_topic_origin topics) as (T' & Hchoice & Horigin).
          rewrite Hchoice in HT. injection HT as ->.
          destruct Horigin as [->|Hin]; [by left|].
          apply Htopics in Hin as (m' & r' & Hin & HT').
          by eapply Hfrom.
      - rewrite Hother in Hthr by done. by eapply Hinv. }
    destruct (IH data1 (fun x Hx => Hsub x (list_elem_of_further _ _ _ Hx))
                Hfilled1 Hinv1) as (data' & Hrest & Hall).
    exists data'. split; [cbn [fold_result]; by rewrite Hstep|].
    intros thr m Hcase. apply Hall.
    destruct (decide ((thr, m) = (thr0, m0))) as [[= -> ->]|Hne].
    + right. unfold topical, entry_at. rewrite Ht1, assoc_od_set_eq.
      destruct (rec_thread_topic r) as [own|] eqn:Hown.
      * by exists r1, own.
      * destruct (choose_topic_origin topics) as (T' & Hchoice & _).
        exists r1, T'. split; [done|]. by rewrite Htopic.
    + destruct Hcase as [[[= -> ->]|Hin]%elem_of_cons|(r' & T & Hentry & HT)];
        [done|by left|].
      right. exists r', T. split; [|done]. unfold entry_at in Hentry |- *.
      destruct (decide (thr = thr0)) as [->|Hthr].
      * rewrite Ht1. rewrite Ht in Hentry.
        rewrite assoc_od_set_ne by congruence. done.
      * by rewrite Hother.
Qed.

Lemma topics_from_refl t : topics_from t t.
Proof. intros m r T Hin HT. right. by exists m, r. Qed.

(** X19: after the second loop every listed message has a thread topic, and
    it is the empty string or a topic that a message of its thread carried
    when it was fetched. *)
Theorem topic_all_assigns `{Runtime} (fetch : str -> result message)
    (tz_locale : str) (msgs : list row) (data0 : threads) (thr m : str)
    (t0 : thread) :
  fetch_all fetch tz_locale msgs (init_data msgs) = Ok data0 ->
  od_get thr data0 = Ok t0 ->
  (m, thr) ∈ msgs ->
  exists data1 r T,
    topic_all msgs data0 = Ok data1
    /\ member data1 thr m = Ok r
    /\ rec_thread_topic r = Some T
    /\ (T = [] \/ exists m0 r0,
                    (m0, Rec r0) ∈ t0 /\ rec_thread_topic r0 = Some T).
Proof.
  intros Hfetch Ht0 Hrow.
  assert (Hassoc : assoc thr data0 = Some t0).
  { unfold od_get in Ht0. by destruct (assoc thr data0) as [t|]; [injection Ht0 as ->|]. }
  destruct (topic_rows_origin msgs data0 msgs data0 (fun _ Hx => Hx)
              (fetch_all_filled _ _ _ _ Hfetch))
    as (data1 & Hrun & Hall).
  { intros thr' t t' Ht Ht'. rewrite Ht in Ht'. injection Ht' as <-.
    apply topics_from_refl. }
  destruct (Hall thr m (or_introl Hrow)) as [(r & T & Hentry & HT) Hfrom].
  exists data1, r, T. split; [done|]. split; [by apply member_entry|].
  split; [done|].
  unfold entry_at in Hentry.
  destruct (assoc thr data1) as [t1|] eqn:Ht1; [|done].
  apply (Hfrom t1 t0 eq_refl Hassoc m r T); [by apply assoc_Some_elem|done].
Qed.

Lemma topic_all_assigns_witness :
  exists data1 r T,
    topic_all sample_rows sample_data = Ok data1
    /\ member data1 (py "t2") (py "m3") = Ok r
    /\ rec_thread_topic r = Some T
    /\ (T = [] \/ exists m0 r0,
                    (m0, Rec r0) ∈ [(py "m3", Rec sample_built)]
                    /\ rec_thread_topic r0 = Some T).
Proof.
  apply (@topic_all_assigns Reference.reference sample_fetch (py "UTC")
           sample_rows sample_data
           (py "t2") (py "m3")).
  - reflexivity.
  - reflexivity.
  - by repeat constructor.
Defined.

(** ** From the listing to the files *)

Lemma write_row_dir `{Runtime} data m1 m2 thr w1 w2 :
  write_row data (m1, thr) = Ok w1 -> write_row data (m2, thr) = Ok w2 ->
  w_dir w1 = w_dir w2.
Proof.
  unfold write_row.
  destruct (od_get thr data) as [t|]; [|discriminate]. cbn [bind].
  destruct (od_get (py "first_date") t); [|discriminate]. cbn [bind].
  destruct (od_get (py "first_subject") t); [|discriminate]. cbn [bind].
  destruct (mkdir _); [|discriminate]. cbn [bind].
  destruct (member data thr m1) as [r1|]; [|discriminate]. cbn [bind].
  destruct (date_parse (rec_date r1)); [|discriminate]. cbn [bind].
  destruct (open _ _); [|discriminate]. cbn [bind].
  destruct (rec_full_text r1); [|discriminate].
  destruct (write _ _ _); [|discriminate]. cbn [bind]. intros [= <-].
  destruct (member data thr m2) as [r2|]; [|discriminate]. cbn [bind].
  destruct (date_parse (rec_date r2)); [|discriminate]. cbn [bind].
  destruct (open _ _); [|discriminate]. cbn [bind].
  destruct (rec_full_text r2); [|discriminate].
  destruct (write _ _ _); [|discriminate]. cbn [bind]. by intros [= <-].
Qed.

(** X20: a run that succeeds writes one file per listed row, in listing
    order; the file of row [(m, thr)] holds the full text of the record
    built from the message fetched for [m], with at most a thread topic
    added, and is named [str(date_parse(date)) + '.md'] for that record's
    rendered date. *)
Theorem query_files_trace `{Runtime}
    (list_messages : str -> result (list row)) (fetch : str -> result message)
    (today : date) (begin_date end_date : str) (label g_query : option str)
    (tz_locale : str) (att_get : bool) (max_size : Z) (q : str)
    (msgs : list row) (files : list written) :
  query list_messages fetch today begin_date end_date label g_query tz_locale
    att_get max_size = Ok files ->
  build_query today begin_date end_date label g_query att_get max_size = Ok q ->
  list_messages q = Ok msgs ->
  length files = length msgs
  /\ forall i m thr w,
       msgs !! i = Some (m, thr) -> files !! i = Some w ->
       exists msg r0 r dt,
         fetch m = Ok msg /\ make_record msg tz_locale = Ok r0
         /\ same_mail r0 r
         /\ w_content w = full_text r
         /\ date_parse (rec_date r0) = Ok dt
         /\ w_name w = datetime_str dt ++ py ".md".
Proof.
  intros Hrun Hq Hlist.
  destruct (query_stages _ _ _ _ _ _ _ _ _ _ _ _ _ Hrun Hq Hlist)
    as (data0 & data1 & data2 & Hfetch & Htopic & Hfirst & Hwrite).
  split; [by eapply map_result_length|].
  intros i m thr w Hi Hw.
  apply (write_row_trace fetch tz_locale msgs data0 data1 data2 m thr w);
    try done.
  - by eapply list_elem_of_lookup_2.
  - by eapply map_result_lookup.
Qed.

(** X21: the files of two rows of one thread go to the same directory, and
    when the two messages' rendered dates are equal they get the same file
    name too, so that they are written to one path. *)
Theorem query_same_path `{Runtime}
    (list_messages : str -> result (list row)) (fetch : str -> result message)
    (today : date) (begin_date end_date : str) (label g_query : option str)
    (tz_locale : str) (att_get : bool) (max_size : Z) (q : str)
    (msgs : list row) (files : list written) (i j : nat) (mi mj thr : str)
    (wi wj : written) :
  query list_messages fetch today begin_date end_date label g_query tz_locale
    att_get max_size = Ok files ->
  build_query today begin_date end_date label g_query att_get max_size = Ok q ->
  list_messages q = Ok msgs ->
  msgs !! i = Some (mi, thr) -> msgs !! j = Some (mj, thr) ->
  files !! i = Some wi -> files !! j = Some wj ->
  w_dir wi = w_dir wj
  /\ forall msgi msgj ri rj,
       fetch mi = Ok msgi -> make_record msgi tz_locale = Ok ri ->
       fetch mj = Ok msgj -> make_record msgj tz_locale = Ok rj ->
       rec_date ri = rec_date rj ->
       w_name wi = w_name wj.
Proof.
  intros Hrun Hq Hlist Hi Hj Hwi Hwj.
  destruct (query_stages _ _ _ _ _ _ _ _ _ _ _ _ _ Hrun Hq Hlist)
    as (data0 & data1 & data2 & Hfetch & Htopic & Hfirst & Hwrite).
  pose proof (map_result_lookup _ _ _ _ _ _ Hwrite Hi Hwi) as Hrowi.
  pose proof (map_result_lookup _ _ _ _ _ _ Hwrite Hj Hwj) as Hrowj.
  split; [by eapply write_row_dir|].
  intros msgi msgj ri rj Hmi Hri Hmj Hrj Hdate.
  destruct (write_row_trace fetch tz_locale msgs data0 data1 data2 mi thr wi)
    as (msgi' & ri' & _ & dti & Hmi' & Hri' & _ & _ & Hdti & ->); try done.
  { by eapply list_elem_of_lookup_2. }
  destruct (write_row_trace fetch tz_locale msgs data0 data1 data2 mj thr wj)
    as (msgj' & rj' & _ & dtj & Hmj' & Hrj' & _ & _ & Hdtj & ->); try done.
  { by eapply list_elem_of_lookup_2. }
  rewrite Hmi in Hmi'. injection Hmi' as <-.
  rewrite Hmj in Hmj'. injection Hmj' as <-.
  rewrite Hri in Hri'. injection Hri' as <-.
  rewrite Hrj in Hrj'. injection Hrj' as <-.
  rewrite Hdate, Hdtj in Hdti. by injection Hdti as ->.
Qed.

Lemma query_files_trace_witness :
  exists files,
    @query Reference.reference (fun _ => Ok sample_rows) sample_fetch
      (Date 2018 1 4) (py "2018-01-01") (py "today") None None (py "UTC")
      false 20971520 = Ok files
    /\ length files = 3%nat.
Proof.
  destruct (@query Reference.reference (fun _ => Ok sample_rows) sample_fetch
              (Date 2018 1 4) (py "2018-01-01") (py "today") None None
              (py "UTC") false 20971520) as [files|] eqn:Hrun;
    [|by vm_compute in Hrun].
  exists files. split; [done|].
  exact (proj1 (query_files_trace (fun _ => Ok sample_rows) sample_fetch
                  (Date 2018 1 4) (py "2018-01-01") (py "today") None None
                  (py "UTC") false 20971520
                  (py "after:2018-01-01 before:2018-01-05") sample_rows files
                  Hrun eq_refl eq_refl)).
Defined.

Lemma query_same_path_witness :
  exists files wi wj,
    @query Reference.reference (fun _ => Ok sample_rows) sample_fetch
      (Date 2018 1 4) (py "2018-01-01") (py "today") None None (py "UTC")
      false 20971520 = Ok files
    /\ files !! 0%nat = Some wi /\ files !! 1%nat = Some wj
    /\ w_dir wi = w_dir wj.
Proof.
  destruct (@query Reference.reference (fun _ => Ok sample_rows) sample_fetch
              (Date 2018 1 4) (py "2018-01-01") (py "today") None None
              (py "UTC") false 20971520) as [files|] eqn:Hrun;
    [|by vm_compute in Hrun].
  pose proof Hrun as Hfiles. vm_compute in Hfiles.
  destruct files as [|wi [|wj files]]; try discriminate Hfiles.
  exists (wi :: wj :: files), wi, wj.
  split; [done|]. split; [done|]. split; [done|].
  exact (proj1 (query_same_path (fun _ => Ok sample_rows) sample_fetch
                  (Date 2018 1 4) (py "2018-01-01") (py "today") None None
                  (py "UTC") false 20971520
                  (py "after:2018-01-01 before:2018-01-05") sample_rows
                  (wi :: wj :: files) 0 1 (py "m2") (py "m1") (py "t1") wi wj
                  Hrun eq_refl eq_refl eq_refl eq_refl eq_refl eq_refl)).
Defined.

(** ** The keys of the thread mappings *)

Lemma od_fromkeys_keys {V} (init : V) keys :
  (od_fromkeys init keys).*1 = distinct keys.
Proof.
  rewrite od_fromkeys_distinct, <- list_fmap_compose.
  induction (distinct keys) as [|k l IH]; [done|]. cbn. by rewrite IH.
Qed.

Lemma NoDup_distinct l : NoDup (distinct l).
Proof. rewrite <- (od_fromkeys_keys ()). apply od_fromkeys_spec. Qed.

Lemma elem_of_distinct l x : x ∈ distinct l <-> x ∈ l.
Proof. rewrite <- (od_fromkeys_keys ()). apply od_fromkeys_spec. Qed.

Lemma elem_of_thread_ids msgs thr m : m ∈ thread_ids msgs thr <-> (m, thr) ∈ msgs.
Proof.
  unfold thread_ids. rewrite elem_of_distinct, list_elem_of_fmap. split.
  - intros ([m' thr'] & -> & [Hthr Hin]%list_elem_of_filter). cbn in *. by subst.
  - intros Hin. exists (m, thr). split; [done|]. by apply list_elem_of_filter.
Qed.

Lemma assoc_is_Some {V} k (d : odict V) v : assoc k d = Some v -> k ∈ d.*1.
Proof.
  intros Hk. destruct (decide (k ∈ d.*1)) as [|Hout]; [done|].
  apply assoc_None in Hout. congruence.
Qed.

Lemma init_data_keyed msgs : keyed msgs (init_data msgs).
Proof.
  split.
  - unfold init_data. rewrite <- list_fmap_compose.
    rewrite <- (od_fromkeys_keys () (snd <$> msgs)).
    by apply list_fmap_ext.
  - intros thr t. rewrite assoc_init_data.
    destruct (assoc thr _); [|done]. cbn. intros [= <-].
    by rewrite od_fromkeys_keys, filter_bool_decide.
Qed.

Lemma set_member_keyed msgs data thr m e data' :
  keyed msgs data -> (m, thr) ∈ msgs ->
  set_member data thr m e = Ok data' -> keyed msgs data'.
Proof.
  intros [Hkeys Hthreads] Hrow Hset.
  pose proof Hset as (t & Ht & Ht' & Hother)%set_member_assoc.
  unfold set_member, od_get in Hset. rewrite Ht in Hset. cbn [bind] in Hset.
  injection Hset as <-. split.
  - rewrite od_set_keys_present; [done|]. by eapply assoc_is_Some.
  - intros thr' t'. destruct (decide (thr' = thr)) as [->|Hne].
    + rewrite Ht'. intros [= <-]. rewrite od_set_keys_present; [by apply Hthreads|].
      rewrite (Hthreads thr t Ht). by apply elem_of_thread_ids.
    + rewrite Hother by done. apply Hthreads.
Qed.

Lemma keyed_shaped msgs data : keyed msgs data -> shaped msgs data.
Proof.
  intros [Hkeys Hthreads] thr. destruct (assoc thr data) as [t|] eqn:Ht.
  - rewrite (Hthreads thr t Ht). split; [apply NoDup_distinct|].
    intros m. apply elem_of_thread_ids.
  - intros m Hin. apply assoc_None in Ht. apply Ht. rewrite Hkeys.
    apply elem_of_distinct, list_elem_of_fmap. by exists (m, thr).
Qed.

Lemma fetch_row_sets `{Runtime} fetch tz_locale data m thr data' :
  fetch_row fetch tz_locale data (m, thr) = Ok data' ->
  exists e, set_member data thr m e = Ok data'.
Proof.
  unfold fetch_row. destruct (fetch m); [|discriminate]. cbn [bind].
  destruct (make_record _ _); [|discriminate]. cbn [bind]. eauto.
Qed.

Lemma topic_row_sets data m thr data' :
  topic_row data (m, thr) = Ok data' ->
  exists e, set_member data thr m e = Ok data'.
Proof.
  unfold topic_row. destruct (od_get thr data); [|discriminate]. cbn [bind].
  destruct (map_result _ _); [|discriminate]. cbn [bind].
  destruct (member data thr m); [|discriminate]. cbn [bind]. eauto.
Qed.

Lemma fold_rows_keyed msgs (f : threads -> row -> result threads) rows :
  (forall data m thr data', f data (m, thr) = Ok data' ->
     exists e, set_member data thr m e = Ok data') ->
  (forall x, x ∈ rows -> x ∈ msgs) ->
  forall data data',
    keyed msgs data -> fold_result f rows data = Ok data' -> keyed msgs data'.
Proof.
  intros Hsets. induction rows as [|[m thr] rows IH]; intros Hsub data data' Hk;
    cbn [fold_result].
  - by intros [= <-].
  - destruct (f data (m, thr)) as [data1|] eqn:Hstep; [|discriminate].
    cbn [bind]. destruct (Hsets _ _ _ _ Hstep) as [e Hset].
    apply IH; [intros x Hx; apply Hsub; by right|].
    eapply set_member_keyed; [exact Hk| |exact Hset]. apply Hsub. by left.
Qed.

Lemma fetch_all_keyed `{Runtime} fetch tz_locale msgs data :
  fetch_all fetch tz_locale msgs (init_data msgs) = Ok data -> keyed msgs data.
Proof.
  apply (fold_rows_keyed msgs _ msgs); [|done|apply init_data_keyed].
  intros ? ? ? ?. apply fetch_row_sets.
Qed.

Lemma topic_all_keyed msgs data data' :
  keyed msgs data -> topic_all msgs data = Ok data' -> keyed msgs data'.
Proof.
  apply (fold_rows_keyed msgs _ msgs); [|done].
  intros ? ? ? ?. apply topic_row_sets.
Qed.

Lemma set_first_inv `{Runtime} t t' :
  set_first t = Ok t' ->
  exists k first dt,
    last t.*1 = Some k /\ assoc k t = Some (Rec first)
    /\ date_parse (rec_date first) = Ok dt
    /\ t' = od_set (py "first_date") (Scalar (date_str (dt_date dt)))
              (od_set (py "first_subject") (Scalar (rec_subject first)) t).
Proof.
  unfold set_first, od_get. destruct (last t.*1) as [k|]; [|discriminate].
  destruct (assoc k t) as [[|first|]|] eqn:Hk; try discriminate. cbn [bind].
  destruct (date_parse (rec_date first)) as [dt|] eqn:Hdt; [|discriminate].
  cbn [bind]. intros [= <-]. by exists k, first, dt.
Qed.

Lemma set_first_scalars (t : thread) (d s : entry) :
  od_get (py "first_date")
    (od_set (py "first_date") d (od_set (py "first_subject") s t)) = Ok d
  /\ od_get (py "first_subject")
       (od_set (py "first_date") d (od_set (py "first_subject") s t)) = Ok s.
Proof.
  unfold od_get. split.
  - by rewrite assoc_od_set_eq.
  - rewrite assoc_od_set_ne by (by vm_compute). by rewrite assoc_od_set_eq.
Qed.

(** X22: the directory a file goes to is named after the last message id
    listed for the file's thread: the date, as [YYYY-MM-DD], that parsing
    that message's rendered date yields, then [' - '], then its subject. *)
Theorem query_directory_name `{Runtime}
    (list_messages : str -> result (list row)) (fetch : str -> result message)
    (today : date) (begin_date end_date : str) (label g_query : option str)
    (tz_locale : str) (att_get : bool) (max_size : Z) (q : str)
    (msgs : list row) (files : list written) (i : nat) (m thr : str)
    (w : written) :
  query list_messages fetch today begin_date end_date label g_query tz_locale
    att_get max_size = Ok files ->
  build_query today begin_date end_date label g_query att_get max_size = Ok q ->
  list_messages q = Ok msgs ->
  msgs !! i = Some (m, thr) -> files !! i = Some w ->
  exists k msg r0 dt,
    last (thread_ids msgs thr) = Some k
    /\ fetch k = Ok msg /\ make_record msg tz_locale = Ok r0
    /\ date_parse (rec_date r0) = Ok dt
    /\ w_dir w = date_str (dt_date dt) ++ py " - " ++ rec_subject r0.
Proof.
  intros Hrun Hq Hlist Hi Hw.
  destruct (query_stages _ _ _ _ _ _ _ _ _ _ _ _ _ Hrun Hq Hlist)
    as (data0 & data1 & data2 & Hfetch & Htopic & Hfirst & Hwrite).
  pose proof (map_result_lookup _ _ _ _ _ _ Hwrite Hi Hw) as Hrow.
  pose proof (fetch_all_filled _ _ _ _ Hfetch) as Hfilled0.
  pose proof (topic_all_keyed _ _ _ (fetch_all_keyed _ _ _ _ Hfetch) Htopic)
    as [_ Hthreads1].
  unfold write_row in Hrow.
  destruct (od_get thr data2) as [t2|] eqn:Ht2; [|discriminate].
  cbn [bind] in Hrow. unfold od_get in Ht2.
  destruct (assoc thr data2) as [t2'|] eqn:Hassoc2; [|discriminate].
  injection Ht2 as ->.
  destruct (first_all_assoc _ _ _ _ Hfirst Hassoc2) as (t1 & Ht1 & Hset).
  destruct (set_first_inv _ _ Hset) as (k & first & dt & Hlast & Hk & Hdate & ->).
  destruct (set_first_scalars t1 (Scalar (date_str (dt_date dt)))
              (Scalar (rec_subject first))) as [Hd Hs].
  rewrite Hd in Hrow. cbn [bind] in Hrow. rewrite Hs in Hrow. cbn [bind] in Hrow.
  destruct (mkdir _); [|discriminate]. cbn [bind] in Hrow.
  destruct (member data2 thr m) as [r|]; [|discriminate]. cbn [bind] in Hrow.
  destruct (date_parse (rec_date r)); [|discriminate]. cbn [bind] in Hrow.
  destruct (open _ _); [|discriminate]. cbn [bind] in Hrow.
  destruct (rec_full_text r); [|discriminate].
  destruct (write _ _ _); [|discriminate]. cbn [bind] in Hrow.
  injection Hrow as <-.
  cbn [w_dir entry_str].
  rewrite (Hthreads1 thr t1 Ht1) in Hlast.
  assert (Hkrow : (k, thr) ∈ msgs).
  { apply elem_of_thread_ids. by eapply last_Some_elem_of. }
  destruct (filled_entry _ _ _ _ Hfilled0 Hkrow) as [r0 Hr0].
  destruct (fetch_all_fetched _ _ _ _ _ _ _ Hfetch Hr0) as (msg & Hmsg & Hmake).
  apply member_entry in Hr0.
  destruct (topic_rows_same_mail _ _ _ _ _ _ Htopic Hr0) as (r' & Hr' & Hsame).
  apply member_entry in Hr'. unfold entry_at in Hr'. rewrite Ht1, Hk in Hr'.
  injection Hr' as <-.
  destruct Hsame as (_ & _ & _ & Hsubject & Hdate' & _).
  exists k, msg, r0, dt. rewrite <- Hsubject, <- Hdate'. done.
Qed.

Lemma query_directory_name_witness :
  exists files w k msg r0 dt,
    @query Reference.reference (fun _ => Ok sample_rows) sample_fetch
      (Date 2018 1 4) (py "2018-01-01") (py "today") None None (py "UTC")
      false 20971520 = Ok files
    /\ files !! 0%nat = Some w
    /\ last (thread_ids sample_rows (py "t1")) = Some k
    /\ sample_fetch k = Ok msg
    /\ @make_record Reference.reference msg (py "UTC") = Ok r0
    /\ @date_parse Reference.reference (rec_date r0) = Ok dt
    /\ w_dir w = date_str (dt_date dt) ++ py " - " ++ rec_subject r0.
Proof.
  destruct (@query Reference.reference (fun _ => Ok sample_rows) sample_fetch
              (Date 2018 1 4) (py "2018-01-01") (py "today") None None
              (py "UTC") false 20971520) as [files|] eqn:Hrun;
    [|by vm_compute in Hrun].
  pose proof Hrun as Hfiles. vm_compute in Hfiles.
  destruct files as [|w files]; try discriminate Hfiles.
  destruct (query_directory_name (fun _ => Ok sample_rows) sample_fetch
              (Date 2018 1 4) (py "2018-01-01") (py "today") None None
              (py "UTC") false 20971520
              (py "after:2018-01-01 before:2018-01-05") sample_rows
              (w :: files) 0 (py "m2") (py "t1") w
              Hrun eq_refl eq_refl eq_refl eq_refl)
    as (k & msg & r0 & dt & Hk & Hmsg & Hr0 & Hdt & Hdir).
  exists (w :: files), w, k, msg, r0, dt.
  split; [reflexivity|]. split; [reflexivity|]. split; [exact Hk|].
  split; [exact Hmsg|]. split; [exact Hr0|]. split; [exact Hdt|exact Hdir].
Defined.

(** ** What can make a run fail *)

Lemma map_result_ok {A B} (f : A -> result B) l :
  (forall x, x ∈ l -> exists y, f x = Ok y) -> exists l', map_result f l = Ok l'.
Proof.
  induction l as [|x l IH]; intros Hall; [by exists []|].
  destruct (Hall x ltac:(by left)) as [y Hy].
  destruct IH as [ys Hys]; [intros x' Hx'; apply Hall; by right|].
  exists (y :: ys). cbn [map_result]. by rewrite Hy, Hys.
Qed.

Lemma map_result_cases {A B} (f : A -> result B) l :
  (exists l', map_result f l = Ok l')
  \/ (exists x e, x ∈ l /\ f x = Raise e /\ map_result f l = Raise e).
Proof.
  induction l as [|x l IH]; [left; by exists []|]. cbn [map_result].
  destruct (f x) as [y|e] eqn:Hx; cbn [bind].
  - destruct IH as [[ys ->]|(x' & e & Hin & Hx' & ->)]; cbn [bind].
    + left. by eexists.
    + right. exists x', e. split; [by right|done].
  - right. exists x, e. split; [by left|done].
Qed.

Lemma fetch_rows_ok `{Runtime} fetch tz_locale msgs rows :
  (forall x, x ∈ rows -> x ∈ msgs) ->
  (forall m thr, (m, thr) ∈ rows ->
     exists msg r, fetch m = Ok msg /\ make_record msg tz_locale = Ok r) ->
  forall data, shaped msgs data ->
    exists data', fold_result (fetch_row fetch tz_locale) rows data = Ok data'.
Proof.
  induction rows as [|[m thr] rows IH]; intros Hsub Hall data Hshaped.
  - by exists data.
  - destruct (Hall m thr ltac:(by left)) as (msg & r & Hmsg & Hr).
    assert (Hrow : (m, thr) ∈ msgs) by (apply Hsub; by left).
    destruct (set_member_ok msgs data thr m (Rec r) Hshaped Hrow) as [data1 Hset].
    destruct (IH (fun x Hx => Hsub x (list_elem_of_further _ _ _ Hx))
                (fun m' thr' Hx => Hall m' thr' (list_elem_of_further _ _ _ Hx))
                data1 (set_member_shaped _ _ _ _ _ _ Hshaped Hrow Hset))
      as [data' Hrest].
    exists data'. cbn [fold_result]. unfold fetch_row at 1.
    rewrite Hmsg. cbn [bind]. rewrite Hr. cbn [bind]. by rewrite Hset.
Qed.

Lemma topic_rows_texted rows : forall data data' thr m,
  fold_result topic_row rows data = Ok data' ->
  (m, thr) ∈ rows \/ texted data thr m ->
  texted data' thr m.
Proof.
  induction rows as [|[m0 thr0] rows IH]; intros data data' thr m;
    cbn [fold_result].
  - intros [= <-] [Hin|Hdone]; [by apply elem_of_nil in Hin|done].
  - destruct (topic_row data (m0, thr0)) as [data1|] eqn:Hstep; [|discriminate].
    cbn [bind]. intros Hrest Hcase. apply (IH data1 data' thr m Hrest).
    unfold topic_row in Hstep.
    destruct (od_get thr0 data) as [t|]; [|discriminate]. cbn [bind] in Hstep.
    destruct (map_result entry_topic _); [|discriminate]. cbn [bind] in Hstep.
    destruct (member data thr0 m0) as [rec|]; [|discriminate].
    cbn [bind] in Hstep.
    destruct (set_member_entry _ _ _ _ _ Hstep) as [Hnew Hold].
    destruct (decide ((thr, m) = (thr0, m0))) as [[= -> ->]|Hne].
    + right. eexists _, _. split; [exact Hnew|reflexivity].
    + destruct Hcase as [[[= -> ->]|Hin]%elem_of_cons|(r & text & Hentry & Htext)];
        [done|by left|].
      right. exists r, text. split; [|done]. by rewrite Hold.
Qed.

Lemma first_all_assoc_fwd `{Runtime} data : forall data' thr t,
  first_all data = Ok data' -> assoc thr data = Some t ->
  exists t', assoc thr data' = Some t' /\ set_first t = Ok t'.
Proof.
  unfold first_all.
  induction data as [|[k t0] data IH]; intros data' thr t; cbn [map_result];
    [done|].
  cbn [fst snd]. destruct (set_first t0) as [t1|] eqn:Hfirst; [|discriminate].
  cbn [bind].
  destruct (map_result _ data) as [rest|]; [|discriminate]. cbn [bind].
  intros [= <-]. cbn [assoc].
  destruct (decide (thr = k)) as [->|Hne].
  - intros [= <-]. by exists t1.
  - by apply IH.
Qed.

Lemma thread_ids_nonempty msgs thr m : (m, thr) ∈ msgs -> thread_ids msgs thr <> [].
Proof.
  intros Hrow%elem_of_thread_ids Hnil. rewrite Hnil in Hrow.
  by apply elem_of_nil in Hrow.
Qed.

(** After the first two loops, the record of a listed message has the date
    of the fetched one and holds its full text. *)
Lemma topic_all_record `{Runtime} fetch tz_locale msgs data0 data1 m thr :
  fetch_all fetch tz_locale msgs (init_data msgs) = Ok data0 ->
  topic_all msgs data0 = Ok data1 ->
  (m, thr) ∈ msgs ->
  exists t1 r msg r0 text,
    assoc thr data1 = Some t1 /\ assoc m t1 = Some (Rec r)
    /\ fetch m = Ok msg /\ make_record msg tz_locale = Ok r0
    /\ same_mail r0 r /\ rec_full_text r = Some text.
Proof.
  intros Hfetch Htopic Hrow.
  destruct (filled_entry _ _ _ _ (fetch_all_filled _ _ _ _ Hfetch) Hrow)
    as [r0 Hr0].
  destruct (fetch_all_fetched _ _ _ _ _ _ _ Hfetch Hr0) as (msg & Hmsg & Hmake).
  apply member_entry in Hr0.
  destruct (topic_rows_same_mail _ _ _ _ _ _ Htopic Hr0) as (r & Hr & Hsame).
  destruct (topic_rows_texted _ _ _ thr m Htopic (or_introl Hrow))
    as (r' & text & Hentry & Htext).
  apply member_entry in Hr. rewrite Hr in Hentry. injection Hentry as <-.
  unfold entry_at in Hr. destruct (assoc thr data1) as [t1|]; [|done].
  by exists t1, r, msg, r0, text.
Qed.

(** X23: when the search string is built, the listing is returned, and every
    listed message is fetched, has a record whose rendered date parses
    again, and has an id other than [first_subject] and [first_date], a run
    returns its files or raises what making a directory, opening a file or
    writing a file raised: nothing else in its loops fails. *)
Theorem query_raises_only_files `{Runtime}
    (list_messages : str -> result (list row)) (fetch : str -> result message)
    (today : date) (begin_date end_date : str) (label g_query : option str)
    (tz_locale : str) (att_get : bool) (max_size : Z) (q : str)
    (msgs : list row) :
  build_query today begin_date end_date label g_query att_get max_size = Ok q ->
  list_messages q = Ok msgs ->
  (forall m thr, (m, thr) ∈ msgs ->
     m <> py "first_subject" /\ m <> py "first_date"
     /\ exists msg r dt,
          fetch m = Ok msg /\ make_record msg tz_locale = Ok r
          /\ date_parse (rec_date r) = Ok dt) ->
  (exists files,
     query list_messages fetch today begin_date end_date label g_query tz_locale
       att_get max_size = Ok files)
  \/ (exists e dir name text,
        query list_messages fetch today begin_date end_date label g_query
          tz_locale att_get max_size = Raise e
        /\ (mkdir dir = Raise e \/ open dir name = Raise e
            \/ write dir name text = Raise e)).
Proof.
  intros Hq Hlist Hall. unfold query. rewrite Hq. cbn [bind].
  rewrite Hlist. cbn [bind].
  destruct (fetch_rows_ok fetch tz_locale msgs msgs (fun _ Hx => Hx)) with
    (data := init_data msgs) as [data0 Hfetch]; [|apply init_data_shaped|].
  { intros m thr Hrow. destruct (Hall m thr Hrow) as (_ & _ & msg & r & _ & ? & ? & _).
    by exists msg, r. }
  change (fold_result (fetch_row fetch tz_locale) msgs (init_data msgs))
    with (fetch_all fetch tz_locale msgs (init_data msgs)) in Hfetch.
  rewrite Hfetch. cbn [bind].
  pose proof (fetch_all_filled _ _ _ _ Hfetch) as Hfilled0.
  destruct (topic_rows_spec msgs msgs data0 (fun _ Hx => Hx) Hfilled0)
    as (data1 & Htopic & _).
  change (fold_result topic_row msgs data0) with (topic_all msgs data0) in Htopic.
  rewrite Htopic. cbn [bind].
  pose proof (topic_all_keyed _ _ _ (fetch_all_keyed _ _ _ _ Hfetch) Htopic)
    as [Hkeys1 Hthreads1].
  assert (Hparse : forall m thr t1 r,
            (m, thr) ∈ msgs -> assoc thr data1 = Some t1 ->
            assoc m t1 = Some (Rec r) ->
            (exists dt, date_parse (rec_date r) = Ok dt)
            /\ exists text, rec_full_text r = Some text).
  { intros m thr t1 r Hrow Ht1 Hm.
    destruct (topic_all_record _ _ _ _ _ _ _ Hfetch Htopic Hrow)
      as (t1' & r' & msg & r0 & text & Ht1' & Hm' & Hmsg & Hmake & Hsame & Htext).
    rewrite Ht1 in Ht1'. injection Ht1' as <-.
    rewrite Hm in Hm'. injection Hm' as <-.
    destruct (Hall m thr Hrow) as (_ & _ & msg' & r0' & dt & Hmsg' & Hmake' & Hdt).
    rewrite Hmsg in Hmsg'. injection Hmsg' as <-.
    rewrite Hmake in Hmake'. injection Hmake' as <-.
    destruct Hsame as (_ & _ & _ & _ & Hdate & _). rewrite Hdate. eauto. }
  assert (Hfirst_ok : forall thr t1, assoc thr data1 = Some t1 ->
            exists t2, set_first t1 = Ok t2).
  { intros thr t1 Ht1.
    assert (Hthr : thr ∈ distinct (snd <$> msgs))
      by (rewrite <- Hkeys1; by eapply assoc_is_Some).
    apply elem_of_distinct, list_elem_of_fmap in Hthr as ([m thr'] & -> & Hrow).
    cbn [snd] in Ht1.
    destruct (last (thread_ids msgs thr')) as [k|] eqn:Hlast;
      [|apply last_None in Hlast; by apply thread_ids_nonempty in Hrow].
    assert (Hkrow : (k, thr') ∈ msgs)
      by (apply elem_of_thread_ids; by eapply last_Some_elem_of).
    destruct (topic_all_record _ _ _ _ _ _ _ Hfetch Htopic Hkrow)
      as (t1' & first & _ & _ & _ & Ht1' & Hk & _).
    rewrite Ht1 in Ht1'. injection Ht1' as <-.
    destruct (Hparse k thr' t1 first Hkrow Ht1 Hk) as [[dt Hdt] _].
    unfold set_first, od_get. rewrite (Hthreads1 thr' t1 Ht1), Hlast, Hk.
    cbn [bind]. rewrite Hdt. cbn [bind]. eauto. }
  destruct (map_result_ok
              (fun kv : str * thread => let* t := set_first kv.2 in Ok (kv.1, t))
              data1) as [data2 Hfirst].
  { intros [thr t1] Hin. cbn [fst snd].
    destruct (Hfirst_ok thr t1) as [t2 Ht2].
    - apply assoc_elem; [|done]. rewrite Hkeys1. apply NoDup_distinct.
    - exists (thr, t2). by rewrite Ht2. }
  change (map_result _ data1) with (first_all data1) in Hfirst.
  rewrite Hfirst. cbn [bind].
  assert (Hstore : forall m thr, (m, thr) ∈ msgs ->
            exists dir name text,
              write_row data2 (m, thr)
              = let* _ := mkdir dir in
                let* _ := open dir name in
                let* _ := write dir name text in
                Ok (Written dir name text)).
  { intros m thr Hrow.
    destruct (topic_all_record _ _ _ _ _ _ _ Hfetch Htopic Hrow)
      as (t1 & r & _ & _ & _ & Ht1 & Hm & _).
    destruct (Hparse m thr t1 r Hrow Ht1 Hm) as [[dt Hdt] [text Htext]].
    destruct (first_all_assoc_fwd _ _ _ _ Hfirst Ht1) as (t2 & Ht2 & Hset).
    destruct (set_first_inv _ _ Hset) as (k & first & dt' & _ & _ & _ & ->).
    destruct (set_first_scalars t1 (Scalar (date_str (dt_date dt')))
                (Scalar (rec_subject first))) as [Hd Hs].
    destruct (Hall m thr Hrow) as (Hns & Hnd & _).
    unfold write_row, member, od_get at 1 4. rewrite Ht2. cbn [bind].
    rewrite Hd. cbn [bind]. rewrite Hs. cbn [bind].
    unfold od_get. rewrite !assoc_od_set_ne by done. rewrite Hm. cbn [bind].
    rewrite Hdt. cbn [bind]. rewrite Htext. by eexists _, _, _. }
  unfold write_all.
  destruct (map_result_cases (write_row data2) msgs)
    as [[files ->]|([m thr] & e & Hrow & Hraise & ->)]; [left; by exists files|].
  right. destruct (Hstore m thr Hrow) as (dir & name & text & Heq).
  rewrite Heq in Hraise. exists e, dir, name, text. split; [done|].
  destruct (mkdir dir) as [[]|e1]; cbn [bind] in Hraise; [|left; congruence].
  destruct (open dir name) as [[]|e2]; cbn [bind] in Hraise;
    [|right; left; congruence].
  destruct (write dir name text) as [[]|e3]; cbn [bind] in Hraise;
    [discriminate|right; right; congruence].
Qed.

Lemma query_raises_only_files_witness :
  (exists files,
     @query Reference.reference (fun _ => Ok sample_rows) sample_fetch
       (Date 2018 1 4) (py "2018-01-01") (py "today") None None (py "UTC")
       false 20971520 = Ok files)
  \/ (exists e dir name text,
        @query Reference.reference (fun _ => Ok sample_rows) sample_fetch
          (Date 2018 1 4) (py "2018-01-01") (py "today") None None (py "UTC")
          false 20971520 = Raise e
        /\ (@mkdir Reference.reference dir = Raise e
            \/ @open Reference.reference dir name = Raise e
            \/ @write Reference.reference dir name text = Raise e)).
Proof.
  apply (query_raises_only_files (fun _ => Ok sample_rows) sample_fetch
           _ _ _ _ _ _ _ _
           (py "after:2018-01-01 before:2018-01-05") sample_rows).
  - reflexivity.
  - reflexivity.
  - intros m thr Hin.
    repeat (apply elem_of_cons in Hin as [[= -> ->]|Hin];
            [split; [done|]; split; [done|]; by eexists _, _, _|]).
    by apply elem_of_nil in Hin.
Defined.

(** ** The end of the header block *)

Lemma join_snoc_empty sep (ls : list str) :
  ls <> [] -> join sep (ls ++ [[]]) = join sep ls ++ sep.
Proof.
  induction ls as [|x ls IH]; intros Hne; [done|].
  destruct ls as [|y ls].
  - cbn. by rewrite app_nil_r.
  - change (join sep ((x :: y :: ls) ++ [[]]))
      with (x ++ sep ++ join sep ((y :: ls) ++ [[]])).
    rewrite IH by done. cbn [join]. by rewrite <- !app_assoc.
Qed.

Lemma dedent_lines_blank_last ls :
  exists ls', length ls' = length ls /\ dedent_lines (ls ++ [indent12]) = ls' ++ [[]].
Proof.
  unfold dedent_lines. rewrite fmap_app. cbn [fmap list_fmap].
  change (normalize indent12) with (@nil N).
  destruct (margin_of _) as [[|c m]|].
  - exists (normalize <$> ls). by rewrite length_fmap.
  - exists (strip_margin (c :: m) <$> (normalize <$> ls)).
    split; [by rewrite !length_fmap|]. by rewrite fmap_app.
  - exists (normalize <$> ls). by rewrite length_fmap.
Qed.

Lemma template_last_line r :
  exists ls, ls <> [] /\ lines (template r) = ls ++ [indent12].
Proof.
  unfold lines, template.
  set (x := indent12 ++ py "**From:** " ++ rec_from r ++ [LF]
            ++ indent12 ++ py "**To:** " ++ rec_to r ++ [LF]
            ++ indent12 ++ py "**CC:** " ++ opt_str (rec_cc r) ++ [LF]
            ++ indent12 ++ py "**Subject:** " ++ rec_subject r ++ [LF]
            ++ indent12 ++ py "**Thread Topic:** "
            ++ opt_str (rec_thread_topic r) ++ [LF]
            ++ indent12 ++ py "**Date:** " ++ rec_date r).
  exists (split_on LF x). split; [apply split_on_nonempty|].
  rewrite <- (split_on_single LF indent12) by no_lf.
  rewrite <- split_on_sep. f_equal. unfold x.
  by rewrite <- !app_assoc.
Qed.

(** X24: whatever the header values are, the dedented header block ends
    with a line feed, so that in the full text two empty lines stand
    between the last header line and the body. *)
Theorem full_text_blank_lines (r : record) :
  exists head,
    dedent (template r) = head ++ [LF]
    /\ full_text r = head ++ [LF; LF; LF] ++ rec_body r.
Proof.
  destruct (template_last_line r) as (ls & Hne & Hlines).
  destruct (dedent_lines_blank_last ls) as (ls' & Hlen & Hdedent).
  exists (join [LF] ls').
  assert (Hhead : dedent (template r) = join [LF] ls' ++ [LF]).
  { unfold dedent, unlines. rewrite Hlines, Hdedent.
    apply join_snoc_empty. intros ->. by destruct ls. }
  split; [done|]. unfold full_text. rewrite Hhead. by rewrite <- app_assoc.
Qed.
